(** * uv_highlight: the Updater of [main.py]

    A shallow embedding of the class [Updater] (the depsgraph handler that
    records when a mesh needs a refresh, and the heartbeat that performs the
    refreshes and drives the two renderers), followed by the properties of
    its scheduling and reconciliation logic.

    Conventions of the embedding:
    - a Python [dict] is an insertion-ordered association list ([PyDict]);
    - [time.perf_counter()] readings are exact rationals ([Q]); the two
      additions [t + 0.1] and [t + 0.01] are exact, the rounding of binary64
      is not modelled;
    - a method is a computation in the monad [M]: it transforms the [World],
      emits the calls it makes on its collaborators as [Event]s and either
      returns or raises; what was mutated before an exception stays mutated;
    - [mesh.Data] and the renderers of [render] are collaborators whose code
      is in other files: they are taken through the class [Collaborators]. *)

From Stdlib Require Import List String Bool Arith ZArith QArith Lia.
Import ListNotations.

Local Open Scope string_scope.
Local Open Scope list_scope.

(** ** Python dictionaries *)

Module PyDict.

Section Dict.
Context {V : Type}.

Definition dict := list (string * V).

(** [d.keys()], in insertion order. *)
Definition keys (d : dict) : list string := map fst d.

(** [d[k]], [None] standing for [KeyError]. *)
Fixpoint get (k : string) (d : dict) : option V :=
  match d with
  | [] => None
  | (k', v) :: r => if k' =? k then Some v else get k r
  end.

(** [k in d]. *)
Definition mem (k : string) (d : dict) : bool :=
  match get k d with Some _ => true | None => false end.

(** [d[k] = v]: an existing key keeps its position, a new one goes last. *)
Fixpoint set (k : string) (v : V) (d : dict) : dict :=
  match d with
  | [] => [(k, v)]
  | (k', v') :: r => if k' =? k then (k, v) :: r else (k', v') :: set k v r
  end.

(** [del d[k]] for a key that is present. *)
Definition del (k : string) (d : dict) : dict :=
  filter (fun kv => negb (fst kv =? k)) d.

End Dict.

Arguments dict V : clear implicits.

End PyDict.

Import PyDict.

(** ** The host application, as far as the Updater reads it *)

(** [bpy.types.Object]: [obj_data] stands for the mesh contents that
    [mesh.Data.update] inspects. *)
Record Object := {
  obj_name : string;
  obj_type : string;
  obj_data : nat;
}.

(** An entry of [bpy.context.screen.areas]. *)
Record Area := {
  area_type : string;
  area_ui_type : string;
}.

(** An entry of [bpy.context.window_manager.operators]; [op_ident] is the
    identity that [!=] compares. *)
Record Operator := {
  op_ident : nat;
  bl_idname : string;
}.

(** [update.id] of a depsgraph update; [id_type = None] when the datablock
    has no attribute [type]. *)
Record ID := {
  id_name : string;
  id_type : option string;
}.

(** An entry of [depsgraph.updates]; [upd_id = None] when [update.id] is
    falsy. *)
Record DepsgraphUpdate := {
  upd_id : option ID;
  is_updated_geometry : bool;
}.

(** What [bpy.context] answers during one callback. *)
Record Context := {
  active_object : option Object;
  selected_objects : list Object;
  tool_uv_select_mode : string;
  areas : list Area;
  operators : list Operator;
  depsgraph_updates : list DepsgraphUpdate;
}.

(** Time stamps. *)
Definition Time := Q.

Definition Qltb (x y : Q) : bool := negb (Qle_bool y x).

Definition sentinel : Time := (-1)%Q.
Definition long_delay : Time := 0.1%Q.
Definition short_delay : Time := 0.01%Q.

(** ** The collaborators *)

(** The interface of [mesh.Data] and of the renderers that [main.py] uses. *)
Class Collaborators := {
  MeshData : Type;
  (** [mesh.Data()] *)
  mesh_Data : MeshData;
  (** [data.update(obj, selection_only)]: the refreshed snapshot and
      whether anything changed *)
  mesh_update : MeshData -> Object -> bool -> MeshData * bool;
  Renderer : Type;
  (** [renderer.enabled] *)
  enabled : Renderer -> bool;
  (** [renderer.disable()] *)
  disable : Renderer -> Renderer;
  (** [renderer.update(data)] *)
  update : Renderer -> MeshData -> Renderer;
  (** [renderer.mode = mode] *)
  set_mode : Renderer -> string -> Renderer;
}.

(** The two presentation surfaces. *)
Inductive Surface := View3d | UV.

(** What a method can raise, and how it ends. *)
Inductive Exn :=
| KeyError (k : string)
| ValueError
| AttributeError.

Inductive Result (A : Type) :=
| Ok (a : A)
| Raise (e : Exn).
Arguments Ok {A} a.
Arguments Raise {A} e.

Section Model.
Context `{Collaborators}.

(** ** The state of an [Updater] *)

Record Updater := {
  renderer_view3d : Renderer;
  renderer_uv : Renderer;
  mouse_update : bool;
  mouse_position : Z * Z;
  timer_running : bool;
  uv_select_mode : string;
  mesh_data : dict MeshData;
  last_update : dict Time;
  op : option Operator;
  uv_editor_visible : bool;
}.

(** [Updater.__init__] *)
Definition init (renderer_view3d renderer_uv : Renderer) : Updater := {|
  renderer_view3d := renderer_view3d;
  renderer_uv := renderer_uv;
  mouse_update := false;
  mouse_position := (0, 0)%Z;
  timer_running := false;
  uv_select_mode := "VERTEX";
  mesh_data := [];
  last_update := [];
  op := None;
  uv_editor_visible := false;
|}.

Definition with_renderer_view3d (r : Renderer) (u : Updater) : Updater :=
  {| renderer_view3d := r; renderer_uv := renderer_uv u;
     mouse_update := mouse_update u; mouse_position := mouse_position u;
     timer_running := timer_running u; uv_select_mode := uv_select_mode u;
     mesh_data := mesh_data u; last_update := last_update u; op := op u;
     uv_editor_visible := uv_editor_visible u |}.

Definition with_renderer_uv (r : Renderer) (u : Updater) : Updater :=
  {| renderer_view3d := renderer_view3d u; renderer_uv := r;
     mouse_update := mouse_update u; mouse_position := mouse_position u;
     timer_running := timer_running u; uv_select_mode := uv_select_mode u;
     mesh_data := mesh_data u; last_update := last_update u; op := op u;
     uv_editor_visible := uv_editor_visible u |}.

Definition with_timer_running (b : bool) (u : Updater) : Updater :=
  {| renderer_view3d := renderer_view3d u; renderer_uv := renderer_uv u;
     mouse_update := mouse_update u; mouse_position := mouse_position u;
     timer_running := b; uv_select_mode := uv_select_mode u;
     mesh_data := mesh_data u; last_update := last_update u; op := op u;
     uv_editor_visible := uv_editor_visible u |}.

Definition with_uv_select_mode (m : string) (u : Updater) : Updater :=
  {| renderer_view3d := renderer_view3d u; renderer_uv := renderer_uv u;
     mouse_update := mouse_update u; mouse_position := mouse_position u;
     timer_running := timer_running u; uv_select_mode := m;
     mesh_data := mesh_data u; last_update := last_update u; op := op u;
     uv_editor_visible := uv_editor_visible u |}.

Definition with_mesh_data (d : dict MeshData) (u : Updater) : Updater :=
  {| renderer_view3d := renderer_view3d u; renderer_uv := renderer_uv u;
     mouse_update := mouse_update u; mouse_position := mouse_position u;
     timer_running := timer_running u; uv_select_mode := uv_select_mode u;
     mesh_data := d; last_update := last_update u; op := op u;
     uv_editor_visible := uv_editor_visible u |}.

Definition with_last_update (d : dict Time) (u : Updater) : Updater :=
  {| renderer_view3d := renderer_view3d u; renderer_uv := renderer_uv u;
     mouse_update := mouse_update u; mouse_position := mouse_position u;
     timer_running := timer_running u; uv_select_mode := uv_select_mode u;
     mesh_data := mesh_data u; last_update := d; op := op u;
     uv_editor_visible := uv_editor_visible u |}.

Definition with_op (o : option Operator) (u : Updater) : Updater :=
  {| renderer_view3d := renderer_view3d u; renderer_uv := renderer_uv u;
     mouse_update := mouse_update u; mouse_position := mouse_position u;
     timer_running := timer_running u; uv_select_mode := uv_select_mode u;
     mesh_data := mesh_data u; last_update := last_update u; op := o;
     uv_editor_visible := uv_editor_visible u |}.

Definition with_uv_editor_visible (b : bool) (u : Updater) : Updater :=
  {| renderer_view3d := renderer_view3d u; renderer_uv := renderer_uv u;
     mouse_update := mouse_update u; mouse_position := mouse_position u;
     timer_running := timer_running u; uv_select_mode := uv_select_mode u;
     mesh_data := mesh_data u; last_update := last_update u; op := op u;
     uv_editor_visible := b |}.

(** ** The world a method runs in *)

(** The Updater together with the two pieces of host state its methods
    change: how often [self.depsgraph_handler] occurs in the list
    [bpy.app.handlers.depsgraph_update_post], and the clock, given by the
    reading [perf_clock n] of the [n]-th call of [time.perf_counter()]. *)
Record World := {
  self : Updater;
  depsgraph_update_post : nat;
  perf_clock : nat -> Time;
  perf_reads : nat;
}.

Definition with_self (f : Updater -> Updater) (w : World) : World :=
  {| self := f (self w); depsgraph_update_post := depsgraph_update_post w;
     perf_clock := perf_clock w; perf_reads := perf_reads w |}.

(** The calls a method makes on its collaborators and on the host. *)
Inductive Event :=
| MousePosition                      (* bpy.ops.uv.mouseposition('INVOKE_DEFAULT') *)
| Timer                              (* bpy.ops.uv.timer() *)
| TagRedrawAllViews                  (* render.tag_redraw_all_views() *)
| MeshUpdate (id : string) (obj : Object) (selection_only changed : bool)
                                     (* self.mesh_data[id].update(obj, selection_only) *)
| RendererUpdate (s : Surface) (id : string) (data : MeshData)
                                     (* renderer.update(self.mesh_data[id]) *)
| RendererDisable (s : Surface)      (* renderer.disable() *)
| RendererMode (s : Surface) (mode : string)
                                     (* renderer.mode = mode *)
| HandlerRemove.                     (* depsgraph_update_post.remove(...) *)

(** A computation: its result, the world it leaves and the calls it
    made, oldest first. *)
Definition M (A : Type) : Type := World -> Result A * World * list Event.

Definition ret {A} (a : A) : M A := fun w => (Ok a, w, []).

Definition bind {A B} (m : M A) (k : A -> M B) : M B :=
  fun w =>
    match m w with
    | (Ok a, w1, e1) => let '(r, w2, e2) := k a w1 in (r, w2, e1 ++ e2)
    | (Raise x, w1, e1) => (Raise x, w1, e1)
    end.

Definition raise {A} (x : Exn) : M A := fun w => (Raise x, w, []).

(** [try: m except Exception: pass] *)
Definition try_pass (m : M unit) : M unit :=
  fun w =>
    match m w with
    | (Ok a, w1, e1) => (Ok a, w1, e1)
    | (Raise _, w1, e1) => (Ok tt, w1, e1)
    end.

Definition emit (e : Event) : M unit := fun w => (Ok tt, w, [e]).

Definition gets {A} (f : Updater -> A) : M A := fun w => (Ok (f (self w)), w, []).

Definition modify (f : Updater -> Updater) : M unit :=
  fun w => (Ok tt, with_self f w, []).

End Model.

Declare Scope py_scope.
Delimit Scope py_scope with py.
Notation "x <- m ;; k" := (bind m (fun x => k))
  (at level 61, m at next level, right associativity) : py_scope.
Notation "m ;; k" := (bind m (fun _ => k))
  (at level 61, right associativity) : py_scope.

Local Open Scope py_scope.

Section Methods.
Context `{Collaborators}.

(** [for x in l: body x] *)
Fixpoint for_each {X} (l : list X) (body : X -> M unit) : M unit :=
  match l with
  | [] => ret tt
  | x :: r => body x ;; for_each r body
  end.

(** [time.perf_counter()] *)
Definition perf_counter : M Time :=
  fun w => (Ok (perf_clock w (perf_reads w)),
            {| self := self w; depsgraph_update_post := depsgraph_update_post w;
               perf_clock := perf_clock w; perf_reads := S (perf_reads w) |},
            []).

(** [d[k]] as an expression: [KeyError] when [k] is missing. *)
Definition subscript {V} (d : dict V) (k : string) : M V :=
  match get k d with
  | Some v => ret v
  | None => raise (KeyError k)
  end.

(** [self.last_update[id] = t] *)
Definition set_last_update (id : string) (t : Time) : M unit :=
  modify (fun u => with_last_update (set id t (last_update u)) u).

(** [self.mesh_data[id] = data] *)
Definition set_mesh_data (id : string) (data : MeshData) : M unit :=
  modify (fun u => with_mesh_data (set id data (mesh_data u)) u).

(** [del self.last_update[id]] *)
Definition del_last_update (id : string) : M unit :=
  lu <- gets last_update ;;
  if mem id lu then modify (with_last_update (del id lu))
  else raise (KeyError id).

(** [del self.mesh_data[id]] *)
Definition del_mesh_data (id : string) : M unit :=
  md <- gets mesh_data ;;
  if mem id md then modify (with_mesh_data (del id md))
  else raise (KeyError id).

(** [render.tag_redraw_all_views()] *)
Definition tag_redraw_all_views : M unit := emit TagRedrawAllViews.

(** [self.renderer_view3d.disable()] *)
Definition renderer_view3d_disable : M unit :=
  modify (fun u => with_renderer_view3d (disable (renderer_view3d u)) u) ;;
  emit (RendererDisable View3d).

(** [self.renderer_uv.disable()] *)
Definition renderer_uv_disable : M unit :=
  modify (fun u => with_renderer_uv (disable (renderer_uv u)) u) ;;
  emit (RendererDisable UV).

(** [self.renderer_view3d.update(self.mesh_data[id])] *)
Definition renderer_view3d_update (id : string) : M unit :=
  md <- gets mesh_data ;;
  data <- subscript md id ;;
  modify (fun u => with_renderer_view3d (update (renderer_view3d u) data) u) ;;
  emit (RendererUpdate View3d id data).

(** [self.renderer_uv.update(self.mesh_data[id])] *)
Definition renderer_uv_update (id : string) : M unit :=
  md <- gets mesh_data ;;
  data <- subscript md id ;;
  modify (fun u => with_renderer_uv (update (renderer_uv u) data) u) ;;
  emit (RendererUpdate UV id data).

(** [self.mesh_data[id].update(obj, selection_only)]: the snapshot is
    refreshed in place, the answer says whether it changed. *)
Definition mesh_data_update (id : string) (obj : Object) (selection_only : bool)
  : M bool :=
  md <- gets mesh_data ;;
  data <- subscript md id ;;
  let '(data', changed) := mesh_update data obj selection_only in
  set_mesh_data id data' ;;
  emit (MeshUpdate id obj selection_only changed) ;;
  ret changed.

(** ** The methods of [Updater] *)

(** [bpy.app.handlers.depsgraph_update_post.append(self.depsgraph_handler)] *)
Definition start : M unit :=
  fun w => (Ok tt,
            {| self := self w; depsgraph_update_post := S (depsgraph_update_post w);
               perf_clock := perf_clock w; perf_reads := perf_reads w |},
            []).

(** [bpy.app.handlers.depsgraph_update_post.remove(self.depsgraph_handler)]:
    [list.remove] raises [ValueError] when the handler is not in the list. *)
Definition depsgraph_update_post_remove : M unit :=
  emit HandlerRemove ;;
  fun w =>
    match depsgraph_update_post w with
    | O => (Raise ValueError, w, [])
    | S n => (Ok tt,
              {| self := self w; depsgraph_update_post := n;
                 perf_clock := perf_clock w; perf_reads := perf_reads w |},
              [])
    end.

Definition stop : M unit :=
  renderer_uv_disable ;;
  renderer_view3d_disable ;;
  modify (with_timer_running false) ;;
  try_pass depsgraph_update_post_remove.

Definition watch_mouse : M unit := emit MousePosition.

Definition get_active_objects (c : Context) : dict Object :=
  fold_left (fun active_objects selected_obj =>
               set (obj_name selected_obj) selected_obj active_objects)
            (selected_objects c) [].

(** The list [obsolete] that the first loop of [free] collects. *)
Definition obsolete (active_objects : dict Object) (md : dict MeshData)
  : list string :=
  filter (fun id => negb (mem id active_objects)) (keys md).

Definition free (c : Context) : M unit :=
  let active_objects := get_active_objects c in
  md <- gets mesh_data ;;
  for_each (obsolete active_objects md)
           (fun id => del_last_update id ;; del_mesh_data id).

Definition uv_editor_visibility (c : Context) : bool :=
  existsb (fun area => (area_type area =? "IMAGE_EDITOR") && (area_ui_type area =? "UV"))
          (areas c).

Definition handle_uv_edtitor_visibility_changed (c : Context)
    (active_objects : dict Object) : M bool :=
  let visibility := uv_editor_visibility c in
  visible <- gets uv_editor_visible ;;
  if Bool.eqb visible visibility then
    (if negb visible then
       r <- gets renderer_view3d ;;
       if enabled r then renderer_view3d_disable ;; tag_redraw_all_views
       else ret tt
     else ret tt) ;;
    ret false
  else
    modify (with_uv_editor_visible visibility) ;;
    (if visibility then
       for_each active_objects (fun '(id, obj) =>
         changed <- mesh_data_update id obj false ;;
         if changed then
           renderer_view3d_update id ;;
           renderer_uv_update id ;;
           tag_redraw_all_views
         else ret tt)
     else
       renderer_view3d_disable ;;
       tag_redraw_all_views) ;;
    ret true.

(** [t > last_update and last_update > 0]: the entry is set and due. *)
Definition due (t last_update : Time) : bool :=
  Qltb last_update t && Qltb 0 last_update.

(** The loop body of [handle_id_updates] for one item of
    [self.last_update.items()]; [result] is the loop-carried flag. *)
Definition handle_id_update (active_objects : dict Object) (t : Time)
    (result : bool) (item : string * Time) : M bool :=
  let '(id, last_update) := item in
  if due t last_update then
    set_last_update id sentinel ;;
    md <- gets mesh_data ;;
    _ <- subscript md id ;;
    obj <- subscript active_objects id ;;
    changed <- mesh_data_update id obj false ;;
    (if changed then
       renderer_view3d_update id ;;
       renderer_uv_update id ;;
       tag_redraw_all_views
     else ret tt) ;;
    ret true
  else ret result.

Fixpoint fold_items {X} (body : bool -> X -> M bool) (result : bool) (l : list X)
  : M bool :=
  match l with
  | [] => ret result
  | x :: r => result' <- body result x ;; fold_items body result' r
  end.

(** The items view is iterated while values of existing keys are assigned;
    every key is visited once and only its own value is assigned, so the
    values seen are those of the dictionary at the start of the loop. *)
Definition handle_id_updates (active_objects : dict Object) : M bool :=
  t <- perf_counter ;;
  items <- gets last_update ;;
  fold_items (handle_id_update active_objects t) false items.

(** [bpy.context.window_manager.operators[-1]] of a non-empty list. *)
Definition last_operator (ops : list Operator) : option Operator :=
  match rev ops with
  | [] => None
  | o :: _ => Some o
  end.

(** [op != self.op] *)
Definition op_differs (o : Operator) (prev : option Operator) : bool :=
  match prev with
  | None => true
  | Some p => negb (op_ident o =? op_ident p)%nat
  end.

Definition handle_selection_changed_ops (c : Context)
    (active_objects : dict Object) : M bool :=
  match last_operator (operators c) with
  | None => ret false
  | Some o =>
      prev <- gets op ;;
      if op_differs o prev then
        modify (with_op (Some o)) ;;
        (if String.prefix "UV_OT_select" (bl_idname o) then
           md <- gets mesh_data ;;
           for_each (keys md) (fun id =>
             obj <- subscript active_objects id ;;
             changed <- mesh_data_update id obj true ;;
             if changed then
               renderer_view3d_update id ;;
               renderer_uv_update id
             else ret tt)
         else ret tt) ;;
        ret true
      else ret false
  end.

(** Lines 69-73 of [heartbeat]: mirror the selection mode. *)
Definition sync_uv_select_mode (c : Context) : M unit :=
  let uv_select_mode' := tool_uv_select_mode c in
  current <- gets uv_select_mode ;;
  if negb (uv_select_mode' =? current) then
    modify (with_uv_select_mode uv_select_mode') ;;
    modify (fun u => with_renderer_view3d (set_mode (renderer_view3d u) uv_select_mode') u) ;;
    emit (RendererMode View3d uv_select_mode') ;;
    tag_redraw_all_views
  else ret tt.

(** Lines 77-80 of [heartbeat]: entries for newly observed objects. *)
Definition create_missing (active_objects : dict Object) : M unit :=
  for_each (keys active_objects) (fun id =>
    md <- gets mesh_data ;;
    if negb (mem id md) then
      set_mesh_data id mesh_Data ;;
      set_last_update id sentinel
    else ret tt).

(** Lines 86-90 of [heartbeat]: the due timestamps, then the selection
    operators unless a due timestamp was processed. *)
Definition due_then_selection (c : Context) (active_objects : dict Object)
  : M unit :=
  done <- handle_id_updates active_objects ;;
  if done then ret tt else
  _ <- handle_selection_changed_ops c active_objects ;;
  ret tt.

(** Lines 82-90 of [heartbeat]: the three handlers, each ending the tick
    when it answers [True]. *)
Definition handlers (c : Context) (active_objects : dict Object) : M unit :=
  done <- handle_uv_edtitor_visibility_changed c active_objects ;;
  if done then ret tt else due_then_selection c active_objects.

(** Lines 67-80 of [heartbeat]: reconciliation up to the lazy creation. *)
Definition reconcile (c : Context) : M unit :=
  free c ;;
  sync_uv_select_mode c ;;
  create_missing (get_active_objects c).

Definition heartbeat (c : Context) : M unit :=
  watch_mouse ;;
  match active_object c with
  | None => ret tt
  | Some obj =>
      if negb (obj_type obj =? "MESH") then ret tt
      else
        reconcile c ;;
        handlers c (get_active_objects c)
  end.

Definition can_skip_depsgraph (c : Context) (update : DepsgraphUpdate) : bool :=
  match upd_id update with
  | None => true
  | Some id =>
      if negb (is_updated_geometry update) then true
      else
        match id_type id with
        | None => true
        | Some type =>
            if negb (type =? "MESH") then true
            else
              negb (existsb (fun name => name =? id_name id)
                            (keys (get_active_objects c)))
        end
  end.

(** The loop body of [depsgraph_handler] for one entry of
    [depsgraph.updates]. *)
Definition handle_depsgraph_update (c : Context) (update : DepsgraphUpdate)
  : M unit :=
  if can_skip_depsgraph c update then ret tt
  else
    match upd_id update with
    | None => raise AttributeError
    | Some id =>
        let name := id_name id in
        lu <- gets last_update ;;
        (if negb (mem name lu) then set_last_update name sentinel else ret tt) ;;
        t <- perf_counter ;;
        lu <- gets last_update ;;
        last_update <- subscript lu name ;;
        if Qltb t last_update && Qltb 0 last_update then
          set_last_update name (t + long_delay)%Q
        else
          set_last_update name (t + short_delay)%Q
    end.

Definition depsgraph_handler (c : Context) : M unit :=
  running <- gets timer_running ;;
  if negb running then
    modify (with_timer_running true) ;;
    emit Timer
  else
    for_each (depsgraph_updates c) (handle_depsgraph_update c).

End Methods.

(** ** Runs of the Updater *)

Section Runs.
Context `{Collaborators}.

Definition result_of {A} (x : Result A * World * list Event) : Result A := fst (fst x).
Definition world_of {A} (x : Result A * World * list Event) : World := snd (fst x).
Definition events_of {A} (x : Result A * World * list Event) : list Event := snd x.

(** The entry points the host calls: [start], [stop], the timer's tick and
    the depsgraph notification. *)
Inductive Call :=
| Start
| Stop
| Heartbeat (c : Context)
| DepsgraphHandler (c : Context).

Definition call (a : Call) : M unit :=
  match a with
  | Start => start
  | Stop => stop
  | Heartbeat c => heartbeat c
  | DepsgraphHandler c => depsgraph_handler c
  end.

(** The world after a call, whether it returned or raised. *)
Definition after (a : Call) (w : World) : World := world_of (call a w).

Definition after_all (l : list Call) (w : World) : World :=
  fold_left (fun w a => after a w) l w.

(** [updater = Updater(render.RendererView3d(), render.RendererUV())] *)
Definition initial (view3d uv : Renderer) (clock : nat -> Time) : World :=
  {| self := init view3d uv; depsgraph_update_post := 0;
     perf_clock := clock; perf_reads := 0 |}.

Inductive reachable : World -> Prop :=
| reachable_initial view3d uv clock : reachable (initial view3d uv clock)
| reachable_after a w : reachable w -> reachable (after a w).

(** The names of [bpy.context.selected_objects]. *)
Definition selected_names (c : Context) : list string :=
  map obj_name (selected_objects c).

(** The tick goes past line 65: there is an active object and it is a mesh. *)
Definition active_mesh (c : Context) : Prop :=
  exists obj, active_object c = Some obj /\ obj_type obj = "MESH".

(** The calls of one non-selection-only refresh of [id] from the snapshot
    [data]: the refresh and, when it reports a change, the push to both
    surfaces and the redraw request. *)
Definition refresh_events (id : string) (obj : Object) (data : MeshData)
  : list Event :=
  let '(data', changed) := mesh_update data obj false in
  MeshUpdate id obj false changed ::
  (if changed
   then [RendererUpdate View3d id data'; RendererUpdate UV id data'; TagRedrawAllViews]
   else []).

(** The same, looking the snapshot and the object up. *)
Definition refresh_events_of (md : dict MeshData) (active_objects : dict Object)
    (id : string) : list Event :=
  match get id md, get id active_objects with
  | Some data, Some obj => refresh_events id obj data
  | _, _ => []
  end.

(** Closed forms of the reconciliation steps, used to state what a tick
    has done to the Updater before its handlers run. *)

(** Both dictionaries after the second loop of [free]. *)
Definition del_all {V} (ids : list string) (d : dict V) : dict V :=
  fold_left (fun d id => del id d) ids d.

Definition freed (c : Context) (u : Updater) : Updater :=
  let ids := obsolete (get_active_objects c) (mesh_data u) in
  with_mesh_data (del_all ids (mesh_data u))
    (with_last_update (del_all ids (last_update u)) u).

(** The Updater after lines 69-73 of [heartbeat]. *)
Definition mode_synced (c : Context) (u : Updater) : Updater :=
  if negb (tool_uv_select_mode c =? uv_select_mode u) then
    with_renderer_view3d (set_mode (renderer_view3d u) (tool_uv_select_mode c))
      (with_uv_select_mode (tool_uv_select_mode c) u)
  else u.

Definition mode_events (c : Context) (u : Updater) : list Event :=
  if negb (tool_uv_select_mode c =? uv_select_mode u) then
    [RendererMode View3d (tool_uv_select_mode c); TagRedrawAllViews]
  else [].

(** The Updater after one round of the loop of lines 77-80. *)
Definition create_entry (u : Updater) (id : string) : Updater :=
  if negb (mem id (mesh_data u)) then
    with_last_update (set id sentinel (last_update u))
      (with_mesh_data (set id mesh_Data (mesh_data u)) u)
  else u.

Definition created (c : Context) (u : Updater) : Updater :=
  fold_left create_entry (keys (get_active_objects c)) u.

(** The Updater when the handlers of a tick start. *)
Definition reconciled (c : Context) (u : Updater) : Updater :=
  created c (mode_synced c (freed c u)).

(** The Updater after [self.mesh_data[id].update(obj, selection_only)]. *)
Definition refreshed (id : string) (data' : MeshData) (u : Updater) : Updater :=
  with_mesh_data (set id data' (mesh_data u)) u.

(** The Updater after the snapshot [data] went to both surfaces. *)
Definition pushed (data : MeshData) (u : Updater) : Updater :=
  with_renderer_uv (update (renderer_uv u) data)
    (with_renderer_view3d (update (renderer_view3d u) data) u).

(** The Updater when [stop] reaches its [try] block. *)
Definition stopped (u : Updater) : Updater :=
  with_timer_running false
    (with_renderer_view3d (disable (renderer_view3d u))
       (with_renderer_uv (disable (renderer_uv u)) u)).

(** The world after one reading of the clock. *)
Definition clock_read (w : World) : World :=
  {| self := self w; depsgraph_update_post := depsgraph_update_post w;
     perf_clock := perf_clock w; perf_reads := S (perf_reads w) |}.

(** What the next call of [time.perf_counter()] returns. *)
Definition now (w : World) : Time := perf_clock w (perf_reads w).

(** The Updater after one refresh of [id] from [data], with the push when
    the refresh reports a change. *)
Definition refreshed_and_pushed (id : string) (obj : Object) (data : MeshData)
    (u : Updater) : Updater :=
  let '(data', changed) := mesh_update data obj false in
  if changed then pushed data' (refreshed id data' u) else refreshed id data' u.

(** The calls of the loop of the visibility handler over the active
    objects, from the snapshots [md] the loop starts with. *)
Definition visible_events (md : dict MeshData) (active_objects : dict Object)
  : list Event :=
  flat_map (fun '(id, obj) =>
              match get id md with
              | Some data => refresh_events id obj data
              | None => []
              end)
           active_objects.

(** The calls of the loop of [handle_id_updates] over the timestamps [lu]
    at time [t], from the snapshots [md] the loop starts with. *)
Definition due_events (md : dict MeshData) (active_objects : dict Object)
    (t : Time) (lu : dict Time) : list Event :=
  flat_map (fun '(id, last_update) =>
              if due t last_update then refresh_events_of md active_objects id
              else [])
           lu.

(** What a loop of refreshes leaves alone: everything but the snapshots
    and the two renderers. *)
Definition refresh_frame (u u' : Updater) : Prop :=
  last_update u' = last_update u /\
  uv_editor_visible u' = uv_editor_visible u /\
  op u' = op u /\
  timer_running u' = timer_running u /\
  uv_select_mode u' = uv_select_mode u.

(** The two dictionaries of [u] have the keys of [md] and [lu]. *)
Definition same_keys (md : dict MeshData) (lu : dict Time) (u : Updater) : Prop :=
  (forall k, mem k (mesh_data u) = mem k md) /\
  (forall k, mem k (last_update u) = mem k lu).

(** The identity [k] has a snapshot and a timestamp entry. *)
Definition tracked (k : string) (u : Updater) : Prop :=
  mem k (mesh_data u) = true /\ mem k (last_update u) = true.

(** The 3D surface is disabled. *)
Definition view3d_off (u : Updater) : Prop :=
  enabled (renderer_view3d u) = false.

(** The computation [m] keeps the property [P] of the Updater, whether it
    returns or raises. *)
Definition keeps (P : Updater -> Prop) {A} (m : M A) : Prop :=
  forall w, P (self w) -> P (self (world_of (m w))).

(** Every call that the computation [m] makes satisfies [Q]. *)
Definition emits (Q : Event -> Prop) {A} (m : M A) : Prop :=
  forall w, Forall Q (events_of (m w)).

(** The call [e] is not a full (not selection-only) refresh of [name]. *)
Definition no_refresh_of (name : string) (e : Event) : Prop :=
  forall obj changed, e <> MeshUpdate name obj false changed.

(** The world after a notification: only the timestamps [lu] and the
    number of clock readings differ from [w]. *)
Definition rescheduled (lu : dict Time) (n : nat) (w : World) : World :=
  {| self := with_last_update lu (self w);
     depsgraph_update_post := depsgraph_update_post w;
     perf_clock := perf_clock w; perf_reads := n + perf_reads w |}.

(** The calls that the handler of the selection operators can make: a
    selection-only refresh, or a push to a surface. *)
Definition selection_call (e : Event) : Prop :=
  match e with
  | MeshUpdate _ _ selection_only _ => selection_only = true
  | RendererUpdate _ _ _ => True
  | _ => False
  end.

(** The calls of one selection-only refresh of [id] from the snapshot
    [data]: the refresh and, when it reports a change, the push to both
    surfaces (no redraw request). *)
Definition select_events (id : string) (obj : Object) (data : MeshData)
  : list Event :=
  let '(data', changed) := mesh_update data obj true in
  MeshUpdate id obj true changed ::
  (if changed
   then [RendererUpdate View3d id data'; RendererUpdate UV id data']
   else []).

(** The calls of the loop of [handle_selection_changed_ops] over the
    snapshots [md]. *)
Definition selection_events (md : dict MeshData) (active_objects : dict Object)
  : list Event :=
  flat_map (fun '(id, data) =>
              match get id active_objects with
              | Some obj => select_events id obj data
              | None => []
              end)
           md.

(** The Updater after one selection-only refresh of [id] from [data]. *)
Definition selected_and_pushed (id : string) (obj : Object) (data : MeshData)
    (u : Updater) : Updater :=
  let '(data', changed) := mesh_update data obj true in
  if changed then pushed data' (refreshed id data' u) else refreshed id data' u.

(** Every stored timestamp is the sentinel or positive. *)
Definition sentinel_or_positive (u : Updater) : Prop :=
  forall k v, get k (last_update u) = Some v -> v = sentinel \/ (0 < v)%Q.

(** The computation [m] keeps the property [P] of the world (the Updater,
    the registrations and the clock), whether it returns or raises. *)
Definition world_keeps (P : World -> Prop) {A} (m : M A) : Prop :=
  forall w, P w -> P (world_of (m w)).

(** The world [w'] differs from [w] in the Updater at most: same
    registrations, same clock, same number of clock readings. *)
Definition same_host (w w' : World) : Prop :=
  depsgraph_update_post w' = depsgraph_update_post w /\
  perf_clock w' = perf_clock w /\
  perf_reads w' = perf_reads w.

(** [time.perf_counter()] never answers a negative number. *)
Definition clock_not_negative (w : World) : Prop :=
  forall n, (0 <= perf_clock w n)%Q.

(** The call [e] is a push of a snapshot to the 3D surface:
    [self.renderer_view3d.update(...)]. *)
Definition view3d_push (e : Event) : Prop :=
  match e with
  | RendererUpdate View3d _ _ => True
  | _ => False
  end.

(** The computation [m] leaves [self.renderer_view3d] as it is whenever it
    makes no push to the 3D surface. *)
Definition view3d_kept_unless_pushed {A} (m : M A) : Prop :=
  forall w,
    Forall (fun e => ~ view3d_push e) (events_of (m w)) ->
    renderer_view3d (self (world_of (m w))) = renderer_view3d (self w).

(** The state of the two dictionaries that the methods rely on: keys are
    unique and every snapshot has a timestamp entry. *)
Definition consistent (u : Updater) : Prop :=
  NoDup (keys (mesh_data u)) /\ NoDup (keys (last_update u)) /\
  forall id, mem id (mesh_data u) = true -> mem id (last_update u) = true.

(** A change record that the specification lists as skipped: no entity,
    no geometry update, no kind or a kind other than mesh, or a name
    outside the selection. *)
Definition described_as_skipped (c : Context) (update : DepsgraphUpdate) : Prop :=
  match upd_id update with
  | None => True
  | Some id =>
      is_updated_geometry update = false \/
      id_type id = None \/
      (exists type, id_type id = Some type /\ type <> "MESH") \/
      ~ In (id_name id) (selected_names c)
  end.

End Runs.

(** ** Collaborators for concrete runs *)

(** Modelled from the spec: [mesh.Data] of mesh.py, which is not among the
    sources. A snapshot remembers the mesh contents it was last refreshed
    from; [update] refreshes it and answers whether anything observable
    changed. *)
Definition SpecMeshData := option nat.

Definition spec_mesh_update (data : SpecMeshData) (obj : Object) (selection_only : bool)
  : SpecMeshData * bool :=
  (Some (obj_data obj),
   match data with
   | Some n => negb (n =? obj_data obj)%nat
   | None => true
   end).

(** Modelled from the spec: the presentation surfaces [RendererView3d] and
    [RendererUV] of render.py, which is not among the sources. A surface
    has an enabled flag, a selection mode and the snapshot last pushed;
    [disable] clears the flag, [update] takes the snapshot and leaves the
    flag as it is. *)
Record SpecRenderer := {
  spec_enabled : bool;
  spec_mode : string;
  spec_shown : option SpecMeshData;
}.

Definition spec_disable (r : SpecRenderer) : SpecRenderer :=
  {| spec_enabled := false; spec_mode := spec_mode r; spec_shown := spec_shown r |}.

Definition spec_update (r : SpecRenderer) (data : SpecMeshData) : SpecRenderer :=
  {| spec_enabled := spec_enabled r; spec_mode := spec_mode r; spec_shown := Some data |}.

Definition spec_set_mode (r : SpecRenderer) (mode : string) : SpecRenderer :=
  {| spec_enabled := spec_enabled r; spec_mode := mode; spec_shown := spec_shown r |}.

#[export] Instance SpecCollaborators : Collaborators := {|
  MeshData := SpecMeshData;
  mesh_Data := None;
  mesh_update := spec_mesh_update;
  Renderer := SpecRenderer;
  enabled := spec_enabled;
  disable := spec_disable;
  update := spec_update;
  set_mode := spec_set_mode;
|}.

(** Modelled from the spec: a presentation surface whose [update] also
    enables it. [main.py] reads the flag and calls [disable] and [update],
    and never enables a surface itself. *)
Definition spec_update_enabling (r : SpecRenderer) (data : SpecMeshData)
  : SpecRenderer :=
  {| spec_enabled := true; spec_mode := spec_mode r; spec_shown := Some data |}.

Definition EnablingCollaborators : Collaborators := {|
  MeshData := SpecMeshData;
  mesh_Data := None;
  mesh_update := spec_mesh_update;
  Renderer := SpecRenderer;
  enabled := spec_enabled;
  disable := spec_disable;
  update := spec_update_enabling;
  set_mode := spec_set_mode;
|}.

Module Scenario.

Definition renderer_on : SpecRenderer :=
  {| spec_enabled := true; spec_mode := "VERTEX"; spec_shown := None |}.

Definition renderer_off : SpecRenderer :=
  {| spec_enabled := false; spec_mode := "VERTEX"; spec_shown := None |}.

(** A clock whose [n]-th reading is [n] seconds. *)
Definition clock (n : nat) : Time := inject_Z (Z.of_nat n).

Definition world0 : World := initial renderer_on renderer_off clock.

Definition cube : Object := {| obj_name := "Cube"; obj_type := "MESH"; obj_data := 7 |}.
Definition sphere : Object := {| obj_name := "Sphere"; obj_type := "MESH"; obj_data := 3 |}.

Definition cube_edited : DepsgraphUpdate :=
  {| upd_id := Some {| id_name := "Cube"; id_type := Some "MESH" |};
     is_updated_geometry := true |}.

Definition cube_moved : DepsgraphUpdate :=
  {| upd_id := Some {| id_name := "Cube"; id_type := Some "MESH" |};
     is_updated_geometry := false |}.

Definition view3d_area : Area := {| area_type := "VIEW_3D"; area_ui_type := "VIEW_3D" |}.
Definition uv_area : Area := {| area_type := "IMAGE_EDITOR"; area_ui_type := "UV" |}.

(** The context with the given selection, active object, areas and
    depsgraph updates; no operator has run. *)
Definition context (active : option Object) (selected : list Object)
    (areas : list Area) (updates : list DepsgraphUpdate) : Context :=
  {| active_object := active; selected_objects := selected;
     tool_uv_select_mode := "VERTEX"; areas := areas; operators := [];
     depsgraph_updates := updates |}.

(** The cube is selected and active, its geometry has just been edited. *)
Definition editing_cube : Context := context (Some cube) [cube] [view3d_area] [cube_edited].

(** The first notification starts the timer. *)
Definition started : World := after (DepsgraphHandler editing_cube) world0.

(** The second notification schedules the cube, before any tick has seen
    it. *)
Definition cube_scheduled : World :=
  after_all [DepsgraphHandler editing_cube; DepsgraphHandler editing_cube] world0.

Definition cube_id : ID := {| id_name := "Cube"; id_type := Some "MESH" |}.

(** A tick with the cube selected, the UV editor closed. *)
Definition watching_cube : Context := context (Some cube) [cube] [view3d_area] [].

(** A tick with the cube selected, the UV editor open. *)
Definition cube_in_uv_editor : Context :=
  context (Some cube) [cube] [view3d_area; uv_area] [].

(** A tick with the cube and the sphere selected. *)
Definition both_selected : Context :=
  context (Some cube) [cube; sphere] [view3d_area] [].

(** The cube is selected, a first tick has given it a snapshot and the
    sentinel, and a notification at 1 s has scheduled it for 1.01 s. *)
Definition cube_tracked_and_scheduled : World :=
  after_all [DepsgraphHandler editing_cube; Heartbeat watching_cube;
             DepsgraphHandler editing_cube]
            world0.

(** A clock whose [n]-th reading is [n] times 5 ms, and the world in which
    the cube was scheduled at 0 s under it: the next reading, 5 ms, is
    before the due time. *)
Definition fast_clock (n : nat) : Time := Z.of_nat n # 200.

Definition cube_pending : World :=
  after_all [DepsgraphHandler editing_cube; DepsgraphHandler editing_cube]
            (initial renderer_on renderer_off fast_clock).

(** The run in which a due timestamp is stranded. The cube is edited while
    selected, before any tick ([cube_scheduled]: its timestamp is 0.01 s).
    Then the sphere alone is selected and the UV editor is opened: the
    tick's visibility branch gives the sphere its snapshot and ends the
    tick. The sphere is edited (second reading of the clock, 1 s: its
    timestamp is 1.01 s). The next tick reads 2 s. *)
Definition sphere_edited : DepsgraphUpdate :=
  {| upd_id := Some {| id_name := "Sphere"; id_type := Some "MESH" |};
     is_updated_geometry := true |}.

Definition sphere_in_uv_editor : Context :=
  context (Some sphere) [sphere] [view3d_area; uv_area] [].

(** The sphere after the edit. *)
Definition sphere_reshaped : Object :=
  {| obj_name := "Sphere"; obj_type := "MESH"; obj_data := 4 |}.

Definition editing_sphere : Context :=
  context (Some sphere_reshaped) [sphere_reshaped] [view3d_area; uv_area]
          [sphere_edited].

Definition sphere_reshaped_in_uv_editor : Context :=
  context (Some sphere_reshaped) [sphere_reshaped] [view3d_area; uv_area] [].

(** A light is the active object; the cube is no longer selected. *)
Definition lamp : Object := {| obj_name := "Lamp"; obj_type := "LIGHT"; obj_data := 0 |}.

Definition lamp_active : Context := context (Some lamp) [lamp] [view3d_area] [].

(** The UV editor is open and the cube has been observed in it. *)
Definition cube_shown : World :=
  after_all [DepsgraphHandler editing_cube; Heartbeat cube_in_uv_editor] world0.

(** The user has just finished a UV selection operator on the reshaped
    cube, the UV editor being open. *)
Definition select_all : Operator := {| op_ident := 1; bl_idname := "UV_OT_select_all" |}.

Definition cube_reshaped : Object :=
  {| obj_name := "Cube"; obj_type := "MESH"; obj_data := 8 |}.

Definition cube_selection_changed : Context :=
  {| active_object := Some cube_reshaped; selected_objects := [cube_reshaped];
     tool_uv_select_mode := "EDGE"; areas := [view3d_area; uv_area];
     operators := [select_all]; depsgraph_updates := [] |}.

(** A tick with the sphere alone selected, the UV editor closed. *)
Definition watching_sphere : Context := context (Some sphere) [sphere] [view3d_area] [].

(** A tick with the cube and the sphere selected, the UV editor open. *)
Definition both_in_uv_editor : Context :=
  context (Some cube) [cube; sphere] [view3d_area; uv_area] [].

(** The cube is tracked and due, the UV editor has been closed all along,
    and the surfaces are of the kind whose [update] enables them. *)
Definition hidden_cube_due : @World EnablingCollaborators :=
  @after_all EnablingCollaborators
    [DepsgraphHandler editing_cube; Heartbeat watching_cube;
     DepsgraphHandler editing_cube]
    (@initial EnablingCollaborators renderer_on renderer_off clock).

Definition stranded : World :=
  after_all [DepsgraphHandler editing_cube; DepsgraphHandler editing_cube;
             Heartbeat sphere_in_uv_editor; DepsgraphHandler editing_sphere]
            world0.

End Scenario.

(** * Properties *)

(** ** Dictionaries *)

Module PyDictFacts.

Section Facts.
Context {V : Type}.
Implicit Types (d : dict V) (k : string) (v : V).

Lemma mem_get d k : mem k d = true <-> exists v, get k d = Some v.
Proof.
  unfold mem. destruct (get k d) as [v|]; split; intros Hm; try discriminate.
  - now exists v.
  - reflexivity.
  - now destruct Hm.
Qed.

Lemma mem_false_get d k : mem k d = false <-> get k d = None.
Proof.
  unfold mem. destruct (get k d); split; intros Hm; congruence.
Qed.

Lemma mem_cons d k k' v :
  mem k ((k', v) :: d) = (k' =? k) || mem k d.
Proof.
  unfold mem. simpl. now destruct (k' =? k).
Qed.

Lemma mem_In d k : mem k d = true <-> In k (keys d).
Proof.
  induction d as [|[k' v'] r IH]; simpl.
  - split; [discriminate | tauto].
  - rewrite mem_cons, orb_true_iff, IH, String.eqb_eq. tauto.
Qed.

Lemma mem_false_In d k : mem k d = false <-> ~ In k (keys d).
Proof.
  rewrite <- mem_In. destruct (mem k d); split; congruence.
Qed.

Lemma get_set_same d k v : get k (set k v d) = Some v.
Proof.
  induction d as [|[k' v'] r IH]; simpl.
  - now rewrite String.eqb_refl.
  - destruct (k' =? k) eqn:E; simpl.
    + now rewrite String.eqb_refl.
    + now rewrite E.
Qed.

Lemma get_set_other d k k' v : k' <> k -> get k (set k' v d) = get k d.
Proof.
  intros Hne. induction d as [|[k0 v0] r IH]; simpl.
  - apply String.eqb_neq in Hne. now rewrite Hne.
  - destruct (k0 =? k') eqn:E; simpl.
    + apply String.eqb_eq in E. subst k0.
      apply String.eqb_neq in Hne. now rewrite Hne.
    + now rewrite IH.
Qed.

Lemma get_set d k k' v :
  get k (set k' v d) = if k' =? k then Some v else get k d.
Proof.
  destruct (String.eqb_spec k' k) as [->|Hne].
  - apply get_set_same.
  - now apply get_set_other.
Qed.

Lemma mem_set d k k' v : mem k (set k' v d) = (k' =? k) || mem k d.
Proof.
  unfold mem. rewrite get_set. now destruct (k' =? k).
Qed.

Lemma keys_set_present d k v : mem k d = true -> keys (set k v d) = keys d.
Proof.
  induction d as [|[k' v'] r IH]; simpl.
  - discriminate.
  - rewrite mem_cons. destruct (k' =? k) eqn:E; simpl.
    + intros _. apply String.eqb_eq in E. now subst.
    + intros Hm. now rewrite IH.
Qed.

Lemma keys_set_absent d k v : mem k d = false -> keys (set k v d) = keys d ++ [k].
Proof.
  induction d as [|[k' v'] r IH]; simpl.
  - reflexivity.
  - rewrite mem_cons. destruct (k' =? k) eqn:E; simpl.
    + discriminate.
    + intros Hm. now rewrite IH.
Qed.

Lemma NoDup_keys_set d k v : NoDup (keys d) -> NoDup (keys (set k v d)).
Proof.
  intros Hnd. destruct (mem k d) eqn:E.
  - now rewrite keys_set_present.
  - rewrite keys_set_absent by assumption.
    apply mem_false_In in E.
    apply NoDup_app; [assumption | |].
    + constructor; [simpl; tauto | constructor].
    + intros x Hx [<-|[]]. contradiction.
Qed.

Lemma get_del d k k' :
  get k (del k' d) = if k' =? k then None else get k d.
Proof.
  unfold del. induction d as [|[k0 v0] r IH]; simpl.
  - now destruct (k' =? k).
  - destruct (k0 =? k') eqn:E; simpl.
    + apply String.eqb_eq in E. subst k0. rewrite IH.
      now destruct (k' =? k).
    + rewrite IH. destruct (k0 =? k) eqn:E0; [|reflexivity].
      apply String.eqb_eq in E0. subst k0.
      rewrite String.eqb_sym in E. now rewrite E.
Qed.

Lemma mem_del d k k' : mem k (del k' d) = negb (k' =? k) && mem k d.
Proof.
  unfold mem. rewrite get_del. now destruct (k' =? k).
Qed.

Lemma keys_del d k :
  keys (del k d) = filter (fun k' => negb (k' =? k)) (keys d).
Proof.
  unfold del, keys. induction d as [|[k0 v0] r IH]; simpl.
  - reflexivity.
  - destruct (k0 =? k); simpl; now rewrite IH.
Qed.

Lemma NoDup_keys_del d k : NoDup (keys d) -> NoDup (keys (del k d)).
Proof.
  rewrite keys_del. apply NoDup_filter.
Qed.

Lemma In_get d k v : NoDup (keys d) -> In (k, v) d -> get k d = Some v.
Proof.
  induction d as [|[k' v'] r IH]; simpl; [tauto|].
  intros Hnd [Heq|Hin].
  - injection Heq as -> ->. now rewrite String.eqb_refl.
  - inversion Hnd as [|? ? Hni Hnd']; subst.
    destruct (String.eqb_spec k' k) as [->|Hne].
    + exfalso. apply Hni. change k with (fst (k, v)). now apply in_map.
    + now apply IH.
Qed.

Lemma get_In d k v : get k d = Some v -> In (k, v) d.
Proof.
  induction d as [|[k' v'] r IH]; simpl; [discriminate|].
  destruct (String.eqb_spec k' k) as [->|Hne].
  - intros [= ->]. now left.
  - intros Hg. right. now apply IH.
Qed.

End Facts.

End PyDictFacts.

Import PyDictFacts.

(** ** Running computations *)

Section MonadFacts.
Context `{Collaborators}.

Lemma run_eta {A} (x : Result A * World * list Event) :
  x = (result_of x, world_of x, events_of x).
Proof. now destruct x as [[r w] e]. Qed.

Lemma bind_Ok {A B} (m : M A) (k : A -> M B) w a w1 e1 :
  m w = (Ok a, w1, e1) ->
  bind m k w = (result_of (k a w1), world_of (k a w1), e1 ++ events_of (k a w1)).
Proof.
  intros Hm. unfold bind. rewrite Hm. now destruct (k a w1) as [[r w2] e2].
Qed.

Lemma bind_run {A B} (m : M A) (k : A -> M B) w a w1 e1 :
  m w = (Ok a, w1, e1) ->
  bind m k w = let '(r, w2, e2) := k a w1 in (r, w2, e1 ++ e2).
Proof.
  intros Hm. unfold bind. now rewrite Hm.
Qed.

Lemma bind_Raise {A B} (m : M A) (k : A -> M B) w x w1 e1 :
  m w = (Raise x, w1, e1) -> bind m k w = (Raise x, w1, e1).
Proof.
  intros Hm. unfold bind. now rewrite Hm.
Qed.

Lemma bind_pure {A B} (m : M A) (k : A -> M B) w a :
  m w = (Ok a, w, []) -> bind m k w = k a w.
Proof.
  intros Hm. rewrite (bind_Ok _ _ _ _ _ _ Hm). simpl. symmetry. apply run_eta.
Qed.

Lemma bind_ret {A B} (a : A) (k : A -> M B) w : bind (ret a) k w = k a w.
Proof. now apply bind_pure. Qed.

Lemma bind_gets {A B} (f : Updater -> A) (k : A -> M B) w :
  bind (gets f) k w = k (f (self w)) w.
Proof. now apply bind_pure. Qed.

Lemma bind_modify {B} (f : Updater -> Updater) (k : unit -> M B) w :
  bind (modify f) k w = k tt (with_self f w).
Proof.
  rewrite (bind_Ok _ _ w tt (with_self f w) []) by reflexivity.
  simpl. symmetry. apply run_eta.
Qed.

Lemma bind_emit {B} (e : Event) (k : unit -> M B) w :
  bind (emit e) k w = (result_of (k tt w), world_of (k tt w), e :: events_of (k tt w)).
Proof. rewrite (bind_Ok _ _ w tt w [e]) by reflexivity. reflexivity. Qed.

Lemma bind_assoc {A B C} (m : M A) (k : A -> M B) (k' : B -> M C) w :
  bind (bind m k) k' w = bind m (fun a => bind (k a) k') w.
Proof.
  unfold bind. destruct (m w) as [[[a|x] w1] e1]; [|reflexivity].
  destruct (k a w1) as [[[b|x] w2] e2]; [|reflexivity].
  destruct (k' b w2) as [[r w3] e3]. now rewrite app_assoc.
Qed.

(** The world after a sequence is the world after its second part, unless
    the first part raised. *)
Lemma world_of_bind {A B} (m : M A) (k : A -> M B) w :
  world_of (bind m k w) =
  match result_of (m w) with
  | Ok a => world_of (k a (world_of (m w)))
  | Raise _ => world_of (m w)
  end.
Proof.
  unfold bind, result_of, world_of, events_of.
  destruct (m w) as [[[a|x] w1] e1]; simpl; [|reflexivity].
  now destruct (k a w1) as [[r w2] e2].
Qed.

(** ** Properties of the Updater that a computation keeps *)

Lemma keeps_ret P {A} (a : A) : keeps P (ret a).
Proof. now intros w. Qed.

Lemma keeps_raise P {A} x : keeps P (@raise _ A x).
Proof. now intros w. Qed.

Lemma keeps_emit P e : keeps P (emit e).
Proof. now intros w. Qed.

Lemma keeps_gets P {A} (f : Updater -> A) : keeps P (gets f).
Proof. now intros w. Qed.

Lemma keeps_perf_counter P : keeps P perf_counter.
Proof. now intros w. Qed.

Lemma keeps_subscript P {V} (d : dict V) k : keeps P (subscript d k).
Proof. intros w. unfold subscript. now destruct (get k d). Qed.

Lemma keeps_modify (P : Updater -> Prop) f :
  (forall u, P u -> P (f u)) -> keeps P (modify f).
Proof. intros Hf w. apply Hf. Qed.

Lemma keeps_bind P {A B} (m : M A) (k : A -> M B) :
  keeps P m -> (forall a, keeps P (k a)) -> keeps P (bind m k).
Proof.
  intros Hm Hk w Hw. rewrite world_of_bind.
  destruct (result_of (m w)) as [a|x].
  - apply Hk, Hm, Hw.
  - apply Hm, Hw.
Qed.

Lemma keeps_if P {A} (b : bool) (m1 m2 : M A) :
  keeps P m1 -> keeps P m2 -> keeps P (if b then m1 else m2).
Proof. now destruct b. Qed.

Lemma keeps_for_each P {X} (l : list X) (body : X -> M unit) :
  (forall x, keeps P (body x)) -> keeps P (for_each l body).
Proof.
  intros Hb. induction l as [|x r IH]; simpl.
  - apply keeps_ret.
  - apply keeps_bind; [apply Hb | intros _; apply IH].
Qed.

Lemma keeps_fold_items P {X} (body : bool -> X -> M bool) (l : list X) :
  (forall b x, keeps P (body b x)) -> forall b, keeps P (fold_items body b l).
Proof.
  intros Hb. induction l as [|x r IH]; intros b; simpl.
  - apply keeps_ret.
  - apply keeps_bind; [apply Hb | intros b'; apply IH].
Qed.

Lemma keeps_try_pass P (m : M unit) : keeps P m -> keeps P (try_pass m).
Proof.
  intros Hm w Hw. specialize (Hm w Hw). unfold try_pass.
  now destruct (m w) as [[[a|x] w1] e1].
Qed.

Lemma events_of_bind {A B} (m : M A) (k : A -> M B) w :
  events_of (bind m k w) =
  events_of (m w) ++
  match result_of (m w) with
  | Ok a => events_of (k a (world_of (m w)))
  | Raise _ => []
  end.
Proof.
  unfold bind, result_of, world_of, events_of.
  destruct (m w) as [[[a|x] w1] e1]; simpl.
  - now destruct (k a w1) as [[r w2] e2].
  - now rewrite app_nil_r.
Qed.

(** ** Properties of the calls a computation makes *)

Lemma emits_silent Q {A} (m : M A) : (forall w, events_of (m w) = []) -> emits Q m.
Proof. intros Hm w. rewrite Hm. constructor. Qed.

Lemma emits_emit (Q : Event -> Prop) e : Q e -> emits Q (emit e).
Proof. intros He w. simpl. now repeat constructor. Qed.

Lemma emits_bind Q {A B} (m : M A) (k : A -> M B) :
  emits Q m -> (forall a, emits Q (k a)) -> emits Q (bind m k).
Proof.
  intros Hm Hk w. rewrite events_of_bind. apply Forall_app. split; [apply Hm|].
  destruct (result_of (m w)); [apply Hk | constructor].
Qed.

Lemma emits_if Q {A} (b : bool) (m1 m2 : M A) :
  emits Q m1 -> emits Q m2 -> emits Q (if b then m1 else m2).
Proof. now destruct b. Qed.

Lemma emits_for_each Q {X} (l : list X) (body : X -> M unit) :
  (forall x, emits Q (body x)) -> emits Q (for_each l body).
Proof.
  intros Hb. induction l as [|x r IH]; simpl.
  - now apply emits_silent.
  - apply emits_bind; [apply Hb | intros _; apply IH].
Qed.

Lemma emits_fold_items_in Q {X} (body : bool -> X -> M bool) (l : list X) :
  (forall b x, In x l -> emits Q (body b x)) ->
  forall b, emits Q (fold_items body b l).
Proof.
  induction l as [|x r IH]; intros Hb b; simpl.
  - now apply emits_silent.
  - apply emits_bind; [apply Hb; now left | intros b'].
    apply IH. intros b0 y Hy. apply Hb. now right.
Qed.

End MonadFacts.

Create HintDb keeps.

#[local] Hint Resolve keeps_ret keeps_raise keeps_emit keeps_gets
  keeps_perf_counter keeps_subscript : keeps.

(** Splits a computation into its parts, down to the single calls. *)
Ltac emits_step :=
  match goal with
  | |- emits _ (bind _ _) => apply emits_bind; [|intros ?]
  | |- emits _ (if _ then _ else _) => apply emits_if
  | |- emits _ (for_each _ _) => apply emits_for_each; intros ?
  | |- emits _ (emit _) => apply emits_emit
  | |- emits _ (match ?x with _ => _ end) => destruct x
  | |- emits _ (let '(_, _) := ?x in _) => destruct x
  | |- emits _ _ => solve [apply emits_silent; reflexivity]
  | |- emits _ (subscript ?d ?k) =>
      apply emits_silent; intros ?; unfold subscript; now destruct (get k d)
  end.

(** Splits a computation into its parts, down to the modifications of the
    Updater. *)
Ltac keeps_step :=
  match goal with
  | |- keeps _ (bind _ _) => apply keeps_bind; [|intros ?]
  | |- keeps _ (if _ then _ else _) => apply keeps_if
  | |- keeps _ (for_each _ _) => apply keeps_for_each; intros ?
  | |- keeps _ (fold_items _ _ _) => apply keeps_fold_items; intros ? ?
  | |- keeps _ (try_pass _) => apply keeps_try_pass
  | |- keeps _ (match ?x with _ => _ end) => destruct x
  | |- keeps _ (let '(_, _) := ?x in _) => destruct x
  | |- keeps _ _ => solve [auto with keeps]
  end.

(** ** The active objects *)

Section ActiveObjects.

Local Abbreviation add_selected :=
  (fun (active_objects : dict Object) (selected_obj : Object) =>
     set (obj_name selected_obj) selected_obj active_objects).

Lemma fold_set_keys (l : list Object) (d : dict Object) k :
  mem k (fold_left add_selected l d) = mem k d || existsb (fun o => obj_name o =? k) l.
Proof.
  revert d. induction l as [|o r IH]; intros d; simpl.
  - now rewrite orb_false_r.
  - rewrite IH. cbv beta. rewrite mem_set.
    destruct (obj_name o =? k), (mem k d); reflexivity.
Qed.

Lemma fold_set_NoDup (l : list Object) (d : dict Object) :
  NoDup (keys d) -> NoDup (keys (fold_left add_selected l d)).
Proof.
  revert d. induction l as [|o r IH]; intros d Hd; simpl.
  - assumption.
  - apply IH. now apply NoDup_keys_set.
Qed.

Lemma fold_set_named (l : list Object) (d : dict Object) :
  (forall k o, get k d = Some o -> obj_name o = k) ->
  forall k o, get k (fold_left add_selected l d) = Some o -> obj_name o = k.
Proof.
  revert d. induction l as [|o' r IH]; intros d Hd; simpl.
  - assumption.
  - apply IH. intros k o. cbv beta. rewrite get_set.
    destruct (String.eqb_spec (obj_name o') k) as [<-|Hne].
    + now intros [= <-].
    + apply Hd.
Qed.

Lemma active_objects_mem c k :
  mem k (get_active_objects c) = true <-> In k (selected_names c).
Proof.
  unfold get_active_objects, selected_names.
  change (mem k (fold_left add_selected (selected_objects c) []) = true <->
          In k (map obj_name (selected_objects c))).
  rewrite fold_set_keys. simpl. rewrite existsb_exists, in_map_iff.
  split; intros [o Ho]; exists o; rewrite String.eqb_eq in *; tauto.
Qed.

Lemma active_objects_NoDup c : NoDup (keys (get_active_objects c)).
Proof.
  apply (fold_set_NoDup (selected_objects c) []). constructor.
Qed.

End ActiveObjects.

(** ** Reconciliation: lines 67-80 of [heartbeat] *)

Section Reconcile.
Context `{Collaborators}.

Lemma get_del_all {V} (ids : list string) (d : dict V) k :
  get k (del_all ids d) = if existsb (fun id => id =? k) ids then None else get k d.
Proof.
  unfold del_all. revert d. induction ids as [|id r IH]; intros d; simpl.
  - reflexivity.
  - rewrite IH, get_del. destruct (id =? k); simpl; [|reflexivity].
    now destruct (existsb _ r).
Qed.

Lemma mem_del_all {V} (ids : list string) (d : dict V) k :
  mem k (del_all ids d) = negb (existsb (fun id => id =? k) ids) && mem k d.
Proof.
  unfold mem. rewrite get_del_all. now destruct (existsb _ ids).
Qed.

Lemma NoDup_del_all {V} (ids : list string) (d : dict V) :
  NoDup (keys d) -> NoDup (keys (del_all ids d)).
Proof.
  unfold del_all. revert d. induction ids as [|id r IH]; intros d Hd; simpl.
  - assumption.
  - apply IH. now apply NoDup_keys_del.
Qed.

Lemma obsolete_spec (ao : dict Object) (md : dict MeshData) k :
  existsb (fun id => id =? k) (obsolete ao md) = mem k md && negb (mem k ao).
Proof.
  unfold obsolete. destruct (existsb _ _) eqn:E.
  - apply existsb_exists in E. destruct E as [id [Hin Heq]].
    apply String.eqb_eq in Heq. subst id.
    apply filter_In in Hin. destruct Hin as [Hin Hao].
    apply mem_In in Hin. now rewrite Hin, Hao.
  - destruct (mem k md) eqn:Em; [|reflexivity].
    destruct (mem k ao) eqn:Ea; [reflexivity|]. exfalso.
    assert (Hex : existsb (fun id => id =? k)
                    (filter (fun id => negb (mem id ao)) (keys md)) = true).
    { apply existsb_exists. exists k. split; [|apply String.eqb_refl].
      apply filter_In. split; [now apply mem_In | now rewrite Ea]. }
    congruence.
Qed.

Lemma del_both_run id w :
  mem id (last_update (self w)) = true ->
  mem id (mesh_data (self w)) = true ->
  (del_last_update id ;; del_mesh_data id) w =
  (Ok tt,
   with_self (fun u => with_mesh_data (del id (mesh_data u))
                         (with_last_update (del id (last_update u)) u)) w,
   []).
Proof.
  intros Hl Hm. unfold del_last_update, del_mesh_data.
  rewrite bind_assoc, bind_gets, Hl, bind_modify, bind_gets.
  simpl. rewrite Hm. reflexivity.
Qed.

Lemma free_loop_run (ids : list string) w :
  NoDup ids ->
  (forall id, In id ids -> mem id (last_update (self w)) = true /\
                           mem id (mesh_data (self w)) = true) ->
  for_each ids (fun id => del_last_update id ;; del_mesh_data id) w =
  (Ok tt,
   with_self (fun u => with_mesh_data (del_all ids (mesh_data u))
                         (with_last_update (del_all ids (last_update u)) u)) w,
   []).
Proof.
  revert w. induction ids as [|id r IH]; intros w Hnd Hin; simpl.
  - now destruct w as [[] ? ? ?].
  - inversion Hnd as [|? ? Hni Hnd']; subst.
    destruct (Hin id (or_introl eq_refl)) as [Hl Hm].
    rewrite (bind_Ok _ _ _ _ _ _ (del_both_run id w Hl Hm)).
    rewrite IH; [reflexivity | assumption |].
    intros id' Hid'. simpl. rewrite !mem_del.
    destruct (Hin id' (or_intror Hid')) as [-> ->].
    destruct (String.eqb_spec id id') as [->|_]; [contradiction | now split].
Qed.

Lemma free_run c w :
  consistent (self w) -> free c w = (Ok tt, with_self (freed c) w, []).
Proof.
  intros (Hm & Hl & Hsub). unfold free. rewrite bind_gets.
  rewrite free_loop_run; [reflexivity | now apply NoDup_filter |].
  intros id Hid. apply filter_In in Hid. destruct Hid as [Hid _].
  apply mem_In in Hid. auto.
Qed.

Lemma sync_uv_select_mode_run c w :
  sync_uv_select_mode c w =
  (Ok tt, with_self (mode_synced c) w, mode_events c (self w)).
Proof.
  unfold sync_uv_select_mode, mode_synced, mode_events.
  rewrite bind_gets. unfold with_self at 1.
  destruct (negb (tool_uv_select_mode c =? uv_select_mode (self w))).
  - reflexivity.
  - now destruct w as [[] ? ? ?].
Qed.

Lemma create_loop_run (ids : list string) w :
  for_each ids (fun id =>
    md <- gets mesh_data ;;
    if negb (mem id md) then
      set_mesh_data id mesh_Data ;; set_last_update id sentinel
    else ret tt) w =
  (Ok tt, with_self (fun u => fold_left create_entry ids u) w, []).
Proof.
  revert w. induction ids as [|id r IH]; intros w; simpl.
  - now destruct w as [[] ? ? ?].
  - rewrite bind_assoc, bind_gets.
    destruct (negb (mem id (mesh_data (self w)))) eqn:E.
    + unfold set_mesh_data, set_last_update.
      rewrite bind_assoc, bind_modify, bind_modify, IH.
      unfold with_self; simpl. unfold create_entry at 3. now rewrite E.
    + rewrite bind_ret, IH.
      unfold with_self; simpl. unfold create_entry at 3. now rewrite E.
Qed.

Lemma reconcile_run c w :
  consistent (self w) ->
  reconcile c w = (Ok tt, with_self (reconciled c) w, mode_events c (self w)).
Proof.
  intros Hc. unfold reconcile.
  rewrite (bind_Ok _ _ _ _ _ _ (free_run c w Hc)).
  rewrite (bind_Ok _ _ _ _ _ _ (sync_uv_select_mode_run c _)).
  unfold create_missing. rewrite create_loop_run.
  unfold result_of, world_of, events_of; simpl. rewrite app_nil_r.
  reflexivity.
Qed.

End Reconcile.

(** ** What reconciliation leaves in the two dictionaries *)

Section Reconciled.
Context `{Collaborators}.

Lemma created_get_mesh_data ids u k :
  get k (mesh_data (fold_left create_entry ids u)) =
  match get k (mesh_data u) with
  | Some data => Some data
  | None => if existsb (fun id => id =? k) ids then Some mesh_Data else None
  end.
Proof.
  revert u. induction ids as [|id r IH]; intros u; simpl.
  - now destruct (get k (mesh_data u)).
  - rewrite IH. unfold create_entry, mem.
    destruct (get id (mesh_data u)) as [d|] eqn:E; simpl.
    + destruct (String.eqb_spec id k) as [<-|Hne]; simpl; [now rewrite E | reflexivity].
    + rewrite get_set.
      destruct (String.eqb_spec id k) as [<-|Hne]; simpl; [now rewrite E | reflexivity].
Qed.

Lemma created_get_last_update ids u k :
  get k (last_update (fold_left create_entry ids u)) =
  if negb (mem k (mesh_data u)) && existsb (fun id => id =? k) ids
  then Some sentinel else get k (last_update u).
Proof.
  revert u. induction ids as [|id r IH]; intros u; simpl.
  - now rewrite andb_false_r.
  - rewrite IH. unfold create_entry.
    destruct (mem id (mesh_data u)) eqn:E; simpl.
    + destruct (String.eqb_spec id k) as [<-|Hne]; simpl; [|reflexivity].
      now rewrite E.
    + rewrite mem_set, get_set.
      destruct (String.eqb_spec id k) as [<-|Hne]; simpl; [|reflexivity].
      now rewrite E.
Qed.

Lemma create_entry_consistent u id : consistent u -> consistent (create_entry u id).
Proof.
  intros (Hm & Hl & Hsub). unfold create_entry.
  destruct (negb (mem id (mesh_data u))); [|now repeat split].
  repeat split; simpl.
  - now apply NoDup_keys_set.
  - now apply NoDup_keys_set.
  - intros k. rewrite !mem_set. destruct (id =? k); simpl; auto.
Qed.

Lemma created_consistent c u : consistent u -> consistent (created c u).
Proof.
  unfold created. generalize (keys (get_active_objects c)) as ids.
  intros ids. revert u. induction ids as [|id r IH]; intros u Hu; simpl.
  - assumption.
  - now apply IH, create_entry_consistent.
Qed.

Lemma freed_consistent c u : consistent u -> consistent (freed c u).
Proof.
  intros (Hm & Hl & Hsub). unfold freed. repeat split; simpl.
  - now apply NoDup_del_all.
  - now apply NoDup_del_all.
  - intros k. rewrite !mem_del_all.
    destruct (existsb _ _); simpl; auto.
Qed.

Lemma mode_synced_consistent c u : consistent u -> consistent (mode_synced c u).
Proof.
  unfold mode_synced. now destruct (negb _).
Qed.

Lemma mode_synced_mesh_data c u : mesh_data (mode_synced c u) = mesh_data u.
Proof. unfold mode_synced. now destruct (negb _). Qed.

Lemma mode_synced_last_update c u : last_update (mode_synced c u) = last_update u.
Proof. unfold mode_synced. now destruct (negb _). Qed.

Lemma reconciled_consistent c u : consistent u -> consistent (reconciled c u).
Proof.
  intros Hu. now apply created_consistent, mode_synced_consistent, freed_consistent.
Qed.

(** The snapshot of [k] when the handlers start: kept for an object that
    stays selected, fresh for a newly selected one, gone otherwise. *)
Lemma reconciled_get_mesh_data c u k :
  get k (mesh_data (reconciled c u)) =
  if mem k (get_active_objects c) then
    match get k (mesh_data u) with
    | Some data => Some data
    | None => Some mesh_Data
    end
  else None.
Proof.
  unfold reconciled, created. rewrite created_get_mesh_data.
  rewrite mode_synced_mesh_data. unfold freed. simpl.
  rewrite get_del_all, obsolete_spec.
  replace (existsb (fun id => id =? k) (keys (get_active_objects c)))
    with (mem k (get_active_objects c)).
  - unfold mem at 1.
    destruct (get k (mesh_data u)), (mem k (get_active_objects c)); reflexivity.
  - destruct (mem k (get_active_objects c)) eqn:E; symmetry.
    + apply mem_In in E. apply existsb_exists. exists k.
      split; [assumption | apply String.eqb_refl].
    + apply mem_false_In in E. destruct (existsb _ _) eqn:E'; [|reflexivity].
      apply existsb_exists in E'. destruct E' as [id [Hin Heq]].
      apply String.eqb_eq in Heq. now subst.
Qed.

Lemma reconciled_mem_mesh_data c u k :
  mem k (mesh_data (reconciled c u)) = mem k (get_active_objects c).
Proof.
  unfold mem at 1. rewrite reconciled_get_mesh_data.
  destruct (mem k (get_active_objects c)); [|reflexivity].
  now destruct (get k (mesh_data u)).
Qed.

(** The timestamp of [k] when the handlers start. *)
Lemma reconciled_get_last_update c u k :
  get k (last_update (reconciled c u)) =
  if mem k (get_active_objects c) then
    if mem k (mesh_data u) then get k (last_update u) else Some sentinel
  else
    if mem k (mesh_data u) then None else get k (last_update u).
Proof.
  unfold reconciled, created. rewrite created_get_last_update.
  rewrite mode_synced_mesh_data, mode_synced_last_update.
  replace (existsb (fun id => id =? k) (keys (get_active_objects c)))
    with (mem k (get_active_objects c)).
  - unfold freed. simpl. rewrite mem_del_all, get_del_all, obsolete_spec.
    destruct (mem k (mesh_data u)), (mem k (get_active_objects c)); reflexivity.
  - destruct (mem k (get_active_objects c)) eqn:E; symmetry.
    + apply mem_In in E. apply existsb_exists. exists k.
      split; [assumption | apply String.eqb_refl].
    + apply mem_false_In in E. destruct (existsb _ _) eqn:E'; [|reflexivity].
      apply existsb_exists in E'. destruct E' as [id [Hin Heq]].
      apply String.eqb_eq in Heq. now subst.
Qed.

Lemma created_frame {A} (f : Updater -> A) ids u :
  (forall u id, f (create_entry u id) = f u) ->
  f (fold_left create_entry ids u) = f u.
Proof.
  intros Hf. revert u. induction ids as [|id r IH]; intros u; simpl.
  - reflexivity.
  - now rewrite IH.
Qed.

Lemma reconciled_uv_editor_visible c u :
  uv_editor_visible (reconciled c u) = uv_editor_visible u.
Proof.
  unfold reconciled, created. rewrite created_frame.
  - unfold mode_synced. now destruct (negb _).
  - intros u' id. unfold create_entry. now destruct (negb _).
Qed.

Lemma reconciled_op c u : op (reconciled c u) = op u.
Proof.
  unfold reconciled, created. rewrite created_frame.
  - unfold mode_synced. now destruct (negb _).
  - intros u' id. unfold create_entry. now destruct (negb _).
Qed.

End Reconciled.

(** ** The calls on the collaborators *)

Section Calls.
Context `{Collaborators}.

Lemma mesh_data_update_run id obj selection_only w data :
  get id (mesh_data (self w)) = Some data ->
  mesh_data_update id obj selection_only w =
  (Ok (snd (mesh_update data obj selection_only)),
   with_self (refreshed id (fst (mesh_update data obj selection_only))) w,
   [MeshUpdate id obj selection_only (snd (mesh_update data obj selection_only))]).
Proof.
  intros Hg. unfold mesh_data_update, subscript.
  rewrite bind_gets, Hg, bind_ret.
  destruct (mesh_update data obj selection_only) as [data' changed].
  unfold set_mesh_data. rewrite bind_modify, bind_emit. reflexivity.
Qed.

Lemma mesh_data_update_missing id obj selection_only w :
  get id (mesh_data (self w)) = None ->
  mesh_data_update id obj selection_only w = (Raise (KeyError id), w, []).
Proof.
  intros Hg. unfold mesh_data_update, subscript.
  now rewrite bind_gets, Hg.
Qed.

Lemma renderer_view3d_update_run id w data :
  get id (mesh_data (self w)) = Some data ->
  renderer_view3d_update id w =
  (Ok tt,
   with_self (fun u => with_renderer_view3d (update (renderer_view3d u) data) u) w,
   [RendererUpdate View3d id data]).
Proof.
  intros Hg. unfold renderer_view3d_update, subscript.
  rewrite bind_gets, Hg, bind_ret, bind_modify. reflexivity.
Qed.

Lemma renderer_uv_update_run id w data :
  get id (mesh_data (self w)) = Some data ->
  renderer_uv_update id w =
  (Ok tt,
   with_self (fun u => with_renderer_uv (update (renderer_uv u) data) u) w,
   [RendererUpdate UV id data]).
Proof.
  intros Hg. unfold renderer_uv_update, subscript.
  rewrite bind_gets, Hg, bind_ret, bind_modify. reflexivity.
Qed.

(** One non-selection-only refresh followed by the conditional push, as
    the visibility handler and the due-timestamp handler both do it. *)
Lemma refresh_and_push_run id obj w data :
  get id (mesh_data (self w)) = Some data ->
  (changed <- mesh_data_update id obj false ;;
   if changed then
     renderer_view3d_update id ;; renderer_uv_update id ;; tag_redraw_all_views
   else ret tt) w =
  (Ok tt,
   with_self (refreshed_and_pushed id obj data) w,
   refresh_events id obj data).
Proof.
  intros Hg. rewrite (bind_Ok _ _ _ _ _ _ (mesh_data_update_run id obj false w data Hg)).
  unfold refresh_events, refreshed_and_pushed.
  destruct (mesh_update data obj false) as [data' changed]. simpl.
  destruct changed.
  - assert (Hg' : get id (mesh_data (self (with_self (refreshed id data') w))) = Some data').
    { simpl. apply get_set_same. }
    rewrite (bind_run _ _ _ _ _ _ (renderer_view3d_update_run id _ data' Hg')).
    erewrite (bind_run (renderer_uv_update id))
      by (apply renderer_uv_update_run; simpl; apply get_set_same).
    reflexivity.
  - reflexivity.
Qed.

Lemma keeps_set_last_update id t : keeps consistent (set_last_update id t).
Proof.
  apply keeps_modify. intros u (Hm & Hl & Hsub). repeat split; simpl; auto.
  - now apply NoDup_keys_set.
  - intros k Hk. rewrite mem_set. rewrite (Hsub k Hk). apply orb_true_r.
Qed.

Lemma keeps_mesh_data_update id obj selection_only :
  keeps consistent (mesh_data_update id obj selection_only).
Proof.
  intros w (Hm & Hl & Hsub).
  destruct (get id (mesh_data (self w))) as [data|] eqn:E.
  - rewrite (mesh_data_update_run _ _ _ _ _ E). repeat split; simpl; auto.
    + now apply NoDup_keys_set.
    + intros k. rewrite mem_set.
      destruct (String.eqb_spec id k) as [<-|Hne]; simpl; [intros _|apply Hsub].
      apply Hsub, mem_get. now exists data.
  - rewrite (mesh_data_update_missing _ _ _ _ E). now repeat split.
Qed.

Lemma keeps_renderers (P : Updater -> Prop) :
  (forall u r, P u -> P (with_renderer_view3d r u)) ->
  (forall u r, P u -> P (with_renderer_uv r u)) ->
  (forall id, keeps P (renderer_view3d_update id)) /\
  (forall id, keeps P (renderer_uv_update id)) /\
  keeps P renderer_view3d_disable /\
  keeps P renderer_uv_disable.
Proof.
  intros H3 Hu. repeat split; intros;
    unfold renderer_view3d_update, renderer_uv_update,
      renderer_view3d_disable, renderer_uv_disable, tag_redraw_all_views;
    repeat keeps_step; apply keeps_modify; auto.
Qed.

Lemma keeps_consistent_renderers :
  (forall id, keeps consistent (renderer_view3d_update id)) /\
  (forall id, keeps consistent (renderer_uv_update id)) /\
  keeps consistent renderer_view3d_disable /\
  keeps consistent renderer_uv_disable.
Proof. apply keeps_renderers; now intros. Qed.

End Calls.

(** ** Every reachable Updater is consistent *)

Section Consistency.
Context `{Collaborators}.

Lemma consistent_init view3d uv : consistent (init view3d uv).
Proof. repeat split; simpl; try constructor. discriminate. Qed.

Ltac keeps_consistent :=
  repeat first
    [ apply keeps_set_last_update
    | apply keeps_mesh_data_update
    | apply keeps_consistent_renderers
    | apply keeps_modify; now intros ? ?
    | keeps_step ].

Lemma keeps_handle_uv_edtitor_visibility_changed c ao :
  keeps consistent (handle_uv_edtitor_visibility_changed c ao).
Proof.
  unfold handle_uv_edtitor_visibility_changed, tag_redraw_all_views.
  keeps_consistent.
Qed.

Lemma keeps_handle_id_updates ao : keeps consistent (handle_id_updates ao).
Proof.
  unfold handle_id_updates, handle_id_update, tag_redraw_all_views.
  keeps_consistent.
Qed.

Lemma keeps_handle_selection_changed_ops c ao :
  keeps consistent (handle_selection_changed_ops c ao).
Proof.
  unfold handle_selection_changed_ops. keeps_consistent.
Qed.

Lemma keeps_handlers c ao : keeps consistent (handlers c ao).
Proof.
  unfold handlers, due_then_selection.
  apply keeps_bind; [apply keeps_handle_uv_edtitor_visibility_changed | intros ?].
  apply keeps_if; [apply keeps_ret|].
  apply keeps_bind; [apply keeps_handle_id_updates | intros ?].
  apply keeps_if; [apply keeps_ret|].
  apply keeps_bind; [apply keeps_handle_selection_changed_ops | intros ?].
  apply keeps_ret.
Qed.

Lemma keeps_reconcile c : keeps consistent (reconcile c).
Proof.
  intros w Hw. rewrite (reconcile_run c w Hw). now apply reconciled_consistent.
Qed.

Lemma keeps_heartbeat c : keeps consistent (heartbeat c).
Proof.
  unfold heartbeat, watch_mouse.
  apply keeps_bind; [apply keeps_emit | intros _].
  destruct (active_object c) as [obj|]; [|apply keeps_ret].
  apply keeps_if; [apply keeps_ret|].
  apply keeps_bind; [apply keeps_reconcile | intros _; apply keeps_handlers].
Qed.

Lemma keeps_handle_depsgraph_update c update :
  keeps consistent (handle_depsgraph_update c update).
Proof.
  unfold handle_depsgraph_update. keeps_consistent.
Qed.

Lemma keeps_depsgraph_handler c : keeps consistent (depsgraph_handler c).
Proof.
  unfold depsgraph_handler.
  apply keeps_bind; [apply keeps_gets | intros running].
  apply keeps_if.
  - keeps_consistent.
  - apply keeps_for_each. intros update. apply keeps_handle_depsgraph_update.
Qed.

Lemma keeps_start (P : Updater -> Prop) : keeps P start.
Proof. now intros w. Qed.

Lemma keeps_depsgraph_update_post_remove (P : Updater -> Prop) :
  keeps P depsgraph_update_post_remove.
Proof.
  intros w Hw. unfold depsgraph_update_post_remove. rewrite bind_emit.
  unfold world_of. simpl. now destruct (depsgraph_update_post w).
Qed.

Lemma keeps_stop : keeps consistent stop.
Proof.
  unfold stop.
  apply keeps_bind; [apply keeps_consistent_renderers | intros _].
  apply keeps_bind; [apply keeps_consistent_renderers | intros _].
  apply keeps_bind; [apply keeps_modify; now intros ? ? | intros _].
  apply keeps_try_pass, keeps_depsgraph_update_post_remove.
Qed.

Lemma keeps_call a : keeps consistent (call a).
Proof.
  destruct a; simpl.
  - apply keeps_start.
  - apply keeps_stop.
  - apply keeps_heartbeat.
  - apply keeps_depsgraph_handler.
Qed.

Lemma reachable_consistent w : reachable w -> consistent (self w).
Proof.
  induction 1 as [view3d uv clock | a w Hr IH].
  - apply consistent_init.
  - now apply keeps_call.
Qed.

End Consistency.

(** ** The depsgraph handler *)

Section DepsgraphHandler.
Context `{Collaborators}.

Lemma Qltb_lt (x y : Q) : Qltb x y = true <-> (x < y)%Q.
Proof.
  unfold Qltb. rewrite negb_true_iff. split.
  - intros Hb. apply Qnot_le_lt. intros Hle.
    apply Qle_bool_iff in Hle. congruence.
  - intros Hlt. destruct (Qle_bool y x) eqn:E; [|reflexivity].
    apply Qle_bool_iff in E. exfalso. now apply (Qlt_not_le x y).
Qed.

Lemma short_before_long (t : Time) : (t + short_delay < t + long_delay)%Q.
Proof. apply Qplus_lt_r. reflexivity. Qed.

Lemma not_before_now (t : Time) : (t <= t + short_delay)%Q.
Proof.
  apply Qle_trans with (t + 0)%Q.
  - rewrite Qplus_0_r. apply Qle_refl.
  - apply Qplus_le_r. discriminate.
Qed.

Lemma perf_counter_run w : perf_counter w = (Ok (now w), clock_read w, []).
Proof. reflexivity. Qed.

Lemma can_skip_described c update :
  described_as_skipped c update -> can_skip_depsgraph c update = true.
Proof.
  unfold described_as_skipped, can_skip_depsgraph.
  destruct (upd_id update) as [id|]; [|reflexivity].
  intros [Hg | [Ht | [[type [Ht Hne]] | Hsel]]].
  - now rewrite Hg.
  - destruct (negb (is_updated_geometry update)); [reflexivity | now rewrite Ht].
  - destruct (negb (is_updated_geometry update)); [reflexivity|].
    rewrite Ht. apply String.eqb_neq in Hne. now rewrite Hne.
  - destruct (negb (is_updated_geometry update)); [reflexivity|].
    destruct (id_type id) as [type|]; [|reflexivity].
    destruct (negb (type =? "MESH")); [reflexivity|].
    apply negb_true_iff. destruct (existsb _ _) eqn:E; [|reflexivity].
    exfalso. apply Hsel. apply active_objects_mem, mem_In.
    apply existsb_exists in E. destruct E as [name [Hin Heq]].
    apply String.eqb_eq in Heq. now subst.
Qed.

(** C3. A change record whose entity is absent, whose change is not a
    geometry update, whose entity has no kind or a kind other than mesh, or
    whose entity is not in the selection, is skipped: processing it changes
    nothing, so the timestamp dictionary is exactly what it was. *)
Theorem skipped_record_leaves_last_update c update w :
  described_as_skipped c update ->
  handle_depsgraph_update c update w = (Ok tt, w, []) /\
  last_update (self (world_of (handle_depsgraph_update c update w))) =
  last_update (self w).
Proof.
  intros Hs. apply can_skip_described in Hs.
  unfold handle_depsgraph_update. rewrite Hs. now split.
Qed.

(** The record is processed while a timestamp of its entity is pending. *)
Lemma pending_update_run c update id w last :
  can_skip_depsgraph c update = false ->
  upd_id update = Some id ->
  get (id_name id) (last_update (self w)) = Some last ->
  (now w < last)%Q -> (0 < last)%Q ->
  handle_depsgraph_update c update w =
  (Ok tt,
   with_self (fun u => with_last_update
                         (set (id_name id) (now w + long_delay)%Q (last_update u)) u)
             (clock_read w),
   []).
Proof.
  intros Hs Hid Hg Hlt Hpos. unfold handle_depsgraph_update.
  rewrite Hs, Hid. rewrite bind_gets.
  assert (Hm : mem (id_name id) (last_update (self w)) = true).
  { apply mem_get. now exists last. }
  rewrite Hm. simpl negb. cbv iota. rewrite bind_ret.
  rewrite (bind_run _ _ _ _ _ _ (perf_counter_run w)).
  rewrite bind_gets. unfold subscript. simpl self. rewrite Hg, bind_ret.
  apply Qltb_lt in Hlt, Hpos. rewrite Hlt, Hpos. reflexivity.
Qed.

(** The record is processed for an entity without a timestamp entry. *)
Lemma fresh_update_run c update id w :
  can_skip_depsgraph c update = false ->
  upd_id update = Some id ->
  get (id_name id) (last_update (self w)) = None ->
  exists lu,
    handle_depsgraph_update c update w =
    (Ok tt, with_self (with_last_update lu) (clock_read w), []) /\
    forall k, get k lu =
              if id_name id =? k then Some (now w + short_delay)%Q
              else get k (last_update (self w)).
Proof.
  intros Hs Hid Hg. unfold handle_depsgraph_update.
  rewrite Hs, Hid. rewrite bind_gets.
  assert (Hm : mem (id_name id) (last_update (self w)) = false).
  { now apply mem_false_get. }
  rewrite Hm. simpl negb. cbv iota. unfold set_last_update at 1.
  rewrite bind_modify.
  erewrite bind_run by apply perf_counter_run.
  rewrite bind_gets. unfold subscript. simpl.
  rewrite get_set_same, bind_ret.
  change (Qltb 0 sentinel) with false. rewrite andb_false_r.
  exists (set (id_name id) (now w + short_delay)%Q
            (set (id_name id) sentinel (last_update (self w)))).
  split; [reflexivity|].
  intros k. rewrite !get_set. now destruct (id_name id =? k).
Qed.

(** C4. Coalescing: a qualifying record processed at time [t], strictly
    before the positive timestamp stored for its identity, stores the due
    time [t + 0.1], which is strictly later than the [t + 0.01] that a
    single event would have stored; no other timestamp is touched. *)
Theorem coalescing_extends_due_time c update id w last :
  can_skip_depsgraph c update = false ->
  upd_id update = Some id ->
  get (id_name id) (last_update (self w)) = Some last ->
  (now w < last)%Q -> (0 < last)%Q ->
  let w' := world_of (handle_depsgraph_update c update w) in
  result_of (handle_depsgraph_update c update w) = Ok tt /\
  get (id_name id) (last_update (self w')) = Some (now w + long_delay)%Q /\
  (now w + short_delay < now w + long_delay)%Q /\
  forall k, k <> id_name id ->
            get k (last_update (self w')) = get k (last_update (self w)).
Proof.
  intros Hs Hid Hg Hlt Hpos w'. subst w'.
  rewrite (pending_update_run c update id w last Hs Hid Hg Hlt Hpos).
  unfold result_of, world_of; simpl. repeat split.
  - apply get_set_same.
  - apply short_before_long.
  - intros k Hk. apply get_set_other. congruence.
Qed.

(** C7. For an identity without a timestamp entry, one qualifying record
    processed at time [t] stores the due time [t + 0.01], which is not
    before [t]; no other timestamp is touched. *)
Theorem fresh_identity_is_due_later c update id w :
  can_skip_depsgraph c update = false ->
  upd_id update = Some id ->
  get (id_name id) (last_update (self w)) = None ->
  let w' := world_of (handle_depsgraph_update c update w) in
  result_of (handle_depsgraph_update c update w) = Ok tt /\
  get (id_name id) (last_update (self w')) = Some (now w + short_delay)%Q /\
  (now w <= now w + short_delay)%Q /\
  forall k, k <> id_name id ->
            get k (last_update (self w')) = get k (last_update (self w)).
Proof.
  intros Hs Hid Hg w'. subst w'.
  destruct (fresh_update_run c update id w Hs Hid Hg) as [lu [Hrun Hlu]].
  rewrite Hrun. unfold result_of, world_of; simpl. repeat split.
  - rewrite Hlu. now rewrite String.eqb_refl.
  - apply not_before_now.
  - intros k Hk. rewrite Hlu.
    destruct (String.eqb_spec (id_name id) k) as [<-|_]; [contradiction | reflexivity].
Qed.

End DepsgraphHandler.

(** ** [stop] *)

Section Stop.
Context `{Collaborators}.

(** C10. [stop] never raises, whether or not the handler is registered:
    when the removal is attempted both surfaces have been disabled and the
    timer flag is cleared, and a failing removal is swallowed. *)
Theorem stop_never_raises w :
  (renderer_uv_disable ;; renderer_view3d_disable ;;
   modify (with_timer_running false)) w =
  (Ok tt, with_self stopped w, [RendererDisable UV; RendererDisable View3d]) /\
  timer_running (stopped (self w)) = false /\
  renderer_uv (stopped (self w)) = disable (renderer_uv (self w)) /\
  renderer_view3d (stopped (self w)) = disable (renderer_view3d (self w)) /\
  depsgraph_update_post_remove (with_self stopped w) =
  (match depsgraph_update_post w with
   | O => (Raise ValueError, with_self stopped w, [HandlerRemove])
   | S n => (Ok tt,
             {| self := stopped (self w); depsgraph_update_post := n;
                perf_clock := perf_clock w; perf_reads := perf_reads w |},
             [HandlerRemove])
   end) /\
  stop w =
  (Ok tt,
   {| self := stopped (self w);
      depsgraph_update_post := pred (depsgraph_update_post w);
      perf_clock := perf_clock w; perf_reads := perf_reads w |},
   [RendererDisable UV; RendererDisable View3d; HandlerRemove]).
Proof.
  repeat split.
  - unfold depsgraph_update_post_remove. rewrite bind_emit.
    unfold result_of, world_of, events_of.
    destruct w as [u [|n] clock reads]; reflexivity.
  - destruct w as [u [|n] clock reads]; reflexivity.
Qed.

End Stop.

(** ** The tick up to its handlers *)

Section Heartbeat.
Context `{Collaborators}.

Lemma reachable_after_all calls w : reachable w -> reachable (after_all calls w).
Proof.
  revert w. induction calls as [|a r IH]; intros w Hw; simpl.
  - assumption.
  - apply IH. now constructor.
Qed.

(** With an active mesh object the tick reconciles and runs its handlers. *)
Lemma heartbeat_run c w :
  consistent (self w) -> active_mesh c ->
  heartbeat c w =
  let '(r, w2, e2) := handlers c (get_active_objects c) (with_self (reconciled c) w) in
  (r, w2, MousePosition :: mode_events c (self w) ++ e2).
Proof.
  intros Hc (obj & Hobj & Hty). unfold heartbeat, watch_mouse.
  rewrite bind_emit, Hobj, Hty.
  change (negb ("MESH" =? "MESH")) with false. cbv beta iota.
  rewrite (bind_run _ _ _ _ _ _ (reconcile_run c w Hc)).
  now destruct (handlers _ _ _) as [[r w2] e2].
Qed.

(** Without an active mesh object the tick only re-arms the mouse watcher. *)
Lemma heartbeat_idle c w :
  ~ active_mesh c -> heartbeat c w = (Ok tt, w, [MousePosition]).
Proof.
  intros Hno. unfold heartbeat, watch_mouse. rewrite bind_emit.
  destruct (active_object c) as [obj|] eqn:Hobj; [|reflexivity].
  destruct (String.eqb_spec (obj_type obj) "MESH") as [Hty|Hty]; [|reflexivity].
  exfalso. apply Hno. now exists obj.
Qed.

(** The visibility handler when the visibility did not change. *)
Lemma visibility_unchanged_run c ao w :
  uv_editor_visible (self w) = uv_editor_visibility c ->
  handle_uv_edtitor_visibility_changed c ao w =
  if negb (uv_editor_visible (self w)) && enabled (renderer_view3d (self w)) then
    (Ok false,
     with_self (fun u => with_renderer_view3d (disable (renderer_view3d u)) u) w,
     [RendererDisable View3d; TagRedrawAllViews])
  else (Ok false, w, []).
Proof.
  intros Hv. unfold handle_uv_edtitor_visibility_changed.
  rewrite bind_gets, <- Hv, Bool.eqb_reflx.
  destruct (uv_editor_visible (self w)); simpl.
  - reflexivity.
  - rewrite bind_assoc, bind_gets.
    destruct (enabled (renderer_view3d (self w))); reflexivity.
Qed.

(** The tick when the visibility handler answers [False]. *)
Lemma handlers_continue c ao w w' e :
  handle_uv_edtitor_visibility_changed c ao w = (Ok false, w', e) ->
  handlers c ao w =
  let '(r, w2, e2) := due_then_selection c ao w' in (r, w2, e ++ e2).
Proof.
  intros Hv. unfold handlers. now rewrite (bind_run _ _ _ _ _ _ Hv).
Qed.

(** The tick when the visibility handler answers [True]. *)
Lemma handlers_stop c ao w w' e :
  handle_uv_edtitor_visibility_changed c ao w = (Ok true, w', e) ->
  handlers c ao w = (Ok tt, w', e).
Proof.
  intros Hv. unfold handlers. rewrite (bind_run _ _ _ _ _ _ Hv). simpl.
  now rewrite app_nil_r.
Qed.

End Heartbeat.

(** ** The 3D surface while the UV editor is hidden *)

Section Hidden.
Context `{Collaborators}.
Hypothesis disable_clears : forall r, enabled (disable r) = false.

Section UpdateKeeps.
Hypothesis update_keeps : forall r data, enabled (update r data) = enabled r.

Lemma keeps_view3d_off_mesh_data_update id obj selection_only :
  keeps view3d_off (mesh_data_update id obj selection_only).
Proof.
  unfold mesh_data_update, set_mesh_data. repeat keeps_step.
  apply keeps_modify. now intros u.
Qed.

Lemma keeps_view3d_off_pushes id :
  keeps view3d_off (renderer_view3d_update id) /\
  keeps view3d_off (renderer_uv_update id).
Proof.
  unfold renderer_view3d_update, renderer_uv_update.
  split; repeat keeps_step; apply keeps_modify; intros u Hu; unfold view3d_off; simpl.
  - now rewrite update_keeps.
  - assumption.
Qed.

Lemma keeps_view3d_off_due_then_selection c ao :
  keeps view3d_off (due_then_selection c ao).
Proof.
  unfold due_then_selection, handle_id_updates, handle_id_update,
    handle_selection_changed_ops, set_last_update, tag_redraw_all_views.
  repeat first
    [ apply keeps_view3d_off_mesh_data_update
    | apply keeps_view3d_off_pushes
    | apply keeps_modify; now intros ?
    | keeps_step ].
Qed.

End UpdateKeeps.

(** A computation changes [self.renderer_view3d] only where it pushes a
    snapshot to the 3D surface. *)

Lemma unpushed_pure {A} (m : M A) :
  (forall w, world_of (m w) = w) -> view3d_kept_unless_pushed m.
Proof. intros Hm w _. now rewrite Hm. Qed.

Lemma unpushed_subscript {V} (d : dict V) k :
  view3d_kept_unless_pushed (subscript d k).
Proof. apply unpushed_pure. intros w. unfold subscript. now destruct (get k d). Qed.

Lemma unpushed_modify f :
  (forall u, renderer_view3d (f u) = renderer_view3d u) ->
  view3d_kept_unless_pushed (modify f).
Proof. intros Hf w _. apply Hf. Qed.

Lemma unpushed_perf_counter : view3d_kept_unless_pushed perf_counter.
Proof. now intros w _. Qed.

Lemma unpushed_bind {A B} (m : M A) (k : A -> M B) :
  view3d_kept_unless_pushed m -> (forall a, view3d_kept_unless_pushed (k a)) ->
  view3d_kept_unless_pushed (bind m k).
Proof.
  intros Hm Hk w. rewrite events_of_bind, world_of_bind.
  intros Hq. apply Forall_app in Hq. destruct Hq as [Hq1 Hq2].
  destruct (result_of (m w)) as [a|x].
  - rewrite (Hk a _ Hq2). now apply Hm.
  - now apply Hm.
Qed.

Lemma unpushed_if {A} (b : bool) (m1 m2 : M A) :
  view3d_kept_unless_pushed m1 -> view3d_kept_unless_pushed m2 ->
  view3d_kept_unless_pushed (if b then m1 else m2).
Proof. now destruct b. Qed.

Lemma unpushed_for_each {X} (l : list X) (body : X -> M unit) :
  (forall x, view3d_kept_unless_pushed (body x)) ->
  view3d_kept_unless_pushed (for_each l body).
Proof.
  intros Hb. induction l as [|x r IH]; simpl.
  - now apply unpushed_pure.
  - apply unpushed_bind; [apply Hb | now intros _].
Qed.

Lemma unpushed_fold_items {X} (body : bool -> X -> M bool) (l : list X) :
  (forall b x, view3d_kept_unless_pushed (body b x)) ->
  forall b, view3d_kept_unless_pushed (fold_items body b l).
Proof.
  intros Hb. induction l as [|x r IH]; intros b; simpl.
  - now apply unpushed_pure.
  - apply unpushed_bind; [apply Hb | intros b'; apply IH].
Qed.

Lemma unpushed_renderer_view3d_update id :
  view3d_kept_unless_pushed (renderer_view3d_update id).
Proof.
  intros w Hq.
  destruct (get id (mesh_data (self w))) as [data|] eqn:E.
  - rewrite (renderer_view3d_update_run id w data E) in Hq.
    inversion Hq as [|e l Hpush _]; subst. exfalso. apply Hpush. exact I.
  - unfold renderer_view3d_update. rewrite bind_gets.
    unfold subscript. now rewrite E.
Qed.

Ltac unpushed_step :=
  match goal with
  | |- view3d_kept_unless_pushed (bind _ _) => apply unpushed_bind; [|intros ?]
  | |- view3d_kept_unless_pushed (if _ then _ else _) => apply unpushed_if
  | |- view3d_kept_unless_pushed (for_each _ _) => apply unpushed_for_each; intros ?
  | |- view3d_kept_unless_pushed (fold_items _ _ _) =>
      apply unpushed_fold_items; intros ? ?
  | |- view3d_kept_unless_pushed (match ?x with _ => _ end) => destruct x
  | |- view3d_kept_unless_pushed (let '(_, _) := ?x in _) => destruct x
  | |- view3d_kept_unless_pushed (renderer_view3d_update _) =>
      apply unpushed_renderer_view3d_update
  | |- view3d_kept_unless_pushed (subscript _ _) => apply unpushed_subscript
  | |- view3d_kept_unless_pushed perf_counter => apply unpushed_perf_counter
  | |- view3d_kept_unless_pushed (modify _) => apply unpushed_modify; now intros ?
  | |- view3d_kept_unless_pushed _ => solve [apply unpushed_pure; now intros ?]
  end.

Lemma unpushed_due_then_selection c ao :
  view3d_kept_unless_pushed (due_then_selection c ao).
Proof.
  unfold due_then_selection, handle_id_updates, handle_id_update,
    handle_selection_changed_ops, set_last_update, mesh_data_update, set_mesh_data,
    renderer_uv_update, tag_redraw_all_views.
  repeat unpushed_step.
Qed.


End Hidden.

(** ** The loops that refresh snapshots *)

Section Loops.
Context `{Collaborators}.

Lemma refresh_frame_refl u : refresh_frame u u.
Proof. now repeat split. Qed.

Lemma refresh_frame_trans u1 u2 u3 :
  refresh_frame u1 u2 -> refresh_frame u2 u3 -> refresh_frame u1 u3.
Proof.
  unfold refresh_frame. intros (-> & -> & -> & -> & ->) (-> & -> & -> & -> & ->).
  now repeat split.
Qed.

Lemma refreshed_and_pushed_mesh_data id obj data u :
  mesh_data (refreshed_and_pushed id obj data u) =
  set id (fst (mesh_update data obj false)) (mesh_data u).
Proof.
  unfold refreshed_and_pushed.
  now destruct (mesh_update data obj false) as [data' []].
Qed.

Lemma refreshed_and_pushed_frame id obj data u :
  refresh_frame u (refreshed_and_pushed id obj data u).
Proof.
  unfold refreshed_and_pushed.
  destruct (mesh_update data obj false) as [data' []]; now repeat split.
Qed.

Lemma flat_map_agree {X Y} (f g : X -> list Y) (l : list X) :
  (forall x, In x l -> f x = g x) -> flat_map f l = flat_map g l.
Proof.
  intros Hfg. induction l as [|x r IH]; simpl.
  - reflexivity.
  - rewrite (Hfg x (or_introl eq_refl)), IH; [reflexivity|].
    intros y Hy. apply Hfg. now right.
Qed.

(** The loop of the visibility handler over the active objects. *)
Lemma refresh_loop_run (l : dict Object) w :
  NoDup (keys l) ->
  (forall id, In id (keys l) -> mem id (mesh_data (self w)) = true) ->
  exists f,
    for_each l (fun '(id, obj) =>
      changed <- mesh_data_update id obj false ;;
      if changed then
        renderer_view3d_update id ;; renderer_uv_update id ;; tag_redraw_all_views
      else ret tt) w =
    (Ok tt, with_self f w, visible_events (mesh_data (self w)) l) /\
    refresh_frame (self w) (f (self w)) /\
    (forall id obj data,
        In (id, obj) l -> get id (mesh_data (self w)) = Some data ->
        get id (mesh_data (f (self w))) = Some (fst (mesh_update data obj false))) /\
    (forall id, ~ In id (keys l) ->
                get id (mesh_data (f (self w))) = get id (mesh_data (self w))).
Proof.
  revert w. induction l as [|[id obj] r IH]; intros w Hnd Hin.
  - exists (fun u => u). simpl. split; [|split; [|split]].
    + now destruct w as [[] ? ? ?].
    + apply refresh_frame_refl.
    + intros ? ? ? [].
    + reflexivity.
  - simpl in Hnd. inversion Hnd as [|? ? Hni Hnd']; subst.
    destruct (proj1 (mem_get _ _) (Hin id (or_introl eq_refl))) as [data Hdata].
    pose proof (refresh_and_push_run id obj w data Hdata) as Hhead.
    set (w1 := with_self (refreshed_and_pushed id obj data) w) in *.
    assert (Hmd1 : mesh_data (self w1) =
                   set id (fst (mesh_update data obj false)) (mesh_data (self w))).
    { apply refreshed_and_pushed_mesh_data. }
    destruct (IH w1 Hnd') as (f & Hrun & Hframe & Hin_r & Hout_r).
    { intros id' Hid'. rewrite Hmd1, mem_set.
      rewrite (Hin id' (or_intror Hid')). apply orb_true_r. }
    exists (fun u => f (refreshed_and_pushed id obj data u)).
    split; [|split; [|split]].
    + simpl for_each. rewrite (bind_run _ _ _ _ _ _ Hhead), Hrun.
      unfold visible_events at 2. simpl flat_map. rewrite Hdata.
      f_equal. f_equal. unfold visible_events.
      apply flat_map_agree. intros [id' obj'] Hin'.
      rewrite Hmd1, get_set_other; [reflexivity|].
      intros ->. apply Hni. change id' with (fst (id', obj')). now apply in_map.
    + eapply refresh_frame_trans; [apply refreshed_and_pushed_frame | apply Hframe].
    + intros id' obj' data' [Heq|Hin'] Hg.
      * injection Heq as <- <-. rewrite Hdata in Hg. injection Hg as <-.
        change (get id (mesh_data (f (self w1))) = Some (fst (mesh_update data obj false))).
        rewrite (Hout_r id Hni), Hmd1. apply get_set_same.
      * apply (Hin_r id' obj' data' Hin'). rewrite Hmd1, get_set_other; [assumption|].
        intros ->. apply Hni. change id' with (fst (id', obj')). now apply in_map.
    + intros id' Hid'. simpl in Hid'.
      change (get id' (mesh_data (f (self w1))) = get id' (mesh_data (self w))).
      rewrite Hout_r by tauto. rewrite Hmd1. apply get_set_other. tauto.
Qed.

(** The visibility handler when the UV editor has just become visible. *)
Lemma visibility_shown_run c w :
  consistent (self w) ->
  (forall id, mem id (mesh_data (self w)) = mem id (get_active_objects c)) ->
  uv_editor_visible (self w) = false ->
  uv_editor_visibility c = true ->
  exists f,
    handle_uv_edtitor_visibility_changed c (get_active_objects c) w =
    (Ok true, with_self f w,
     visible_events (mesh_data (self w)) (get_active_objects c)) /\
    last_update (f (self w)) = last_update (self w) /\
    uv_editor_visible (f (self w)) = true /\
    op (f (self w)) = op (self w) /\
    (forall id obj data,
        get id (get_active_objects c) = Some obj ->
        get id (mesh_data (self w)) = Some data ->
        get id (mesh_data (f (self w))) = Some (fst (mesh_update data obj false))).
Proof.
  intros Hc Hkeys Hvis Hshown.
  set (w0 := with_self (with_uv_editor_visible true) w).
  destruct (refresh_loop_run (get_active_objects c) w0 (active_objects_NoDup c))
    as (f & Hrun & (Hlu & Huv & Hop & _) & Hin & _).
  { intros id Hid. simpl. rewrite Hkeys. now apply mem_In. }
  exists (fun u => f (with_uv_editor_visible true u)).
  repeat split.
  - unfold handle_uv_edtitor_visibility_changed.
    rewrite bind_gets, Hvis, Hshown.
    change (Bool.eqb false true) with false. cbv iota.
    rewrite bind_modify. fold w0.
    rewrite (bind_run _ _ _ _ _ _ Hrun). simpl. now rewrite app_nil_r.
  - exact Hlu.
  - exact Huv.
  - exact Hop.
  - intros id obj data Hobj Hdata. apply (Hin id obj data); [|exact Hdata].
    now apply get_In.
Qed.

End Loops.

(** ** The tick on which the UV editor becomes visible *)

Section Shown.
Context `{Collaborators}.

(** C5. On a tick with an active mesh object on which the UV editor has
    just become visible, only the visibility branch runs: every active
    object is refreshed (not selection-only) and pushed when it changed,
    and the tick ends there without reading the clock, so the loop of the
    due timestamps does not run. The handlers leave every timestamp as
    the reconciliation of that tick left it. Against the state before the
    tick: the timestamp of a selected identity that had a snapshot, due or
    not, is left as it was; the timestamp of a selected identity without
    a snapshot is overwritten by the sentinel (lazy creation); the entry
    of a deselected identity that had a snapshot is removed ([free]); the
    timestamp of a deselected identity without a snapshot is left as it
    was. *)
Theorem visibility_transition_short_circuits c w :
  reachable w -> active_mesh c ->
  uv_editor_visible (self w) = false ->
  uv_editor_visibility c = true ->
  let ao := get_active_objects c in
  let w1 := with_self (reconciled c) w in
  exists w2,
    handle_uv_edtitor_visibility_changed c ao w1 =
      (Ok true, w2, visible_events (mesh_data (self w1)) ao) /\
    heartbeat c w =
      (Ok tt, w2,
       MousePosition :: mode_events c (self w) ++
       visible_events (mesh_data (self w1)) ao) /\
    (forall id obj, get id ao = Some obj ->
       exists data,
         get id (mesh_data (self w1)) = Some data /\
         get id (mesh_data (self w2)) = Some (fst (mesh_update data obj false))) /\
    last_update (self w2) = last_update (self w1) /\
    perf_reads w2 = perf_reads w /\
    op (self w2) = op (self w) /\
    (forall id, mem id (mesh_data (self w)) = true -> mem id ao = true ->
       get id (last_update (self w2)) = get id (last_update (self w))) /\
    (forall id,
       get id (last_update (self w2)) =
       if mem id ao then
         if mem id (mesh_data (self w)) then get id (last_update (self w))
         else Some sentinel
       else
         if mem id (mesh_data (self w)) then None
         else get id (last_update (self w))).
Proof.
  intros Hr Ham Hvis Hshown ao w1.
  pose proof (reachable_consistent w Hr) as Hc.
  assert (Hc1 : consistent (self w1)) by now apply reconciled_consistent.
  assert (Hkeys : forall id, mem id (mesh_data (self w1)) = mem id ao).
  { intros id. apply reconciled_mem_mesh_data. }
  assert (Hvis1 : uv_editor_visible (self w1) = false).
  { unfold w1. simpl. now rewrite reconciled_uv_editor_visible. }
  destruct (visibility_shown_run c w1 Hc1 Hkeys Hvis1 Hshown)
    as (f & Hrun & Hlu & _ & Hop & Hmd).
  exists (with_self f w1). fold ao in Hrun.
  split; [exact Hrun|]. split; [|split; [|split; [|split; [|split; [|split]]]]].
  - rewrite (heartbeat_run c w Hc Ham). fold ao w1.
    now rewrite (handlers_stop c ao w1 _ _ Hrun).
  - intros id obj Hobj.
    assert (Hm : mem id (mesh_data (self w1)) = true).
    { rewrite Hkeys. apply mem_get. now exists obj. }
    apply mem_get in Hm. destruct Hm as [data Hdata].
    exists data. split; [exact Hdata|]. now apply Hmd.
  - exact Hlu.
  - reflexivity.
  - simpl. simpl in Hop. rewrite Hop. apply reconciled_op.
  - intros id Hm Ha. simpl. simpl in Hlu. rewrite Hlu.
    rewrite reconciled_get_last_update. fold ao. now rewrite Ha, Hm.
  - intros id. simpl. simpl in Hlu. rewrite Hlu.
    apply reconciled_get_last_update.
Qed.

End Shown.

(** ** The due timestamps *)

Section Due.
Context `{Collaborators}.

Lemma handle_id_update_not_due ao t b id last w :
  due t last = false -> handle_id_update ao t b (id, last) w = (Ok b, w, []).
Proof.
  intros Hd. unfold handle_id_update. now rewrite Hd.
Qed.

(** The Updater after the loop body for a due entry of [id]. *)
Lemma handle_id_update_due ao t b id last w data obj :
  due t last = true ->
  get id (mesh_data (self w)) = Some data ->
  get id ao = Some obj ->
  handle_id_update ao t b (id, last) w =
  (Ok true,
   with_self (fun u => refreshed_and_pushed id obj data
                         (with_last_update (set id sentinel (last_update u)) u)) w,
   refresh_events id obj data).
Proof.
  intros Hd Hdata Hobj. unfold handle_id_update. rewrite Hd.
  unfold set_last_update. rewrite bind_modify, bind_gets.
  unfold subscript at 1 2. simpl self. simpl mesh_data.
  rewrite Hdata, bind_ret, Hobj, bind_ret.
  rewrite <- (bind_assoc (mesh_data_update id obj false)
                (fun changed => if changed
                                then renderer_view3d_update id ;;
                                     renderer_uv_update id ;; tag_redraw_all_views
                                else ret tt)
                (fun _ => ret true)).
  erewrite bind_run by (apply refresh_and_push_run; simpl; exact Hdata).
  simpl. now rewrite app_nil_r.
Qed.

(** A due entry without a snapshot: the timestamp is cleared, then the
    lookup of the snapshot raises. *)
Lemma handle_id_update_orphan ao t b id last w :
  due t last = true ->
  get id (mesh_data (self w)) = None ->
  handle_id_update ao t b (id, last) w =
  (Raise (KeyError id),
   with_self (fun u => with_last_update (set id sentinel (last_update u)) u) w,
   []).
Proof.
  intros Hd Hdata. unfold handle_id_update. rewrite Hd.
  unfold set_last_update. rewrite bind_modify, bind_gets.
  unfold subscript at 1. simpl self. simpl mesh_data. now rewrite Hdata.
Qed.

(** The loop of [handle_id_updates] when the first due entry has no
    snapshot: the entries before it are passed over, its timestamp is
    cleared, and the loop raises without reaching the entries after it. *)
Lemma first_due_orphan_raises ao t b (before after : dict Time) id last w :
  (forall item, In item before -> due t (snd item) = false) ->
  due t last = true ->
  get id (mesh_data (self w)) = None ->
  fold_items (handle_id_update ao t) b (before ++ (id, last) :: after) w =
  (Raise (KeyError id),
   with_self (fun u => with_last_update (set id sentinel (last_update u)) u) w,
   []).
Proof.
  intros Hbefore Hd Hdata. induction before as [|[id' last'] r IH]; simpl.
  - now rewrite (bind_Raise _ _ _ _ _ _ (handle_id_update_orphan ao t b id last w Hd Hdata)).
  - rewrite (bind_run _ _ _ _ _ _
               (handle_id_update_not_due ao t b id' last' w
                  (Hbefore (id', last') (or_introl eq_refl)))).
    rewrite IH; [reflexivity|]. intros item Hitem. apply Hbefore. now right.
Qed.

End Due.

Section DueLoop.
Context `{Collaborators}.

Lemma get_absent {V} (d : dict V) k : ~ In k (keys d) -> get k d = None.
Proof. intros Hk. now apply mem_false_get, mem_false_In. Qed.

(** The loop of [handle_id_updates] when every due entry has a snapshot
    and belongs to an active object. *)
Lemma due_loop_run ao t (l : dict Time) w b :
  NoDup (keys l) ->
  (forall id last, In (id, last) l -> due t last = true ->
     mem id (mesh_data (self w)) = true /\ mem id ao = true) ->
  exists f,
    fold_items (handle_id_update ao t) b l w =
      (Ok (b || existsb (fun item => due t (snd item)) l), with_self f w,
       due_events (mesh_data (self w)) ao t l) /\
    op (f (self w)) = op (self w) /\
    uv_editor_visible (f (self w)) = uv_editor_visible (self w) /\
    (forall k, get k (last_update (f (self w))) =
       match get k l with
       | Some last =>
           if due t last then Some sentinel else get k (last_update (self w))
       | None => get k (last_update (self w))
       end) /\
    (forall k, get k (mesh_data (f (self w))) =
       match get k l, get k (mesh_data (self w)), get k ao with
       | Some last, Some data, Some obj =>
           if due t last then Some (fst (mesh_update data obj false)) else Some data
       | _, _, _ => get k (mesh_data (self w))
       end).
Proof.
  revert w b. induction l as [|[id last] r IH]; intros w b Hnd Hin.
  - exists (fun u => u). simpl. rewrite orb_false_r.
    split; [now destruct w as [[] ? ? ?]|]. now repeat split.
  - simpl in Hnd. inversion Hnd as [|? ? Hni Hnd']; subst.
    destruct (due t last) eqn:Hd.
    + (* a due entry *)
      destruct (Hin id last (or_introl eq_refl) Hd) as [Hm Ha].
      apply mem_get in Hm, Ha. destruct Hm as [data Hdata]. destruct Ha as [obj Hobj].
      pose proof (handle_id_update_due ao t b id last w data obj Hd Hdata Hobj) as Hhead.
      set (g := fun u => refreshed_and_pushed id obj data
                           (with_last_update (set id sentinel (last_update u)) u)) in *.
      set (w1 := with_self g w) in *.
      assert (Hmd1 : mesh_data (self w1) =
                     set id (fst (mesh_update data obj false)) (mesh_data (self w))).
      { unfold w1, g. simpl. now rewrite refreshed_and_pushed_mesh_data. }
      assert (Hlu1 : last_update (self w1) = set id sentinel (last_update (self w))).
      { unfold w1, g. simpl.
        now destruct (refreshed_and_pushed_frame id obj data
          (with_last_update (set id sentinel (last_update (self w))) (self w)))
          as (-> & _). }
      assert (Hfr1 : op (self w1) = op (self w) /\
                     uv_editor_visible (self w1) = uv_editor_visible (self w)).
      { unfold w1, g. simpl.
        now destruct (refreshed_and_pushed_frame id obj data
          (with_last_update (set id sentinel (last_update (self w))) (self w)))
          as (_ & -> & -> & _). }
      destruct (IH w1 true Hnd') as (f & Hrun & Hop & Huv & Hlu & Hmd).
      { intros id' last' Hin' Hd'. rewrite Hmd1, mem_set.
        destruct (Hin id' last' (or_intror Hin') Hd') as [-> ->].
        split; [apply orb_true_r | reflexivity]. }
      exists (fun u => f (g u)).
      split; [|split; [|split; [|split]]].
      * simpl fold_items. rewrite (bind_run _ _ _ _ _ _ Hhead), Hrun.
        simpl existsb. rewrite Hd. simpl. rewrite orb_true_r.
        f_equal. unfold due_events. simpl flat_map. rewrite Hd.
        assert (Hre : refresh_events_of (mesh_data (self w)) ao id =
                      refresh_events id obj data).
        { unfold refresh_events_of. now rewrite Hdata, Hobj. }
        rewrite Hre. f_equal.
        apply flat_map_agree. intros [id' last'] Hin'.
        destruct (due t last'); [|reflexivity].
        change (g (self w)) with (self w1).
        unfold refresh_events_of. rewrite Hmd1, get_set_other; [reflexivity|].
        intros ->. apply Hni. change id' with (fst (id', last')). now apply in_map.
      * change (op (f (self w1)) = op (self w)). rewrite Hop. apply Hfr1.
      * change (uv_editor_visible (f (self w1)) = uv_editor_visible (self w)).
        rewrite Huv. apply Hfr1.
      * intros k. change (get k (last_update (f (self w1))) =
                          match get k ((id, last) :: r) with
                          | Some last0 =>
                              if due t last0 then Some sentinel
                              else get k (last_update (self w))
                          | None => get k (last_update (self w))
                          end).
        rewrite Hlu, Hlu1. simpl get.
        destruct (String.eqb_spec id k) as [<-|Hne].
        -- rewrite (get_absent r id Hni), Hd. apply get_set_same.
        -- now rewrite get_set_other.
      * intros k. change (get k (mesh_data (f (self w1))) =
                          match get k ((id, last) :: r),
                                get k (mesh_data (self w)), get k ao with
                          | Some last0, Some data0, Some obj0 =>
                              if due t last0
                              then Some (fst (mesh_update data0 obj0 false))
                              else Some data0
                          | _, _, _ => get k (mesh_data (self w))
                          end).
        rewrite Hmd, Hmd1. simpl get.
        destruct (String.eqb_spec id k) as [<-|Hne].
        -- rewrite (get_absent r id Hni), Hdata, Hobj, Hd. apply get_set_same.
        -- now rewrite get_set_other.
    + (* an entry that is not due *)
      pose proof (handle_id_update_not_due ao t b id last w Hd) as Hhead.
      destruct (IH w b Hnd') as (f & Hrun & Hop & Huv & Hlu & Hmd).
      { intros id' last' Hin' Hd'. apply (Hin id' last'); [now right | assumption]. }
      exists f. split; [|split; [|split; [|split]]].
      * simpl fold_items. rewrite (bind_run _ _ _ _ _ _ Hhead), Hrun.
        simpl existsb. rewrite Hd. simpl.
        unfold due_events. simpl flat_map. now rewrite Hd.
      * exact Hop.
      * exact Huv.
      * intros k. rewrite Hlu. simpl get.
        destruct (String.eqb_spec id k) as [<-|Hne]; [|reflexivity].
        now rewrite (get_absent r id Hni), Hd.
      * intros k. rewrite Hmd. simpl get.
        destruct (String.eqb_spec id k) as [<-|Hne]; [|reflexivity].
        rewrite (get_absent r id Hni), Hd.
        destruct (get id (mesh_data (self w))); [|reflexivity].
        now destruct (get id ao).
Qed.

End DueLoop.

(** ** The handlers of a tick add and remove no key *)

Section Keys.
Context `{Collaborators}.

Lemma keeps_fold_items_in P {X} (body : bool -> X -> M bool) (l : list X) :
  (forall b x, In x l -> keeps P (body b x)) ->
  forall b, keeps P (fold_items body b l).
Proof.
  induction l as [|x r IH]; intros Hb b; simpl.
  - apply keeps_ret.
  - apply keeps_bind; [apply Hb; now left | intros b'].
    apply IH. intros b0 y Hy. apply Hb. now right.
Qed.

Lemma keeps_same_keys_mesh_data_update md lu id obj selection_only :
  keeps (same_keys md lu) (mesh_data_update id obj selection_only).
Proof.
  intros w [Hm Hl].
  destruct (get id (mesh_data (self w))) as [data|] eqn:E.
  - rewrite (mesh_data_update_run _ _ _ _ _ E). split; simpl; [|exact Hl].
    intros k. rewrite mem_set, <- Hm.
    destruct (String.eqb_spec id k) as [<-|Hne]; [|reflexivity].
    simpl. symmetry. apply mem_get. now exists data.
  - rewrite (mesh_data_update_missing _ _ _ _ E). now split.
Qed.

Lemma keeps_same_keys_renderers md lu :
  (forall id, keeps (same_keys md lu) (renderer_view3d_update id)) /\
  (forall id, keeps (same_keys md lu) (renderer_uv_update id)) /\
  keeps (same_keys md lu) renderer_view3d_disable /\
  keeps (same_keys md lu) renderer_uv_disable.
Proof. apply keeps_renderers; now intros. Qed.

Ltac keeps_same_keys :=
  repeat first
    [ apply keeps_same_keys_mesh_data_update
    | apply keeps_same_keys_renderers
    | apply keeps_modify; now intros ? ?
    | keeps_step ].

Lemma keeps_same_keys_handle_id_updates md lu ao :
  keeps (same_keys md lu) (handle_id_updates ao).
Proof.
  intros w Hw. unfold handle_id_updates.
  rewrite (bind_run _ _ _ _ _ _ (perf_counter_run w)), bind_gets.
  assert (Hend : same_keys md lu (self (world_of
            (fold_items (handle_id_update ao (now w)) false
               (last_update (self (clock_read w))) (clock_read w))))).
  { apply keeps_fold_items_in; [|exact Hw].
    intros b [id last] Hin. unfold handle_id_update, tag_redraw_all_views.
    apply keeps_if; [|apply keeps_ret].
    apply keeps_bind; [|intros _; keeps_same_keys].
    apply keeps_modify. intros u [Hm Hl]. split; simpl; [exact Hm|].
    intros k. rewrite mem_set, Hl.
    destruct (String.eqb_spec id k) as [<-|Hne]; [|reflexivity].
    simpl. symmetry. destruct Hw as [_ Hl0]. rewrite <- Hl0.
    apply mem_In. change id with (fst (id, last)). now apply in_map. }
  unfold world_of in *. now destruct (fold_items _ _ _ _) as [[r w2] e2].
Qed.

Lemma keeps_same_keys_handlers md lu c ao :
  keeps (same_keys md lu) (handlers c ao).
Proof.
  unfold handlers, due_then_selection.
  apply keeps_bind; [|intros done].
  { unfold handle_uv_edtitor_visibility_changed, tag_redraw_all_views.
    keeps_same_keys. }
  apply keeps_if; [apply keeps_ret|].
  apply keeps_bind; [apply keeps_same_keys_handle_id_updates | intros done'].
  apply keeps_if; [apply keeps_ret|].
  unfold handle_selection_changed_ops. keeps_same_keys.
Qed.

(** After a tick with an active mesh object, whether it returned or
    raised, the snapshots are those of the selected objects, and the
    timestamp entries are those left by the reconciliation. *)
Lemma heartbeat_keys c w :
  consistent (self w) -> active_mesh c ->
  let u' := self (world_of (heartbeat c w)) in
  (forall k, mem k (mesh_data u') = mem k (get_active_objects c)) /\
  (forall k, mem k (last_update u') = mem k (last_update (reconciled c (self w)))).
Proof.
  intros Hc Ham u'. subst u'. rewrite (heartbeat_run c w Hc Ham).
  pose proof (keeps_same_keys_handlers
                (mesh_data (reconciled c (self w)))
                (last_update (reconciled c (self w)))
                c (get_active_objects c) (with_self (reconciled c) w)) as Hk.
  unfold world_of in *.
  destruct (handlers _ _ _) as [[r w2] e2]. simpl in *.
  destruct Hk as [Hm Hl]; [now split|].
  split; [|exact Hl].
  intros k. rewrite Hm. apply reconciled_mem_mesh_data.
Qed.

End Keys.

(** ** Notifications between ticks *)

Section Notifications.
Context `{Collaborators}.

(** A record that is not skipped stores a due time after the current time
    for its entity and changes nothing else of the Updater. *)
Lemma scheduled_update_run c update id w :
  can_skip_depsgraph c update = false ->
  upd_id update = Some id ->
  exists lu delay,
    handle_depsgraph_update c update w =
    (Ok tt, with_self (with_last_update lu) (clock_read w), []) /\
    (delay = short_delay \/ delay = long_delay) /\
    forall k, get k lu =
              if id_name id =? k then Some (now w + delay)%Q
              else get k (last_update (self w)).
Proof.
  intros Hs Hid.
  destruct (get (id_name id) (last_update (self w))) as [last|] eqn:Hg.
  - exists (set (id_name id)
             (now w + (if Qltb (now w) last && Qltb 0 last
                       then long_delay else short_delay))%Q
             (last_update (self w))).
    exists (if Qltb (now w) last && Qltb 0 last then long_delay else short_delay).
    split; [|split].
    + unfold handle_depsgraph_update. rewrite Hs, Hid, bind_gets.
      assert (Hm : mem (id_name id) (last_update (self w)) = true).
      { apply mem_get. now exists last. }
      rewrite Hm. simpl negb. cbv iota. rewrite bind_ret.
      rewrite (bind_run _ _ _ _ _ _ (perf_counter_run w)).
      rewrite bind_gets. unfold subscript. simpl self. rewrite Hg, bind_ret.
      now destruct (Qltb (now w) last && Qltb 0 last).
    + destruct (Qltb (now w) last && Qltb 0 last); auto.
    + intros k. apply get_set.
  - destruct (fresh_update_run c update id w Hs Hid Hg) as (lu & Hrun & Hlu).
    exists lu, short_delay. auto.
Qed.

Lemma keeps_tracked_depsgraph_handler k c :
  keeps (tracked k) (depsgraph_handler c).
Proof.
  unfold depsgraph_handler, handle_depsgraph_update, set_last_update.
  repeat first
    [ apply keeps_modify; intros u [Hm Hl]; split; simpl; auto;
      rewrite mem_set, Hl; apply orb_true_r
    | keeps_step ].
Qed.

Lemma after_all_keeps (P : Updater -> Prop) calls w :
  (forall a, In a calls -> keeps P (call a)) ->
  P (self w) -> P (self (after_all calls w)).
Proof.
  revert w. induction calls as [|a r IH]; intros w Hk Hw; simpl.
  - assumption.
  - apply IH; [intros a' Ha'; apply Hk; now right|].
    apply Hk; [now left | assumption].
Qed.

End Notifications.

(** ** A timestamp scheduled before the first observation *)

Section Unobserved.
Context `{Collaborators}.

Lemma due_sentinel t : due t sentinel = false.
Proof. unfold due. change (Qltb 0 sentinel) with false. apply andb_false_r. Qed.

Lemma keeps_cleared_handlers k c ao :
  keeps (fun u => get k (last_update u) = Some sentinel) (handlers c ao).
Proof.
  unfold handlers, due_then_selection, handle_uv_edtitor_visibility_changed,
    handle_id_updates, handle_id_update, handle_selection_changed_ops,
    mesh_data_update, renderer_view3d_update, renderer_uv_update,
    renderer_view3d_disable, set_mesh_data, set_last_update,
    tag_redraw_all_views.
  repeat first
    [ apply keeps_modify; intros u Hu; simpl; try assumption;
      rewrite get_set, Hu; now destruct (_ =? _)
    | keeps_step ].
Qed.

Lemma emits_no_refresh_mesh_data_update name id obj selection_only :
  id <> name \/ selection_only = true ->
  emits (no_refresh_of name) (mesh_data_update id obj selection_only).
Proof.
  intros Hid. unfold mesh_data_update, set_mesh_data. repeat emits_step.
  intros obj' changed' Heq. injection Heq as -> _ -> _.
  destruct Hid as [Hid | Hid]; [now apply Hid | discriminate].
Qed.

Lemma emits_no_refresh_pushes name id :
  emits (no_refresh_of name) (renderer_view3d_update id) /\
  emits (no_refresh_of name) (renderer_uv_update id).
Proof.
  unfold renderer_view3d_update, renderer_uv_update.
  split; repeat emits_step; intros ? ?; discriminate.
Qed.

Lemma emits_no_refresh_selection name c ao :
  emits (no_refresh_of name) (handle_selection_changed_ops c ao).
Proof.
  unfold handle_selection_changed_ops.
  repeat first
    [ apply emits_no_refresh_mesh_data_update; now right
    | apply emits_no_refresh_pushes
    | emits_step ].
Qed.

(** While the timestamp of [name] is the sentinel, the loop of the due
    timestamps makes no refresh of [name], whether it returns or raises. *)
Lemma handle_id_updates_no_refresh name ao w :
  NoDup (keys (last_update (self w))) ->
  get name (last_update (self w)) = Some sentinel ->
  Forall (no_refresh_of name) (events_of (handle_id_updates ao w)).
Proof.
  intros Hnd Hg. unfold handle_id_updates.
  rewrite (bind_run _ _ _ _ _ _ (perf_counter_run w)), bind_gets.
  assert (Hloop : Forall (no_refresh_of name)
            (events_of (fold_items (handle_id_update ao (now w)) false
                          (last_update (self (clock_read w))) (clock_read w)))).
  { apply emits_fold_items_in. intros b [id last] Hin.
    unfold handle_id_update, set_last_update, tag_redraw_all_views.
    destruct (due (now w) last) eqn:Hd; [|now apply emits_silent].
    assert (Hne : id <> name).
    { intros ->. simpl in Hin. rewrite (In_get _ _ _ Hnd Hin) in Hg.
      injection Hg as ->. now rewrite due_sentinel in Hd. }
    repeat first
      [ apply emits_no_refresh_mesh_data_update; now left
      | apply emits_no_refresh_pushes
      | emits_step ].
    intros ? ?; discriminate. }
  unfold events_of in *. now destruct (fold_items _ _ _ _) as [[r w2] e2].
Qed.

(** On a tick without a change of visibility that starts its handlers with
    the sentinel for [name], no call is a full refresh of [name]. *)
Lemma handlers_no_refresh name c w :
  consistent (self w) ->
  uv_editor_visible (self w) = uv_editor_visibility c ->
  get name (last_update (self w)) = Some sentinel ->
  Forall (no_refresh_of name) (events_of (handlers c (get_active_objects c) w)).
Proof.
  intros (_ & Hnd & _) Hvis Hg.
  pose proof (visibility_unchanged_run c (get_active_objects c) w Hvis) as Hv.
  assert (Hex : exists w' e,
             handle_uv_edtitor_visibility_changed c (get_active_objects c) w =
               (Ok false, w', e) /\
             last_update (self w') = last_update (self w) /\
             Forall (no_refresh_of name) e).
  { destruct (negb (uv_editor_visible (self w)) && enabled (renderer_view3d (self w))).
    - eexists _, _. split; [exact Hv|]. split; [reflexivity|].
      repeat constructor; intros ? ?; discriminate.
    - eexists _, _. split; [exact Hv|]. split; [reflexivity | constructor]. }
  destruct Hex as (w' & e & Hrun & Hlu & He).
  rewrite (handlers_continue _ _ _ _ _ Hrun).
  assert (Hrest : Forall (no_refresh_of name)
            (events_of (due_then_selection c (get_active_objects c) w'))).
  { unfold due_then_selection. rewrite events_of_bind. apply Forall_app. split.
    - apply handle_id_updates_no_refresh; now rewrite Hlu.
    - destruct (result_of _) as [done|]; [|constructor].
      destruct done; [constructor|].
      apply emits_bind; [apply emits_no_refresh_selection|].
      intros _. now apply emits_silent. }
  unfold events_of in *.
  destruct (due_then_selection _ _ _) as [[r w2] e2]. simpl.
  apply Forall_app. now split.
Qed.

Lemma keeps_unobserved_depsgraph_handler k c :
  keeps (fun u => mem k (mesh_data u) = false /\ mem k (last_update u) = true)
        (depsgraph_handler c).
Proof.
  unfold depsgraph_handler, handle_depsgraph_update, set_last_update.
  repeat first
    [ apply keeps_modify; intros u [Hm Hl]; split; simpl; auto;
      rewrite mem_set, Hl; apply orb_true_r
    | keeps_step ].
Qed.

(** C6. A record that is not skipped, for an entity that has no snapshot
    yet, stores a due time after the current time. Further notifications
    may follow. On the next tick that has an active mesh object and finds
    the entity selected, the lazy creation overwrites the stored time with
    the sentinel before the handlers run; the sentinel is never due, so the
    loop of the due timestamps leaves the entry alone, and the entry still
    holds the sentinel when the tick ends: the scheduled refresh is lost.
    Unless the visibility changes on that tick (and every active object is
    refreshed for that reason), the tick makes no full refresh of the
    entity at all. A tick without an active mesh object changes nothing,
    and the reconciliation of a tick that does not find the entity
    selected leaves the stored time as it is. *)
Theorem unobserved_schedule_is_discarded c update id w between c' :
  reachable w ->
  can_skip_depsgraph c update = false ->
  upd_id update = Some id ->
  mem (id_name id) (mesh_data (self w)) = false ->
  active_mesh c' ->
  In (id_name id) (selected_names c') ->
  let name := id_name id in
  let w1 := world_of (handle_depsgraph_update c update w) in
  let w1' := after_all (map DepsgraphHandler between) w1 in
  let w2 := with_self (reconciled c') w1' in
  let w3 := world_of (heartbeat c' w1') in
  (exists t, get name (last_update (self w1)) = Some t /\ (now w < t)%Q) /\
  mem name (mesh_data (self w1')) = false /\
  mem name (last_update (self w1')) = true /\
  reconcile c' w1' = (Ok tt, w2, mode_events c' (self w1')) /\
  get name (last_update (self w2)) = Some sentinel /\
  (forall t, due t sentinel = false) /\
  (forall ao t b w', handle_id_update ao t b (name, sentinel) w' = (Ok b, w', [])) /\
  heartbeat c' w1' =
    (let '(r, w', e) := handlers c' (get_active_objects c') w2 in
     (r, w', MousePosition :: mode_events c' (self w1') ++ e)) /\
  get name (last_update (self w3)) = Some sentinel /\
  (uv_editor_visible (self w1') = uv_editor_visibility c' ->
   Forall (no_refresh_of name) (events_of (heartbeat c' w1'))) /\
  (forall c0, ~ active_mesh c0 -> heartbeat c0 w1' = (Ok tt, w1', [MousePosition])) /\
  (forall c0, ~ In name (selected_names c0) ->
     get name (last_update (reconciled c0 (self w1'))) =
     get name (last_update (self w1'))).
Proof.
  intros Hr Hs Hid Hm Ham Hsel name w1 w1' w2 w3.
  pose proof (reachable_consistent w Hr) as Hc.
  assert (Hc1 : consistent (self w1)).
  { now apply keeps_handle_depsgraph_update. }
  destruct (scheduled_update_run c update id w Hs Hid) as (lu & delay & Hrun & Hdelay & Hlu).
  assert (Hw1 : w1 = with_self (with_last_update lu) (clock_read w)).
  { unfold w1. now rewrite Hrun. }
  assert (Hg1 : get name (last_update (self w1)) = Some (now w + delay)%Q).
  { rewrite Hw1. simpl. rewrite Hlu. unfold name. now rewrite String.eqb_refl. }
  assert (Hsched : exists t, get name (last_update (self w1)) = Some t /\ (now w < t)%Q).
  { exists (now w + delay)%Q. split; [exact Hg1|].
    apply Qle_lt_trans with (now w + 0)%Q.
    - rewrite Qplus_0_r. apply Qle_refl.
    - apply Qplus_lt_r. now destruct Hdelay as [-> | ->]. }
  assert (Hc1' : consistent (self w1')).
  { apply after_all_keeps; [|exact Hc1]. intros a _. apply keeps_call. }
  assert (Hun : mem name (mesh_data (self w1')) = false /\
                mem name (last_update (self w1')) = true).
  { apply after_all_keeps.
    - intros a Ha. apply in_map_iff in Ha. destruct Ha as [c0 [<- _]].
      apply keeps_unobserved_depsgraph_handler.
    - split; [rewrite Hw1; exact Hm | apply mem_get; eauto]. }
  destruct Hun as [Hm1 Hl1].
  assert (Hreset : get name (last_update (self w2)) = Some sentinel).
  { unfold w2. simpl. rewrite reconciled_get_last_update, Hm1.
    apply active_objects_mem in Hsel. fold name in Hsel. now rewrite Hsel. }
  assert (Hhb : heartbeat c' w1' =
    (let '(r, w', e) := handlers c' (get_active_objects c') w2 in
     (r, w', MousePosition :: mode_events c' (self w1') ++ e))).
  { apply (heartbeat_run c' w1' Hc1' Ham). }
  split; [exact Hsched|]. split; [exact Hm1|]. split; [exact Hl1|].
  split; [now apply reconcile_run|]. split; [exact Hreset|].
  split; [exact due_sentinel|].
  split; [intros ao t b w'; apply handle_id_update_not_due, due_sentinel|].
  split; [exact Hhb|]. split; [|split; [|split]].
  - unfold w3. rewrite Hhb.
    pose proof (keeps_cleared_handlers name c' (get_active_objects c') w2 Hreset) as Hend.
    unfold world_of in *.
    now destruct (handlers c' (get_active_objects c') w2) as [[r w'] e].
  - intros Hvis. rewrite Hhb.
    assert (Hquiet : Forall (no_refresh_of name)
              (events_of (handlers c' (get_active_objects c') w2))).
    { apply handlers_no_refresh; [|  | exact Hreset].
      - now apply reconciled_consistent.
      - unfold w2. simpl. now rewrite reconciled_uv_editor_visible. }
    unfold events_of in *.
    destruct (handlers c' (get_active_objects c') w2) as [[r w'] e]. simpl.
    constructor; [intros ? ?; discriminate|].
    apply Forall_app. split; [|exact Hquiet].
    unfold mode_events. destruct (negb _); repeat constructor; intros ? ?; discriminate.
  - intros c0 Hidle. now apply heartbeat_idle.
  - intros c0 Hnsel. rewrite reconciled_get_last_update, Hm1.
    destruct (mem name (get_active_objects c0)) eqn:E; [|reflexivity].
    apply active_objects_mem in E. contradiction.
Qed.

End Unobserved.

(** ** The keys of the two dictionaries *)

Section KeySets.
Context `{Collaborators}.

(** C1, as the code has it. In every reachable state an identity with a
    snapshot has a timestamp entry; the converse can fail, because the
    depsgraph handler creates the timestamp entry of a selected mesh that
    no tick has seen yet. [free] removes every identity that has a snapshot
    and is no longer selected from both dictionaries and leaves the other
    entries of both alone; after a tick with an active mesh object the
    identities with a snapshot are the selected ones. *)
Theorem snapshots_have_timestamps w :
  reachable w ->
  (forall id, mem id (mesh_data (self w)) = true ->
              mem id (last_update (self w)) = true) /\
  (forall c,
     let ao := get_active_objects c in
     let w' := world_of (free c w) in
     result_of (free c w) = Ok tt /\
     (forall id, mem id (mesh_data (self w)) = true -> mem id ao = false ->
                 mem id (mesh_data (self w')) = false /\
                 mem id (last_update (self w')) = false) /\
     (forall id, mem id (mesh_data (self w)) = false \/ mem id ao = true ->
                 get id (mesh_data (self w')) = get id (mesh_data (self w)) /\
                 get id (last_update (self w')) = get id (last_update (self w)))) /\
  (forall c, active_mesh c ->
     let w' := after (Heartbeat c) w in
     forall id, mem id (mesh_data (self w')) = mem id (get_active_objects c)).
Proof.
  intros Hr. pose proof (reachable_consistent w Hr) as Hc.
  split; [apply Hc|]. split.
  - intros c ao w'. unfold w'. rewrite (free_run c w Hc).
    unfold result_of, world_of. simpl. split; [reflexivity|]. split.
    + intros id Hm Ha. rewrite !mem_del_all, obsolete_spec. fold ao.
      now rewrite Hm, Ha.
    + intros id Hid. rewrite !get_del_all, obsolete_spec. fold ao.
      destruct Hid as [-> | ->]; [now split|].
      rewrite andb_false_r. now split.
  - intros c Ham w' id. unfold w', after. simpl call.
    now destruct (heartbeat_keys c w Hc Ham) as [-> _].
Qed.

End KeySets.

(** ** The tick that processes due timestamps *)

Section DueTick.
Context `{Collaborators}.

Lemma due_events_split md ao t (lu : dict Time) id last :
  In (id, last) lu -> due t last = true ->
  exists before after,
    due_events md ao t lu = before ++ refresh_events_of md ao id ++ after.
Proof.
  intros Hin Hd. apply in_split in Hin. destruct Hin as (l1 & l2 & ->).
  exists (due_events md ao t l1), (due_events md ao t l2).
  unfold due_events. rewrite flat_map_app. simpl. now rewrite Hd.
Qed.

(** On a tick with an active mesh object and no change of visibility, when
    every due timestamp belongs to an identity that has a snapshot: the
    due step returns; it clears each due timestamp, refreshes the snapshot
    of its identity (not selection-only), and its calls are, entry by
    entry, the refresh followed by the two pushes and the redraw request
    exactly when the refresh reports a change; the other timestamps are
    kept; and when an entry was due the tick ends with this step, so the
    selection operators are not looked at. *)
Lemma due_timestamps_processed c w :
  reachable w -> active_mesh c ->
  uv_editor_visible (self w) = uv_editor_visibility c ->
  let ao := get_active_objects c in
  let t := now w in
  let w0 := with_self (reconciled c) w in
  let visibility := handle_uv_edtitor_visibility_changed c ao w0 in
  let w1 := world_of visibility in
  let lu := last_update (self w1) in
  let md := mesh_data (self w1) in
  let any_due := existsb (fun item => due t (snd item)) lu in
  (forall id last, In (id, last) lu -> due t last = true -> mem id md = true) ->
  exists w2,
    handle_id_updates ao w1 = (Ok any_due, w2, due_events md ao t lu) /\
    (forall id last, get id lu = Some last -> due t last = true ->
       get id (last_update (self w2)) = Some sentinel /\
       exists data obj,
         get id md = Some data /\ get id ao = Some obj /\
         get id (mesh_data (self w2)) = Some (fst (mesh_update data obj false)) /\
         exists before after,
           due_events md ao t lu = before ++ refresh_events id obj data ++ after) /\
    (forall id last, get id lu = Some last -> due t last = false ->
       get id (last_update (self w2)) = Some last) /\
    (any_due = true ->
       heartbeat c w =
         (Ok tt, w2,
          MousePosition :: mode_events c (self w) ++ events_of visibility ++
          due_events md ao t lu) /\
       op (self w2) = op (self w)).
Proof.
  intros Hr Ham Hvis ao t w0 visibility w1 lu md any_due Hsnap.
  pose proof (reachable_consistent w Hr) as Hc.
  assert (Hc0 : consistent (self w0)) by now apply reconciled_consistent.
  assert (Hvis0 : uv_editor_visible (self w0) = uv_editor_visibility c).
  { unfold w0. simpl. now rewrite reconciled_uv_editor_visible. }
  pose proof (visibility_unchanged_run c ao w0 Hvis0) as Hv.
  (* the visibility handler touches neither dictionary nor the clock *)
  assert (Hw1 : visibility = (Ok false, w1, events_of visibility) /\
                last_update (self w1) = last_update (self w0) /\
                mesh_data (self w1) = mesh_data (self w0) /\
                op (self w1) = op (self w0) /\
                now w1 = now w).
  { unfold w1, visibility. rewrite Hv.
    destruct (negb (uv_editor_visible (self w0)) && enabled (renderer_view3d (self w0)));
      now repeat split. }
  destruct Hw1 as (Hvrun & Hlu1 & Hmd1 & Hop1 & Hnow1).
  assert (Hc1 : consistent (self w1)).
  { unfold consistent. rewrite Hlu1, Hmd1. exact Hc0. }
  assert (Hkeys : forall id, mem id md = mem id ao).
  { intros id. unfold md. rewrite Hmd1. apply reconciled_mem_mesh_data. }
  destruct (due_loop_run ao t lu (clock_read w1) false) as (f & Hrun & Hop & _ & Hlu & Hmd).
  { apply Hc1. }
  { intros id last Hin Hd. simpl. fold md.
    pose proof (Hsnap id last Hin Hd) as Hm. split; [exact Hm|].
    now rewrite <- Hkeys. }
  simpl orb in Hrun. simpl self in Hrun, Hop, Hlu, Hmd.
  fold md in Hrun, Hmd. fold lu in Hlu. fold any_due in Hrun.
  assert (Hids : handle_id_updates ao w1 =
                 (Ok any_due, with_self f (clock_read w1), due_events md ao t lu)).
  { unfold handle_id_updates.
    rewrite (bind_run _ _ _ _ _ _ (perf_counter_run w1)), bind_gets.
    rewrite Hnow1. fold t. simpl self. fold lu. now rewrite Hrun. }
  exists (with_self f (clock_read w1)).
  split; [exact Hids|]. split; [|split].
  - intros id last Hg Hd. simpl self. split.
    + now rewrite Hlu, Hg, Hd.
    + assert (Hin : In (id, last) lu) by now apply get_In.
      pose proof (Hsnap id last Hin Hd) as Hm.
      assert (Ha : mem id ao = true) by now rewrite <- Hkeys.
      apply mem_get in Hm, Ha.
      destruct Hm as [data Hdata]. destruct Ha as [obj Hobj].
      exists data, obj. split; [exact Hdata|]. split; [exact Hobj|]. split.
      * now rewrite Hmd, Hg, Hdata, Hobj, Hd.
      * destruct (due_events_split md ao t lu id last Hin Hd) as (l1 & l2 & Hsplit).
        exists l1, l2. rewrite Hsplit. unfold refresh_events_of.
        now rewrite Hdata, Hobj.
  - intros id last Hg Hd. simpl self. now rewrite Hlu, Hg, Hd.
  - intros Hany. split.
    + rewrite (heartbeat_run c w Hc Ham). fold ao w0.
      rewrite (handlers_continue c ao w0 w1 (events_of visibility) Hvrun).
      unfold due_then_selection. rewrite (bind_run _ _ _ _ _ _ Hids), Hany.
      simpl. now rewrite app_nil_r.
    + simpl self. rewrite Hop, Hop1. unfold w0. simpl. apply reconciled_op.
Qed.

End DueTick.

(** * Concrete runs *)

Section ConcreteRuns.
Import Scenario.

Lemma reachable_world0_after calls : reachable (after_all calls world0).
Proof. apply reachable_after_all, reachable_initial. Qed.

(** C1, as stated, fails: after the notification that starts the timer and
    one that schedules the selected cube, before any tick, the cube has a
    timestamp entry and no snapshot. *)
Lemma timestamp_without_snapshot :
  reachable cube_scheduled /\
  last_update (self cube_scheduled) = [("Cube", 1 # 100)] /\
  mesh_data (self cube_scheduled) = [] /\
  mem "Cube" (last_update (self cube_scheduled)) = true /\
  mem "Cube" (mesh_data (self cube_scheduled)) = false.
Proof.
  split; [apply reachable_world0_after|]. now vm_compute.
Qed.

Lemma snapshots_have_timestamps_witness :
  let w := after (Heartbeat both_selected) cube_scheduled in
  let w' := world_of (free watching_cube w) in
  tracked "Sphere" (self w) /\
  result_of (free watching_cube w) = Ok tt /\
  mem "Sphere" (mesh_data (self w')) = false /\
  mem "Sphere" (last_update (self w')) = false /\
  get "Cube" (last_update (self w')) = get "Cube" (last_update (self w)).
Proof.
  destruct (snapshots_have_timestamps (after (Heartbeat both_selected) cube_scheduled))
    as (_ & Hfree & _).
  - apply reachable_after, reachable_after_all, reachable_initial.
  - destruct (Hfree watching_cube) as (Hok & Hgone & Hkept).
    destruct (Hgone "Sphere") as [Hm Hl]; try reflexivity.
    destruct (Hkept "Cube") as [_ Hc]; [right; reflexivity|].
    split; [split; reflexivity|]. split; [exact Hok|].
    split; [exact Hm|]. split; [exact Hl | exact Hc].
Defined.

(** C2 on a run the code can make. In [stranded] the sphere is selected,
    has a snapshot and a timestamp of 1.01 s, and the cube, no longer
    selected, still has the timestamp of 0.01 s that it got before any
    tick saw it. The tick at 2 s has an active mesh object and no change
    of visibility, and both timestamps are set and in the past. The loop
    reaches the cube first, clears its timestamp and raises [KeyError] on
    the missing snapshot: the tick ends there, the timestamp of the sphere
    is not cleared and the sphere is not refreshed. *)
Theorem due_timestamp_stranded_by_orphan :
  let c := sphere_reshaped_in_uv_editor in
  let tick := heartbeat c stranded in
  reachable stranded /\
  active_mesh c /\
  uv_editor_visible (self stranded) = uv_editor_visibility c /\
  last_update (self stranded) = [("Cube", 1 # 100); ("Sphere", 101 # 100)] /\
  mesh_data (self stranded) = [("Sphere", Some 3%nat)] /\
  get "Sphere" (get_active_objects c) = Some sphere_reshaped /\
  now stranded = 2%Q /\
  due (now stranded) (101 # 100) = true /\
  result_of tick = Raise (KeyError "Cube") /\
  events_of tick = [MousePosition] /\
  last_update (self (world_of tick)) = [("Cube", sentinel); ("Sphere", 101 # 100)] /\
  mesh_data (self (world_of tick)) = [("Sphere", Some 3%nat)].
Proof.
  split; [apply reachable_world0_after|].
  split; [exists sphere_reshaped; now split|].
  now vm_compute.
Qed.

(** The nominal run: the tick after the due time of a scheduled, tracked
    cube clears its timestamp, refreshes its snapshot, pushes it to both
    surfaces and requests a redraw. *)
Lemma scheduled_cube_is_refreshed :
  let tick := heartbeat watching_cube cube_tracked_and_scheduled in
  last_update (self cube_tracked_and_scheduled) = [("Cube", 101 # 100)] /\
  mesh_data (self cube_tracked_and_scheduled) = [("Cube", None)] /\
  now cube_tracked_and_scheduled = 2%Q /\
  result_of tick = Ok tt /\
  events_of tick =
    [MousePosition; MeshUpdate "Cube" cube false true;
     RendererUpdate View3d "Cube" (Some 7%nat);
     RendererUpdate UV "Cube" (Some 7%nat);
     TagRedrawAllViews] /\
  last_update (self (world_of tick)) = [("Cube", sentinel)] /\
  mesh_data (self (world_of tick)) = [("Cube", Some 7%nat)].
Proof. now vm_compute. Qed.

Lemma skipped_record_witness :
  described_as_skipped editing_cube cube_moved /\
  handle_depsgraph_update editing_cube cube_moved cube_scheduled =
    (Ok tt, cube_scheduled, []) /\
  last_update (self (world_of (handle_depsgraph_update editing_cube cube_moved
                                 cube_scheduled))) =
  last_update (self cube_scheduled).
Proof.
  assert (Hs : described_as_skipped editing_cube cube_moved).
  { unfold described_as_skipped. simpl. left. reflexivity. }
  split; [exact Hs|].
  apply (skipped_record_leaves_last_update editing_cube cube_moved cube_scheduled Hs).
Defined.

Lemma coalescing_witness :
  let w := cube_pending in
  let w' := world_of (handle_depsgraph_update editing_cube cube_edited w) in
  get "Cube" (last_update (self w)) = Some (200 # 20000) /\
  now w = 1 # 200 /\
  result_of (handle_depsgraph_update editing_cube cube_edited w) = Ok tt /\
  get "Cube" (last_update (self w')) = Some (now w + long_delay)%Q /\
  (now w + short_delay < now w + long_delay)%Q.
Proof.
  split; [reflexivity|]. split; [reflexivity|].
  destruct (coalescing_extends_due_time editing_cube cube_edited cube_id
              cube_pending (200 # 20000)) as (Hr & Hg & Hlt & _);
    try (vm_compute; reflexivity).
  now repeat split.
Defined.

Lemma fresh_identity_witness :
  let w := started in
  let w' := world_of (handle_depsgraph_update editing_cube cube_edited w) in
  get "Cube" (last_update (self w)) = None /\
  result_of (handle_depsgraph_update editing_cube cube_edited w) = Ok tt /\
  get "Cube" (last_update (self w')) = Some (now w + short_delay)%Q /\
  (now w <= now w + short_delay)%Q.
Proof.
  split; [reflexivity|].
  destruct (fresh_identity_is_due_later editing_cube cube_edited cube_id started)
    as (Hr & Hg & Hle & _); try (vm_compute; reflexivity).
  now repeat split.
Defined.

Lemma visibility_transition_witness :
  let w := cube_tracked_and_scheduled in
  get "Cube" (last_update (self w)) = Some (101 # 100) /\
  due 2 (101 # 100) = true /\
  exists w2,
    heartbeat cube_in_uv_editor w =
      (Ok tt, w2,
       [MousePosition; MeshUpdate "Cube" cube false true;
        RendererUpdate View3d "Cube" (Some 7%nat);
        RendererUpdate UV "Cube" (Some 7%nat);
        TagRedrawAllViews]) /\
    perf_reads w2 = perf_reads w /\
    get "Cube" (last_update (self w2)) = Some (101 # 100).
Proof.
  split; [reflexivity|]. split; [reflexivity|].
  destruct (visibility_transition_short_circuits cube_in_uv_editor
              cube_tracked_and_scheduled)
    as (w2 & _ & Hhb & _ & _ & Hreads & _ & Hleft & _).
  - apply reachable_after_all, reachable_initial.
  - exists cube. split; reflexivity.
  - reflexivity.
  - reflexivity.
  - exists w2. split; [exact Hhb|]. split; [exact Hreads|].
    rewrite (Hleft "Cube"); reflexivity.
Defined.

(** C5, as stated, fails: the cube is selected, scheduled for 0.01 s and
    not yet observed by a tick, and that time has passed; on the tick on
    which the UV editor becomes visible the lazy creation overwrites the
    due timestamp with the sentinel, so it is not left set for a later
    tick. *)
Lemma due_timestamp_reset_on_transition :
  let w := cube_scheduled in
  let w' := after (Heartbeat cube_in_uv_editor) w in
  reachable w /\
  active_mesh cube_in_uv_editor /\
  uv_editor_visible (self w) = false /\
  uv_editor_visibility cube_in_uv_editor = true /\
  get "Cube" (last_update (self w)) = Some (1 # 100) /\
  due (now w) (1 # 100) = true /\
  result_of (heartbeat cube_in_uv_editor w) = Ok tt /\
  perf_reads w' = perf_reads w /\
  get "Cube" (last_update (self w')) = Some sentinel.
Proof.
  intros w w'. split; [apply reachable_world0_after|].
  split; [exists cube; split; reflexivity|].
  now vm_compute.
Qed.

Lemma unobserved_schedule_witness :
  let w1 := world_of (handle_depsgraph_update editing_cube cube_edited started) in
  let w1' := after_all (map DepsgraphHandler [editing_cube]) w1 in
  get "Cube" (last_update (self w1)) = Some (1 # 100) /\
  get "Cube" (last_update (self w1')) = Some (101 # 100) /\
  get "Cube" (last_update (self (with_self (reconciled watching_cube) w1'))) =
    Some sentinel /\
  get "Cube" (last_update (self (world_of (heartbeat watching_cube w1')))) =
    Some sentinel.
Proof.
  split; [reflexivity|]. split; [reflexivity|].
  destruct (unobserved_schedule_is_discarded editing_cube cube_edited cube_id
              started [editing_cube] watching_cube)
    as (_ & _ & _ & _ & Hreset & _ & _ & _ & Hend & _).
  - apply (reachable_after (DepsgraphHandler editing_cube)), reachable_initial.
  - reflexivity.
  - reflexivity.
  - reflexivity.
  - exists cube. split; reflexivity.
  - simpl. left. reflexivity.
  - split; [exact Hreset | exact Hend].
Defined.

(** C6, as stated, fails: the cube is scheduled for 0.01 s before any tick
    has observed it. A next tick without an active mesh object leaves the
    timestamp as it is. A next tick that finds only the sphere selected
    does not overwrite it in the lazy creation either: the loop of the due
    timestamps reaches the entry, clears it and raises [KeyError]. *)
Lemma unobserved_schedule_not_overwritten :
  let w := cube_scheduled in
  reachable w /\
  mem "Cube" (mesh_data (self w)) = false /\
  get "Cube" (last_update (self w)) = Some (1 # 100) /\
  ~ active_mesh lamp_active /\
  get "Cube" (last_update (self (after (Heartbeat lamp_active) w))) = Some (1 # 100) /\
  active_mesh watching_sphere /\
  get "Cube" (last_update (reconciled watching_sphere (self w))) = Some (1 # 100) /\
  due (now w) (1 # 100) = true /\
  result_of (heartbeat watching_sphere w) = Raise (KeyError "Cube").
Proof.
  intros w. split; [apply reachable_world0_after|].
  split; [reflexivity|]. split; [reflexivity|]. split.
  { intros (obj & Ho & Ht). injection Ho as <-. discriminate. }
  split; [reflexivity|].
  split; [exists sphere; split; reflexivity|].
  now vm_compute.
Qed.


Section Enabling.
#[local] Existing Instance EnablingCollaborators.


End Enabling.

End ConcreteRuns.

(** * Further properties of the Updater *)

(** ** The depsgraph handler *)

Section Scheduling.
Context `{Collaborators}.

Lemma rescheduled_id w : rescheduled (last_update (self w)) 0%nat w = w.
Proof. now destruct w as [[] ? ? ?]. Qed.

Lemma rescheduled_twice lu1 n1 lu2 n2 w :
  rescheduled lu2 n2 (rescheduled lu1 n1 w) = rescheduled lu2 (n2 + n1)%nat w.
Proof. unfold rescheduled. simpl. now rewrite Nat.add_assoc. Qed.

(** One record, skipped or not: the loop body returns, makes no call, and
    changes nothing but the timestamps and the number of clock readings;
    it removes no timestamp entry. *)
Lemma handle_depsgraph_update_run c update w :
  exists lu n,
    handle_depsgraph_update c update w = (Ok tt, rescheduled lu n w, []) /\
    forall k, mem k (last_update (self w)) = true -> mem k lu = true.
Proof.
  destruct (can_skip_depsgraph c update) eqn:Hs.
  - exists (last_update (self w)), 0%nat. split; [|auto].
    unfold handle_depsgraph_update. now rewrite Hs, rescheduled_id.
  - assert (Hid : exists id, upd_id update = Some id).
    { unfold can_skip_depsgraph in Hs.
      destruct (upd_id update) as [id|]; [now exists id | discriminate]. }
    destruct Hid as [id Hid].
    destruct (scheduled_update_run c update id w Hs Hid) as (lu & delay & Hrun & _ & Hlu).
    exists lu, 1%nat. split; [now rewrite Hrun|].
    intros k Hk. unfold mem in *. rewrite Hlu.
    now destruct (id_name id =? k).
Qed.

Lemma depsgraph_loop_run c updates w :
  exists lu n,
    for_each updates (handle_depsgraph_update c) w = (Ok tt, rescheduled lu n w, []) /\
    forall k, mem k (last_update (self w)) = true -> mem k lu = true.
Proof.
  revert w. induction updates as [|update r IH]; intros w; simpl.
  - exists (last_update (self w)), 0%nat. split; [now rewrite rescheduled_id | auto].
  - destruct (handle_depsgraph_update_run c update w) as (lu1 & n1 & Hrun1 & Hk1).
    destruct (IH (rescheduled lu1 n1 w)) as (lu2 & n2 & Hrun2 & Hk2).
    exists lu2, (n2 + n1)%nat. split.
    + rewrite (bind_run _ _ _ _ _ _ Hrun1), Hrun2. now rewrite rescheduled_twice.
    + intros k Hk. apply Hk2. simpl. now apply Hk1.
Qed.

(** X2. [depsgraph_handler] never raises and defers all work: in every
    state it returns having changed nothing but the timer flag, the
    timestamps and the number of clock readings (no snapshot, no renderer,
    no registration), it removes no timestamp entry, and its only call is
    the start of the timer, made exactly when the timer was not running;
    the records of that starting notification are dropped. *)
Theorem depsgraph_handler_only_schedules c w :
  exists lu n,
    depsgraph_handler c w =
      (Ok tt, with_self (with_timer_running true) (rescheduled lu n w),
       if timer_running (self w) then [] else [Timer]) /\
    (forall k, mem k (last_update (self w)) = true -> mem k lu = true) /\
    (if timer_running (self w) then True
     else lu = last_update (self w) /\ n = 0%nat).
Proof.
  unfold depsgraph_handler.
  destruct (timer_running (self w)) eqn:Hrun.
  - destruct (depsgraph_loop_run c (depsgraph_updates c) w) as (lu & n & Hloop & Hk).
    exists lu, n. split; [|split; [exact Hk | exact I]].
    rewrite bind_gets, Hrun. change (negb true) with false. cbv iota.
    rewrite Hloop.
    f_equal. f_equal. destruct w as [[] ? ? ?]. simpl in Hrun. now subst.
  - exists (last_update (self w)), 0%nat. split; [|split; [auto | now split]].
    rewrite bind_gets, Hrun, rescheduled_id. reflexivity.
Qed.

(** X3. A record that is not skipped, for an identity whose stored
    timestamp is the sentinel or is not in the future any more, stores
    [t + 0.01]: a timestamp that is already due but was not processed yet
    is replaced by a later one. *)
Theorem expired_entry_is_rescheduled c update id w last :
  can_skip_depsgraph c update = false ->
  upd_id update = Some id ->
  get (id_name id) (last_update (self w)) = Some last ->
  ~ ((now w < last)%Q /\ (0 < last)%Q) ->
  let w' := world_of (handle_depsgraph_update c update w) in
  result_of (handle_depsgraph_update c update w) = Ok tt /\
  get (id_name id) (last_update (self w')) = Some (now w + short_delay)%Q /\
  (now w < now w + short_delay)%Q /\
  (forall k, k <> id_name id ->
             get k (last_update (self w')) = get k (last_update (self w))) /\
  mesh_data (self w') = mesh_data (self w).
Proof.
  intros Hs Hid Hg Hnot w'. subst w'.
  assert (Hcond : Qltb (now w) last && Qltb 0 last = false).
  { destruct (Qltb (now w) last) eqn:E1; [|reflexivity].
    destruct (Qltb 0 last) eqn:E2; [|reflexivity].
    exfalso. apply Hnot. split; now apply Qltb_lt. }
  assert (Hrun : handle_depsgraph_update c update w =
                 (Ok tt,
                  with_self (fun u => with_last_update
                               (set (id_name id) (now w + short_delay)%Q (last_update u)) u)
                            (clock_read w),
                  [])).
  { unfold handle_depsgraph_update. rewrite Hs, Hid, bind_gets.
    assert (Hm : mem (id_name id) (last_update (self w)) = true).
    { apply mem_get. now exists last. }
    rewrite Hm. simpl negb. cbv iota. rewrite bind_ret.
    rewrite (bind_run _ _ _ _ _ _ (perf_counter_run w)).
    rewrite bind_gets. unfold subscript. simpl self. rewrite Hg, bind_ret.
    now rewrite Hcond. }
  rewrite Hrun. unfold result_of, world_of; simpl.
  split; [reflexivity|]. split; [apply get_set_same|]. split.
  - apply Qle_lt_trans with (now w + 0)%Q.
    + rewrite Qplus_0_r. apply Qle_refl.
    + apply Qplus_lt_r. reflexivity.
  - split; [|reflexivity]. intros k Hk. apply get_set_other. congruence.
Qed.

(** X4. A record is processed exactly when it names an entity, is a
    geometry update, the entity has the kind mesh, and an object of the
    entity's name is selected; the active object plays no part. *)
Theorem can_skip_depsgraph_false_iff c update :
  can_skip_depsgraph c update = false <->
  exists id,
    upd_id update = Some id /\
    is_updated_geometry update = true /\
    id_type id = Some "MESH" /\
    In (id_name id) (selected_names c).
Proof.
  unfold can_skip_depsgraph. split.
  - destruct (upd_id update) as [id|]; [|discriminate].
    destruct (is_updated_geometry update); [|discriminate]. simpl.
    destruct (id_type id) as [type|] eqn:Ht; [|discriminate].
    destruct (String.eqb_spec type "MESH") as [->|Hne]; [|discriminate]. simpl.
    intros Hex. apply negb_false_iff, existsb_exists in Hex.
    destruct Hex as [name [Hin Heq]]. apply String.eqb_eq in Heq. subst name.
    exists id. split; [reflexivity|]. split; [reflexivity|]. split; [exact Ht|].
    now apply active_objects_mem, mem_In.
  - intros (id & -> & -> & -> & Hsel). simpl.
    apply negb_false_iff, existsb_exists. exists (id_name id).
    split; [|apply String.eqb_refl].
    now apply mem_In, active_objects_mem.
Qed.

End Scheduling.

(** ** Properties of the world that a computation keeps *)

Section WorldFacts.
Context `{Collaborators}.

Lemma world_keeps_ret P {A} (a : A) : world_keeps P (ret a).
Proof. now intros w. Qed.

Lemma world_keeps_raise P {A} x : world_keeps P (@raise _ A x).
Proof. now intros w. Qed.

Lemma world_keeps_emit P e : world_keeps P (emit e).
Proof. now intros w. Qed.

Lemma world_keeps_gets P {A} (f : Updater -> A) : world_keeps P (gets f).
Proof. now intros w. Qed.

Lemma world_keeps_subscript P {V} (d : dict V) k : world_keeps P (subscript d k).
Proof. intros w. unfold subscript. now destruct (get k d). Qed.

Lemma world_keeps_modify (P : World -> Prop) f :
  (forall w, P w -> P (with_self f w)) -> world_keeps P (modify f).
Proof. intros Hf w. apply Hf. Qed.

Lemma world_keeps_bind P {A B} (m : M A) (k : A -> M B) :
  world_keeps P m -> (forall a, world_keeps P (k a)) -> world_keeps P (bind m k).
Proof.
  intros Hm Hk w Hw. rewrite world_of_bind.
  destruct (result_of (m w)) as [a|x].
  - apply Hk. now apply Hm.
  - now apply Hm.
Qed.

Lemma world_keeps_if P {A} (b : bool) (m1 m2 : M A) :
  world_keeps P m1 -> world_keeps P m2 -> world_keeps P (if b then m1 else m2).
Proof. now destruct b. Qed.

Lemma world_keeps_for_each P {X} (l : list X) (body : X -> M unit) :
  (forall x, world_keeps P (body x)) -> world_keeps P (for_each l body).
Proof.
  intros Hb. induction l as [|x r IH]; simpl.
  - apply world_keeps_ret.
  - apply world_keeps_bind; [apply Hb | now intros _].
Qed.

Lemma world_keeps_fold_items P {X} (body : bool -> X -> M bool) (l : list X) :
  (forall b x, world_keeps P (body b x)) ->
  forall b, world_keeps P (fold_items body b l).
Proof.
  intros Hb. induction l as [|x r IH]; intros b; simpl.
  - apply world_keeps_ret.
  - apply world_keeps_bind; [apply Hb | intros b'; apply IH].
Qed.

Lemma world_keeps_try_pass P (m : M unit) :
  world_keeps P m -> world_keeps P (try_pass m).
Proof.
  intros Hm w Hw. specialize (Hm w Hw). unfold try_pass.
  now destruct (m w) as [[[a|x] w1] e1].
Qed.

Lemma same_host_with_self w0 f w : same_host w0 w -> same_host w0 (with_self f w).
Proof. now intros Hw. Qed.

End WorldFacts.

(** Splits a computation that works on the Updater only. *)
Ltac world_step :=
  match goal with
  | |- world_keeps _ (bind _ _) => apply world_keeps_bind; [|intros ?]
  | |- world_keeps _ (if _ then _ else _) => apply world_keeps_if
  | |- world_keeps _ (for_each _ _) => apply world_keeps_for_each; intros ?
  | |- world_keeps _ (fold_items _ _ _) => apply world_keeps_fold_items; intros ? ?
  | |- world_keeps _ (try_pass _) => apply world_keeps_try_pass
  | |- world_keeps _ (match ?x with _ => _ end) => destruct x
  | |- world_keeps _ (let '(_, _) := ?x in _) => destruct x
  | |- world_keeps _ (ret _) => apply world_keeps_ret
  | |- world_keeps _ (raise _) => apply world_keeps_raise
  | |- world_keeps _ (emit _) => apply world_keeps_emit
  | |- world_keeps _ (gets _) => apply world_keeps_gets
  | |- world_keeps _ (subscript _ _) => apply world_keeps_subscript
  | |- world_keeps (same_host _) (modify _) =>
      apply world_keeps_modify; intros ?; apply same_host_with_self
  end.

(** ** The selected objects *)

Section Selection.

Local Abbreviation add_selected :=
  (fun (active_objects : dict Object) (selected_obj : Object) =>
     set (obj_name selected_obj) selected_obj active_objects).

Lemma fold_set_get_origin (l : list Object) (d : dict Object) k o :
  get k (fold_left add_selected l d) = Some o ->
  (obj_name o = k /\ In o l) \/ get k d = Some o.
Proof.
  revert d. induction l as [|o' r IH]; intros d; simpl.
  - now right.
  - intros Hg. destruct (IH _ Hg) as [[Hn Hin] | Hd].
    + left. split; [assumption | now right].
    + rewrite get_set in Hd.
      destruct (String.eqb_spec (obj_name o') k) as [<-|Hne].
      * injection Hd as <-. left. split; [reflexivity | now left].
      * now right.
Qed.

Lemma fold_set_get_other (l : list Object) (d : dict Object) k :
  ~ In k (map obj_name l) -> get k (fold_left add_selected l d) = get k d.
Proof.
  revert d. induction l as [|o r IH]; intros d Hk; simpl.
  - reflexivity.
  - simpl in Hk. rewrite IH by tauto. apply get_set_other. tauto.
Qed.

(** X10. [get_active_objects] maps exactly the names of the selected
    objects, each once, to a selected object of that name; when several
    selected objects share a name, the last one in the selection is the
    one kept. *)
Theorem active_objects_of_selection c :
  let ao := get_active_objects c in
  NoDup (keys ao) /\
  (forall k, In k (keys ao) <-> In k (selected_names c)) /\
  (forall k o, get k ao = Some o -> obj_name o = k /\ In o (selected_objects c)) /\
  (forall before o after,
      selected_objects c = before ++ o :: after ->
      ~ In (obj_name o) (map obj_name after) ->
      get (obj_name o) ao = Some o).
Proof.
  intros ao. split; [apply active_objects_NoDup|]. split; [|split].
  - intros k. rewrite <- mem_In. apply active_objects_mem.
  - intros k o Hg. unfold ao, get_active_objects in Hg.
    destruct (fold_set_get_origin _ _ _ _ Hg) as [Hin | Hnil]; [exact Hin|].
    discriminate.
  - intros before o after Hsel Hlast. unfold ao, get_active_objects.
    rewrite Hsel, fold_left_app. simpl.
    rewrite (fold_set_get_other after _ _ Hlast). apply get_set_same.
Qed.

End Selection.

(** ** Registration of the depsgraph handler *)

Section Registration.
Context `{Collaborators}.

Lemma after_starts n w :
  after_all (repeat Start n) w =
  {| self := self w; depsgraph_update_post := (n + depsgraph_update_post w)%nat;
     perf_clock := perf_clock w; perf_reads := perf_reads w |}.
Proof.
  revert w. induction n as [|n IH]; intros w; simpl.
  - now destruct w.
  - rewrite IH. unfold after. simpl. now rewrite Nat.add_succ_r.
Qed.

(** X11. [start] registers the handler once more each time it is called
    and changes nothing else; [stop] removes one registration only: after
    [n] calls of [start] and one [stop] the handler is still registered
    [n - 1] times (plus what it was before), and [stop] returned. *)
Theorem start_registers_once_more n w :
  let w' := after_all (repeat Start n) w in
  self w' = self w /\
  depsgraph_update_post w' = (n + depsgraph_update_post w)%nat /\
  result_of (stop w') = Ok tt /\
  depsgraph_update_post (after Stop w') = pred (n + depsgraph_update_post w) /\
  self (after Stop w') = stopped (self w).
Proof.
  intros w'. unfold w'. rewrite after_starts.
  split; [reflexivity|]. split; [reflexivity|].
  unfold after. simpl call.
  destruct (n + depsgraph_update_post w)%nat; now repeat split.
Qed.

End Registration.

(** ** The selection operators *)

Section Operators.
Context `{Collaborators}.

Lemma keeps_op_refreshes (o : option Operator) :
  (forall id obj selection_only,
      keeps (fun u => op u = o) (mesh_data_update id obj selection_only)) /\
  (forall id, keeps (fun u => op u = o) (renderer_view3d_update id)) /\
  (forall id, keeps (fun u => op u = o) (renderer_uv_update id)).
Proof.
  unfold mesh_data_update, set_mesh_data, renderer_view3d_update, renderer_uv_update.
  repeat split; intros; repeat keeps_step; apply keeps_modify; now intros u.
Qed.

Lemma selection_handler_outcome c ao w :
  match last_operator (operators c) with
  | None => world_of (handle_selection_changed_ops c ao w) = w
  | Some o =>
      (op_differs o (op (self w)) = false /\
       world_of (handle_selection_changed_ops c ao w) = w) \/
      op (self (world_of (handle_selection_changed_ops c ao w))) = Some o
  end.
Proof.
  unfold handle_selection_changed_ops.
  destruct (last_operator (operators c)) as [o|]; [|reflexivity].
  rewrite bind_gets.
  destruct (op_differs o (op (self w))) eqn:Hd; [right | now left].
  rewrite bind_modify. cbv beta.
  match goal with |- op (self (world_of (?m ?w0))) = _ =>
    apply (fun Hk : keeps (fun u => op u = Some o) m => Hk w0) end; [|reflexivity].
  repeat first [ apply keeps_op_refreshes | keeps_step ].
Qed.

(** X5. A selection operator is handled once: whatever the first call of
    [handle_selection_changed_ops] did, also when it raised, a second call
    with the same operator list answers [False] and does nothing. *)
Theorem selection_handler_fires_once c ao ao' w :
  let first := handle_selection_changed_ops c ao w in
  handle_selection_changed_ops c ao' (world_of first) =
  (Ok false, world_of first, []).
Proof.
  intros first. unfold first. clear first.
  pose proof (selection_handler_outcome c ao w) as Hout.
  remember (world_of (handle_selection_changed_ops c ao w)) as w1 eqn:Hw1.
  clear Hw1. unfold handle_selection_changed_ops.
  destruct (last_operator (operators c)) as [o|]; [|reflexivity].
  rewrite bind_gets. destruct Hout as [[Hd ->] | Hop].
  - now rewrite Hd.
  - rewrite Hop. simpl. now rewrite Nat.eqb_refl.
Qed.

Lemma emits_selection_refreshes :
  (forall id obj, emits selection_call (mesh_data_update id obj true)) /\
  (forall id, emits selection_call (renderer_view3d_update id)) /\
  (forall id, emits selection_call (renderer_uv_update id)).
Proof.
  unfold mesh_data_update, set_mesh_data, renderer_view3d_update, renderer_uv_update.
  repeat split; intros; repeat emits_step; simpl; auto.
Qed.

Lemma keeps_selection_frame (P : Updater -> Prop) c ao :
  (forall u md, P u -> P (with_mesh_data md u)) ->
  (forall u r, P u -> P (with_renderer_view3d r u)) ->
  (forall u r, P u -> P (with_renderer_uv r u)) ->
  (forall u o, P u -> P (with_op o u)) ->
  keeps P (handle_selection_changed_ops c ao).
Proof.
  intros Hmd H3 Huv Hop.
  unfold handle_selection_changed_ops, mesh_data_update, set_mesh_data,
    renderer_view3d_update, renderer_uv_update.
  repeat first [ apply keeps_modify; now auto | keeps_step ].
Qed.

(** X6. [handle_selection_changed_ops] makes only selection-only refreshes
    and pushes to the surfaces: it never requests a redraw, never disables
    a surface, never makes a full refresh; and it leaves the timestamps,
    the visibility flag, the timer flag, the registrations and the clock
    as they are, whether it returns or raises. *)
Theorem selection_handler_calls c ao w :
  let run := handle_selection_changed_ops c ao w in
  Forall selection_call (events_of run) /\
  last_update (self (world_of run)) = last_update (self w) /\
  uv_editor_visible (self (world_of run)) = uv_editor_visible (self w) /\
  timer_running (self (world_of run)) = timer_running (self w) /\
  same_host w (world_of run).
Proof.
  intros run. unfold run. split; [|split; [|split; [|split]]].
  - assert (He : emits selection_call (handle_selection_changed_ops c ao)).
    { unfold handle_selection_changed_ops.
      repeat first [ apply emits_selection_refreshes | emits_step ]. }
    apply He.
  - apply (keeps_selection_frame (fun u => last_update u = last_update (self w)));
      now intros.
  - apply (keeps_selection_frame
             (fun u => uv_editor_visible u = uv_editor_visible (self w)));
      now intros.
  - apply (keeps_selection_frame (fun u => timer_running u = timer_running (self w)));
      now intros.
  - assert (Hk : world_keeps (same_host w) (handle_selection_changed_ops c ao)).
    { unfold handle_selection_changed_ops, mesh_data_update, set_mesh_data,
        renderer_view3d_update, renderer_uv_update.
      repeat world_step. }
    apply Hk. now repeat split.
Qed.

End Operators.

(** ** The tick on which a selection operator is seen *)

Section SelectionTick.
Context `{Collaborators}.

Lemma select_and_push_run id obj w data :
  get id (mesh_data (self w)) = Some data ->
  (changed <- mesh_data_update id obj true ;;
   if changed then renderer_view3d_update id ;; renderer_uv_update id
   else ret tt) w =
  (Ok tt, with_self (selected_and_pushed id obj data) w, select_events id obj data).
Proof.
  intros Hg. rewrite (bind_Ok _ _ _ _ _ _ (mesh_data_update_run id obj true w data Hg)).
  unfold select_events, selected_and_pushed.
  destruct (mesh_update data obj true) as [data' changed]. simpl.
  destruct changed.
  - assert (Hg' : get id (mesh_data (self (with_self (refreshed id data') w))) = Some data').
    { simpl. apply get_set_same. }
    rewrite (bind_run _ _ _ _ _ _ (renderer_view3d_update_run id _ data' Hg')).
    erewrite renderer_uv_update_run by (simpl; apply get_set_same).
    reflexivity.
  - reflexivity.
Qed.

Lemma selected_and_pushed_mesh_data id obj data u :
  mesh_data (selected_and_pushed id obj data u) =
  set id (fst (mesh_update data obj true)) (mesh_data u).
Proof.
  unfold selected_and_pushed.
  now destruct (mesh_update data obj true) as [data' []].
Qed.

Lemma selected_and_pushed_frame id obj data u :
  refresh_frame u (selected_and_pushed id obj data u).
Proof.
  unfold selected_and_pushed, refresh_frame.
  now destruct (mesh_update data obj true) as [data' []].
Qed.

(** The loop of [handle_selection_changed_ops] over the snapshots [l]. *)
Lemma selection_loop_run ao (l : dict MeshData) w :
  NoDup (keys l) ->
  (forall id data, In (id, data) l ->
     get id (mesh_data (self w)) = Some data /\ mem id ao = true) ->
  exists f,
    for_each (keys l) (fun id =>
      obj <- subscript ao id ;;
      changed <- mesh_data_update id obj true ;;
      if changed then renderer_view3d_update id ;; renderer_uv_update id
      else ret tt) w =
    (Ok tt, with_self f w, selection_events l ao) /\
    refresh_frame (self w) (f (self w)) /\
    (forall id data obj,
        In (id, data) l -> get id ao = Some obj ->
        get id (mesh_data (f (self w))) = Some (fst (mesh_update data obj true))) /\
    (forall id, ~ In id (keys l) ->
                get id (mesh_data (f (self w))) = get id (mesh_data (self w))).
Proof.
  revert w. induction l as [|[id data] r IH]; intros w Hnd Hin.
  - exists (fun u => u). simpl. split; [|split; [|split]].
    + now destruct w as [[] ? ? ?].
    + apply refresh_frame_refl.
    + intros ? ? ? [].
    + reflexivity.
  - simpl in Hnd. inversion Hnd as [|? ? Hni Hnd']; subst.
    destruct (Hin id data (or_introl eq_refl)) as [Hdata Hao].
    destruct (proj1 (mem_get _ _) Hao) as [obj Hobj].
    pose proof (select_and_push_run id obj w data Hdata) as Hhead.
    set (w1 := with_self (selected_and_pushed id obj data) w) in *.
    assert (Hmd1 : mesh_data (self w1) =
                   set id (fst (mesh_update data obj true)) (mesh_data (self w))).
    { apply selected_and_pushed_mesh_data. }
    assert (Hother : forall id' data', In (id', data') r -> id <> id').
    { intros id' data' Hin' ->. apply Hni.
      change id' with (fst (id', data')). now apply in_map. }
    destruct (IH w1 Hnd') as (f & Hrun & Hframe & Hin_r & Hout_r).
    { intros id' data' Hin'. destruct (Hin id' data' (or_intror Hin')) as [Hg Hm].
      split; [|exact Hm].
      rewrite Hmd1, get_set_other; [exact Hg | now apply (Hother id' data')]. }
    exists (fun u => f (selected_and_pushed id obj data u)).
    split; [|split; [|split]].
    + simpl keys. simpl for_each.
      erewrite bind_run; cycle 1.
      { rewrite (bind_pure (subscript ao id) _ _ obj)
          by (unfold subscript; now rewrite Hobj).
        exact Hhead. }
      rewrite Hrun.
      unfold selection_events at 2. simpl flat_map. now rewrite Hobj.
    + eapply refresh_frame_trans; [apply selected_and_pushed_frame | apply Hframe].
    + intros id' data' obj' [Heq|Hin'] Hg.
      * injection Heq as <- <-. rewrite Hobj in Hg. injection Hg as <-.
        change (get id (mesh_data (f (self w1))) = Some (fst (mesh_update data obj true))).
        rewrite (Hout_r id Hni), Hmd1. apply get_set_same.
      * now apply (Hin_r id' data' obj' Hin').
    + intros id' Hid'. simpl in Hid'.
      change (get id' (mesh_data (f (self w1))) = get id' (mesh_data (self w))).
      rewrite Hout_r by tauto. rewrite Hmd1. apply get_set_other. tauto.
Qed.

(** [handle_selection_changed_ops] when the last operator is a new one and
    every snapshot belongs to an active object. *)
Lemma selection_handler_run c ao w o :
  NoDup (keys (mesh_data (self w))) ->
  (forall id, mem id (mesh_data (self w)) = true -> mem id ao = true) ->
  last_operator (operators c) = Some o ->
  op_differs o (op (self w)) = true ->
  exists f,
    handle_selection_changed_ops c ao w =
    (Ok true, with_self f w,
     if String.prefix "UV_OT_select" (bl_idname o)
     then selection_events (mesh_data (self w)) ao else []) /\
    op (f (self w)) = Some o /\
    last_update (f (self w)) = last_update (self w) /\
    uv_editor_visible (f (self w)) = uv_editor_visible (self w) /\
    (forall id data obj,
        get id (mesh_data (self w)) = Some data -> get id ao = Some obj ->
        get id (mesh_data (f (self w))) =
        Some (if String.prefix "UV_OT_select" (bl_idname o)
              then fst (mesh_update data obj true) else data)).
Proof.
  intros Hnd Hao Ho Hd. unfold handle_selection_changed_ops.
  rewrite Ho, bind_gets, Hd, bind_modify. cbv beta.
  destruct (String.prefix "UV_OT_select" (bl_idname o)).
  - rewrite bind_assoc, bind_gets.
    destruct (selection_loop_run ao (mesh_data (self w)) (with_self (with_op (Some o)) w))
      as (f & Hrun & Hframe & Hin & _).
    { exact Hnd. }
    { intros id data Hin. split.
      - simpl. now apply In_get.
      - apply Hao, mem_get. exists data. now apply In_get. }
    simpl self in *. change (mesh_data (with_op (Some o) (self w))) with (mesh_data (self w)).
    exists (fun u => f (with_op (Some o) u)).
    destruct Hframe as (Hlu & Hvis & Hop & _).
    split; [|split; [|split; [|split]]].
    + erewrite bind_run by exact Hrun. simpl. now rewrite app_nil_r.
    + now rewrite Hop.
    + now rewrite Hlu.
    + now rewrite Hvis.
    + intros id data obj Hg Hobj. apply (Hin id data obj); [now apply get_In | exact Hobj].
  - exists (with_op (Some o)). now repeat split.
Qed.

Lemma fold_items_none_due ao t b (l : dict Time) w :
  (forall id last, In (id, last) l -> due t last = false) ->
  fold_items (handle_id_update ao t) b l w = (Ok b, w, []).
Proof.
  induction l as [|[id last] r IH]; intros Hnone; simpl.
  - reflexivity.
  - rewrite (bind_pure _ _ _ b).
    + apply IH. intros id' last' Hin. apply (Hnone id' last'). now right.
    + apply handle_id_update_not_due. apply (Hnone id last). now left.
Qed.

(** X7. A tick with an active mesh object on which the UV-editor
    visibility has not changed, no timestamp is due and the last operator
    of the host is a new one: [heartbeat] returns, stores the operator
    and, when its name starts with [UV_OT_select], makes one
    selection-only refresh of every snapshot, in the order of [mesh_data],
    with a push to both surfaces after each refresh that reports a change
    and no redraw request; with another name it makes no refresh. The
    clock is read once and the timestamps stay as reconciliation left
    them. *)
Theorem selection_operator_refreshes_snapshots c w o :
  reachable w -> active_mesh c ->
  uv_editor_visible (self w) = uv_editor_visibility c ->
  (forall id last, get id (last_update (self w)) = Some last ->
                   due (now w) last = false) ->
  last_operator (operators c) = Some o ->
  op_differs o (op (self w)) = true ->
  let ao := get_active_objects c in
  let w0 := with_self (reconciled c) w in
  let visibility := handle_uv_edtitor_visibility_changed c ao w0 in
  let md := mesh_data (reconciled c (self w)) in
  let selecting := String.prefix "UV_OT_select" (bl_idname o) in
  exists w2,
    heartbeat c w =
      (Ok tt, w2,
       MousePosition :: mode_events c (self w) ++ events_of visibility ++
       (if selecting then selection_events md ao else [])) /\
    op (self w2) = Some o /\
    last_update (self w2) = last_update (reconciled c (self w)) /\
    perf_reads w2 = S (perf_reads w) /\
    (forall id obj,
        get id ao = Some obj ->
        exists data,
          get id md = Some data /\
          get id (mesh_data (self w2)) =
          Some (if selecting then fst (mesh_update data obj true) else data)).
Proof.
  intros Hr Ham Hvis Hnone Ho Hd ao w0 visibility md selecting.
  pose proof (reachable_consistent w Hr) as Hc.
  assert (Hc0 : consistent (self w0)) by now apply reconciled_consistent.
  assert (Hvis0 : uv_editor_visible (self w0) = uv_editor_visibility c).
  { unfold w0. simpl. now rewrite reconciled_uv_editor_visible. }
  pose proof (visibility_unchanged_run c ao w0 Hvis0) as Hv.
  set (w1 := world_of visibility).
  assert (Hw1 : visibility = (Ok false, w1, events_of visibility) /\
                last_update (self w1) = last_update (self w0) /\
                mesh_data (self w1) = mesh_data (self w0) /\
                op (self w1) = op (self w0) /\
                now w1 = now w /\ perf_reads w1 = perf_reads w).
  { unfold w1, visibility. rewrite Hv.
    destruct (negb (uv_editor_visible (self w0)) && enabled (renderer_view3d (self w0)));
      now repeat split. }
  destruct Hw1 as (Hvrun & Hlu1 & Hmd1 & Hop1 & Hnow1 & Hreads1).
  assert (Hids : handle_id_updates ao w1 = (Ok false, clock_read w1, [])).
  { unfold handle_id_updates.
    rewrite (bind_run _ _ _ _ _ _ (perf_counter_run w1)), bind_gets.
    rewrite fold_items_none_due; [reflexivity|].
    intros id last Hin. rewrite Hnow1.
    assert (Hg : get id (last_update (reconciled c (self w))) = Some last).
    { apply In_get; [|simpl in Hin; now rewrite Hlu1 in Hin]. apply Hc0. }
    rewrite reconciled_get_last_update in Hg.
    destruct (mem id (get_active_objects c)), (mem id (mesh_data (self w)));
      try discriminate; try (now apply (Hnone id last)).
    injection Hg as <-. apply due_sentinel. }
  destruct (selection_handler_run c ao (clock_read w1) o)
    as (f & Hsel & Hop & Hlu & _ & Hmd).
  { simpl. rewrite Hmd1. apply Hc0. }
  { intros id. simpl. rewrite Hmd1. unfold w0. simpl.
    now rewrite reconciled_mem_mesh_data. }
  { exact Ho. }
  { simpl. rewrite Hop1. unfold w0. simpl. now rewrite reconciled_op. }
  simpl self in Hsel, Hop, Hlu, Hmd.
  exists (with_self f (clock_read w1)).
  split; [|split; [|split; [|split]]].
  - rewrite (heartbeat_run c w Hc Ham). fold ao w0.
    rewrite (handlers_continue c ao w0 w1 (events_of visibility) Hvrun).
    unfold due_then_selection. rewrite (bind_run _ _ _ _ _ _ Hids).
    cbv iota. rewrite (bind_run _ _ _ _ _ _ Hsel). simpl.
    rewrite Hmd1, app_nil_r. reflexivity.
  - exact Hop.
  - simpl self. rewrite Hlu. exact Hlu1.
  - simpl. now rewrite Hreads1.
  - intros id obj Hobj.
    assert (Hm : mem id md = true).
    { unfold md. rewrite reconciled_mem_mesh_data. apply mem_get. now exists obj. }
    apply mem_get in Hm. destruct Hm as [data Hdata].
    exists data. split; [exact Hdata|].
    simpl self. apply Hmd; [|exact Hobj]. now rewrite Hmd1.
Qed.

End SelectionTick.

(** ** What a tick does to the flags and the timestamps *)

Section Ticks.
Context `{Collaborators}.

Lemma active_mesh_dec c : active_mesh c \/ ~ active_mesh c.
Proof.
  unfold active_mesh. destruct (active_object c) as [obj|].
  - destruct (String.eqb_spec (obj_type obj) "MESH") as [Ht|Ht].
    + left. now exists obj.
    + right. intros (obj' & Ho & Ht'). injection Ho as <-. contradiction.
  - right. now intros (obj & Ho & _).
Qed.

(** X1. A tick without an active mesh object (no active object, or one of
    another type) only re-arms the mouse watcher: it returns, and the
    Updater, the registrations and the clock are what they were, also
    when timestamps are due or selected objects have changed; so any
    number of such ticks leaves the world as it is. *)
Theorem idle_ticks_change_nothing cs w :
  Forall (fun c => ~ active_mesh c) cs ->
  after_all (map Heartbeat cs) w = w /\
  forall c, In c cs -> heartbeat c w = (Ok tt, w, [MousePosition]).
Proof.
  intros Hcs. split.
  - induction Hcs as [|c r Hc _ IH]; simpl; [reflexivity|].
    unfold after at 1. simpl call. now rewrite (heartbeat_idle c w Hc).
  - intros c Hin. apply heartbeat_idle. rewrite Forall_forall in Hcs. now apply Hcs.
Qed.

(** The visibility handler when the UV editor has just been closed. *)
Lemma visibility_hidden_run c ao w :
  uv_editor_visible (self w) = true ->
  uv_editor_visibility c = false ->
  handle_uv_edtitor_visibility_changed c ao w =
  (Ok true,
   with_self (fun u => with_renderer_view3d (disable (renderer_view3d u))
                         (with_uv_editor_visible false u)) w,
   [RendererDisable View3d; TagRedrawAllViews]).
Proof.
  intros Hvis Hhid. unfold handle_uv_edtitor_visibility_changed.
  rewrite bind_gets, Hvis, Hhid. reflexivity.
Qed.

(** X8. The tick on which the UV editor is seen closed after having been
    open: after the reconciliation the visibility handler clears the
    flag, disables the 3D surface (whether or not it was enabled),
    requests one redraw and ends the tick. [heartbeat] returns; the UV
    surface is not disabled, the clock is not read, so no due timestamp
    is processed, and the last operator is not looked at. *)
Theorem editor_closed_tick c w :
  reachable w -> active_mesh c ->
  uv_editor_visible (self w) = true ->
  uv_editor_visibility c = false ->
  let u0 := with_uv_editor_visible false (reconciled c (self w)) in
  heartbeat c w =
    (Ok tt,
     with_self (fun _ => with_renderer_view3d (disable (renderer_view3d u0)) u0) w,
     MousePosition :: mode_events c (self w) ++
     [RendererDisable View3d; TagRedrawAllViews]) /\
  last_update u0 = last_update (reconciled c (self w)) /\
  mesh_data u0 = mesh_data (reconciled c (self w)) /\
  op u0 = op (self w) /\
  renderer_uv u0 = renderer_uv (self w).
Proof.
  intros Hr Ham Hvis Hhid u0.
  pose proof (reachable_consistent w Hr) as Hc.
  split; [|split; [reflexivity|split; [reflexivity|split]]].
  - rewrite (heartbeat_run c w Hc Ham).
    erewrite handlers_stop; cycle 1.
    { apply visibility_hidden_run; [|exact Hhid].
      simpl. now rewrite reconciled_uv_editor_visible. }
    reflexivity.
  - unfold u0. simpl. apply reconciled_op.
  - unfold u0, reconciled, created. simpl.
    assert (Hcreate : forall l u, renderer_uv (fold_left create_entry l u) = renderer_uv u).
    { induction l as [|id r IH]; intros u; simpl; [reflexivity|].
      rewrite IH. unfold create_entry. now destruct (negb (mem id (mesh_data u))). }
    rewrite Hcreate. unfold mode_synced.
    now destruct (negb (tool_uv_select_mode c =? uv_select_mode (freed c (self w)))).
Qed.

Lemma keeps_due_then_selection_frame (P : Updater -> Prop) c ao :
  (forall u md, P u -> P (with_mesh_data md u)) ->
  (forall u r, P u -> P (with_renderer_view3d r u)) ->
  (forall u r, P u -> P (with_renderer_uv r u)) ->
  (forall u o, P u -> P (with_op o u)) ->
  (forall u id, P u -> P (with_last_update (set id sentinel (last_update u)) u)) ->
  keeps P (due_then_selection c ao).
Proof.
  intros Hmd H3 Huv Hop Hlu.
  unfold due_then_selection, handle_id_updates, handle_id_update, set_last_update,
    handle_selection_changed_ops, mesh_data_update, set_mesh_data,
    renderer_view3d_update, renderer_uv_update, tag_redraw_all_views.
  repeat first [ apply keeps_modify; now auto | keeps_step ].
Qed.

Lemma keeps_visibility_frame (P : Updater -> Prop) c ao :
  (forall u md, P u -> P (with_mesh_data md u)) ->
  (forall u r, P u -> P (with_renderer_view3d r u)) ->
  (forall u r, P u -> P (with_renderer_uv r u)) ->
  (forall u b, P u -> P (with_uv_editor_visible b u)) ->
  keeps P (handle_uv_edtitor_visibility_changed c ao).
Proof.
  intros Hmd H3 Huv Hvis.
  unfold handle_uv_edtitor_visibility_changed, mesh_data_update, set_mesh_data,
    renderer_view3d_update, renderer_uv_update, renderer_view3d_disable,
    tag_redraw_all_views.
  repeat first [ apply keeps_modify; now auto | keeps_step ].
Qed.

(** Whatever the visibility handler does, also when it raises, the flag
    it leaves is the visibility it has just read. *)
Lemma visibility_handler_mirrors c ao w :
  uv_editor_visible (self (world_of (handle_uv_edtitor_visibility_changed c ao w))) =
  uv_editor_visibility c.
Proof.
  unfold handle_uv_edtitor_visibility_changed. rewrite bind_gets.
  destruct (Bool.eqb (uv_editor_visible (self w)) (uv_editor_visibility c)) eqn:He.
  - apply Bool.eqb_prop in He.
    match goal with |- uv_editor_visible (self (world_of (?m w))) = _ =>
      apply (fun Hk : keeps (fun u => uv_editor_visible u = uv_editor_visibility c) m =>
               Hk w) end; [|exact He].
    unfold renderer_view3d_disable, tag_redraw_all_views.
    repeat first [ apply keeps_modify; now auto | keeps_step ].
  - rewrite bind_modify. cbv beta.
    match goal with |- uv_editor_visible (self (world_of (?m ?w0))) = _ =>
      apply (fun Hk : keeps (fun u => uv_editor_visible u = uv_editor_visibility c) m =>
               Hk w0) end; [|reflexivity].
    unfold mesh_data_update, set_mesh_data, renderer_view3d_update,
      renderer_uv_update, renderer_view3d_disable, tag_redraw_all_views.
    repeat first [ apply keeps_modify; now auto | keeps_step ].
Qed.

Lemma reconciled_uv_select_mode c u :
  uv_select_mode (reconciled c u) = tool_uv_select_mode c.
Proof.
  unfold reconciled, created.
  assert (Hcreate : forall l u0,
             uv_select_mode (fold_left create_entry l u0) = uv_select_mode u0).
  { induction l as [|id r IH]; intros u0; simpl; [reflexivity|].
    rewrite IH. unfold create_entry. now destruct (negb (mem id (mesh_data u0))). }
  rewrite Hcreate. unfold mode_synced.
  destruct (String.eqb_spec (tool_uv_select_mode c) (uv_select_mode (freed c u)))
    as [He|Hne]; simpl; [now rewrite He | reflexivity].
Qed.

Lemma heartbeat_uv_select_mode c w :
  consistent (self w) -> active_mesh c ->
  uv_select_mode (self (world_of (heartbeat c w))) = tool_uv_select_mode c.
Proof.
  intros Hc Ham. rewrite (heartbeat_run c w Hc Ham).
  assert (Hk : keeps (fun u => uv_select_mode u = tool_uv_select_mode c)
                 (handlers c (get_active_objects c))).
  { unfold handlers. apply keeps_bind; [|intros done; apply keeps_if].
    - apply keeps_visibility_frame; now intros.
    - apply keeps_ret.
    - apply keeps_due_then_selection_frame; now intros. }
  specialize (Hk (with_self (reconciled c) w) (reconciled_uv_select_mode c (self w))).
  unfold world_of in *. now destruct (handlers _ _ _) as [[r w2] e2].
Qed.

(** X9. After a tick with an active mesh object, whichever handler ended
    it and also when it raised, the Updater mirrors the host: its
    selection mode is the tool setting, its visibility flag is the
    visibility of the UV editor, and the identities with a snapshot are
    exactly the names of the selected objects. *)
Theorem tick_mirrors_host c w :
  reachable w -> active_mesh c ->
  let u' := self (after (Heartbeat c) w) in
  uv_select_mode u' = tool_uv_select_mode c /\
  uv_editor_visible u' = uv_editor_visibility c /\
  (forall k, In k (keys (mesh_data u')) <-> In k (selected_names c)).
Proof.
  intros Hr Ham u'. pose proof (reachable_consistent w Hr) as Hc.
  split; [|split].
  - now apply heartbeat_uv_select_mode.
  - unfold u', after. simpl call. rewrite (heartbeat_run c w Hc Ham).
    assert (Hh : uv_editor_visible
                   (self (world_of (handlers c (get_active_objects c)
                                      (with_self (reconciled c) w)))) =
                 uv_editor_visibility c).
    { unfold handlers. rewrite world_of_bind.
      pose proof (visibility_handler_mirrors c (get_active_objects c)
                    (with_self (reconciled c) w)) as Hm.
      destruct (result_of _) as [done|x]; [|exact Hm].
      destruct done; [exact Hm|].
      apply (keeps_due_then_selection_frame
               (fun u => uv_editor_visible u = uv_editor_visibility c));
        [now intros .. | exact Hm]. }
    unfold world_of in *. now destruct (handlers _ _ _) as [[r w2] e2].
  - intros k. rewrite <- mem_In.
    destruct (heartbeat_keys c w Hc Ham) as [Hm _].
    unfold u', after. simpl call. rewrite Hm. apply active_objects_mem.
Qed.

Lemma heartbeat_timestamps c w k v :
  consistent (self w) ->
  get k (last_update (self (world_of (heartbeat c w)))) = Some v ->
  v = sentinel \/ get k (last_update (self w)) = Some v.
Proof.
  intros Hc.
  destruct (active_mesh_dec c) as [Ham|Hidle].
  2: { rewrite (heartbeat_idle c w Hidle). now right. }
  rewrite (heartbeat_run c w Hc Ham).
  set (P := fun u => forall k v, get k (last_update u) = Some v ->
                       v = sentinel \/ get k (last_update (self w)) = Some v).
  assert (Hk : keeps P (handlers c (get_active_objects c))).
  { unfold handlers. apply keeps_bind; [|intros done; apply keeps_if].
    - apply keeps_visibility_frame; now intros.
    - apply keeps_ret.
    - apply keeps_due_then_selection_frame; try (now intros).
      intros u id Hu k' v'. simpl. rewrite get_set.
      destruct (id =? k')%string; [|apply Hu].
      intros Hv. injection Hv as <-. now left. }
  assert (H0 : P (reconciled c (self w))).
  { intros k' v'. rewrite reconciled_get_last_update.
    destruct (mem k' (get_active_objects c)), (mem k' (mesh_data (self w)));
      try (now right); try discriminate.
    intros Hv. injection Hv as <-. now left. }
  specialize (Hk (with_self (reconciled c) w) H0).
  unfold world_of in *. destruct (handlers _ _ _) as [[r w2] e2]. apply Hk.
Qed.

(** X17. A tick schedules nothing: every timestamp stored when
    [heartbeat] ends, whether it returned or raised, is the sentinel or
    the value the identity had before the tick. *)
Theorem tick_only_clears_timestamps c w k v :
  reachable w ->
  get k (last_update (self (after (Heartbeat c) w))) = Some v ->
  v = sentinel \/ get k (last_update (self w)) = Some v.
Proof.
  intros Hr. apply heartbeat_timestamps. now apply reachable_consistent.
Qed.

Lemma fold_create_entry_present (ids : list string) u :
  (forall id, In id ids -> mem id (mesh_data u) = true) ->
  fold_left create_entry ids u = u.
Proof.
  induction ids as [|id r IH]; intros Hin; simpl; [reflexivity|].
  unfold create_entry at 2. rewrite (Hin id (or_introl eq_refl)). simpl.
  apply IH. intros id' Hid'. apply Hin. now right.
Qed.

Lemma reconciled_fixed c u :
  (forall k, mem k (mesh_data u) = mem k (get_active_objects c)) ->
  uv_select_mode u = tool_uv_select_mode c ->
  reconciled c u = u /\ mode_events c u = [].
Proof.
  intros Hkeys Hmode.
  assert (Hobs : obsolete (get_active_objects c) (mesh_data u) = []).
  { unfold obsolete.
    destruct (filter _ _) as [|id r] eqn:E; [reflexivity|].
    assert (Hin : In id (filter (fun id => negb (mem id (get_active_objects c)))
                           (keys (mesh_data u)))).
    { rewrite E. now left. }
    apply filter_In in Hin. destruct Hin as [Hk Hn].
    apply mem_In in Hk. rewrite Hkeys in Hk. now rewrite Hk in Hn. }
  assert (Hfreed : freed c u = u).
  { unfold freed. rewrite Hobs. now destruct u. }
  assert (Hsynced : mode_synced c (freed c u) = u).
  { rewrite Hfreed. unfold mode_synced. now rewrite Hmode, String.eqb_refl. }
  split.
  - unfold reconciled, created. rewrite Hsynced.
    apply fold_create_entry_present. intros id Hid.
    rewrite Hkeys. now apply mem_In.
  - unfold mode_events. now rewrite Hmode, String.eqb_refl.
Qed.

(** X19. Reconciliation is stable: when a tick with an active mesh object
    has run, whatever it did, the reconciliation steps of a next tick
    under the same selection and tool setting (free, the mirror of the
    selection mode, the lazy creation) return without changing the
    Updater and without any call. *)
Theorem reconcile_after_tick_changes_nothing c w :
  reachable w -> active_mesh c ->
  let w' := after (Heartbeat c) w in
  reconcile c w' = (Ok tt, w', []).
Proof.
  intros Hr Ham w'. pose proof (reachable_consistent w Hr) as Hc.
  assert (Hc' : consistent (self w')).
  { apply reachable_consistent. now apply reachable_after. }
  rewrite (reconcile_run c w' Hc').
  destruct (reconciled_fixed c (self w')) as [Hfix Hev].
  - apply (heartbeat_keys c w Hc Ham).
  - now apply heartbeat_uv_select_mode.
  - rewrite Hev. f_equal. f_equal. unfold with_self. rewrite Hfix. now destruct w'.
Qed.

End Ticks.

(** ** When a tick returns and when it raises *)

Section Outcome.
Context `{Collaborators}.

Lemma selection_handler_returns c ao w :
  NoDup (keys (mesh_data (self w))) ->
  (forall id, mem id (mesh_data (self w)) = true -> mem id ao = true) ->
  exists b, result_of (handle_selection_changed_ops c ao w) = Ok b.
Proof.
  intros Hnd Hao.
  destruct (last_operator (operators c)) as [o|] eqn:Ho.
  - destruct (op_differs o (op (self w))) eqn:Hd.
    + destruct (selection_handler_run c ao w o Hnd Hao Ho Hd) as (f & Hrun & _).
      exists true. now rewrite Hrun.
    + exists false. unfold handle_selection_changed_ops.
      now rewrite Ho, bind_gets, Hd.
  - exists false. unfold handle_selection_changed_ops. now rewrite Ho.
Qed.

(** The visibility handler of a tick on which the visibility has not
    changed leaves the dictionaries, the operator and the clock alone. *)
Lemma visibility_unchanged_frame c ao w :
  uv_editor_visible (self w) = uv_editor_visibility c ->
  let visibility := handle_uv_edtitor_visibility_changed c ao w in
  let w1 := world_of visibility in
  visibility = (Ok false, w1, events_of visibility) /\
  last_update (self w1) = last_update (self w) /\
  mesh_data (self w1) = mesh_data (self w) /\
  op (self w1) = op (self w) /\
  now w1 = now w /\
  clock_read w1 = with_self (fun _ => self w1) (clock_read w).
Proof.
  intros Hvis visibility w1. unfold w1, visibility.
  rewrite (visibility_unchanged_run c ao w Hvis).
  destruct (negb (uv_editor_visible (self w)) && enabled (renderer_view3d (self w)));
    now repeat split.
Qed.

Lemma fold_items_app {X} (body : bool -> X -> M bool) b (l1 l2 : list X) w :
  fold_items body b (l1 ++ l2) w =
  bind (fold_items body b l1) (fun b' => fold_items body b' l2) w.
Proof.
  revert b w. induction l1 as [|x r IH]; intros b w; simpl.
  - now rewrite bind_ret.
  - rewrite bind_assoc.
    destruct (body b x w) as [[[b'|e] w1] e1] eqn:E.
    + rewrite (bind_run _ (fun b' => fold_items body b' (r ++ l2)) _ _ _ _ E).
      rewrite (bind_run _ (fun a => bind (fold_items body a r) _) _ _ _ _ E).
      now rewrite IH.
    + rewrite (bind_Raise _ (fun b' => fold_items body b' (r ++ l2)) _ _ _ _ E).
      now rewrite (bind_Raise _ (fun a => bind (fold_items body a r) _) _ _ _ _ E).
Qed.

Lemma fold_items_cons {X} (body : bool -> X -> M bool) b x (r : list X) :
  fold_items body b (x :: r) = bind (body b x) (fun b' => fold_items body b' r).
Proof. reflexivity. Qed.

Lemma first_such {X} (p : X -> bool) (l : list X) x :
  In x l -> p x = true ->
  exists before y after,
    l = before ++ y :: after /\ p y = true /\
    forall z, In z before -> p z = false.
Proof.
  induction l as [|a r IH]; intros Hin Hp; [contradiction|].
  destruct (p a) eqn:Ha.
  - exists [], a, r. repeat split; [exact Ha | intros z []].
  - destruct Hin as [->|Hin]; [congruence|].
    destruct (IH Hin Hp) as (before & y & after & -> & Hy & Hbefore).
    exists (a :: before), y, after. repeat split; [exact Hy|].
    intros z [<-|Hz]; [exact Ha | now apply Hbefore].
Qed.

(** X12. In a reachable state a tick returns unless a due timestamp
    belongs to an identity that is neither selected nor has a snapshot:
    reconciliation, the visibility handler and the selection handler
    never raise, and [handle_id_updates] finds the snapshot and the
    object of every other due identity. *)
Theorem tick_returns_without_due_orphan c w :
  reachable w ->
  (forall id last,
      get id (last_update (self w)) = Some last -> due (now w) last = true ->
      In id (selected_names c) \/ mem id (mesh_data (self w)) = true) ->
  result_of (heartbeat c w) = Ok tt.
Proof.
  intros Hr Hsafe. pose proof (reachable_consistent w Hr) as Hc.
  destruct (active_mesh_dec c) as [Ham|Hidle].
  2: { now rewrite (heartbeat_idle c w Hidle). }
  set (ao := get_active_objects c).
  set (w0 := with_self (reconciled c) w).
  assert (Hc0 : consistent (self w0)) by now apply reconciled_consistent.
  assert (Hkeys0 : forall id, mem id (mesh_data (self w0)) = mem id ao).
  { intros id. apply reconciled_mem_mesh_data. }
  assert (Hgoal : result_of (handlers c ao w0) = Ok tt).
  2: { rewrite (heartbeat_run c w Hc Ham). fold ao w0.
       unfold result_of in *. now destruct (handlers c ao w0) as [[r w2] e2]. }
  destruct (Bool.eqb (uv_editor_visible (self w)) (uv_editor_visibility c)) eqn:He.
  - apply Bool.eqb_prop in He.
    assert (Hvis0 : uv_editor_visible (self w0) = uv_editor_visibility c).
    { unfold w0. simpl. now rewrite reconciled_uv_editor_visible. }
    destruct (visibility_unchanged_frame c ao w0 Hvis0)
      as (Hvrun & Hlu1 & Hmd1 & _ & Hnow1 & _).
    set (w1 := world_of (handle_uv_edtitor_visibility_changed c ao w0)) in *.
    rewrite (handlers_continue c ao w0 w1 _ Hvrun).
    assert (Hc1 : consistent (self w1)).
    { unfold consistent. rewrite Hlu1, Hmd1. exact Hc0. }
    assert (Hdue : exists b w2 e,
               handle_id_updates ao w1 = (Ok b, w2, e) /\
               consistent (self w2) /\
               forall id, mem id (mesh_data (self w2)) = mem id ao).
    { destruct (due_loop_run ao (now w) (last_update (self w1)) (clock_read w1) false)
        as (f & Hrun & _).
      { apply Hc1. }
      { intros id last Hin Hd. simpl.
        assert (Hg : get id (last_update (reconciled c (self w))) = Some last).
        { apply In_get; [apply Hc0 | now rewrite Hlu1 in Hin]. }
        rewrite Hmd1, Hkeys0. rewrite reconciled_get_last_update in Hg.
        fold ao in Hg. destruct (mem id ao) eqn:Hao; [now split|].
        destruct (mem id (mesh_data (self w))) eqn:Hmd; [discriminate|].
        destruct (Hsafe id last Hg Hd) as [Hsel|Hm]; [|congruence].
        apply active_objects_mem in Hsel. fold ao in Hsel. congruence. }
      assert (Hids : handle_id_updates ao w1 =
                     (Ok (false || existsb (fun item => due (now w) (snd item))
                                     (last_update (self w1))),
                      with_self f (clock_read w1),
                      due_events (mesh_data (self w1)) ao (now w)
                        (last_update (self w1)))).
      { unfold handle_id_updates.
        rewrite (bind_run _ _ _ _ _ _ (perf_counter_run w1)), bind_gets.
        rewrite Hnow1. change (now w0) with (now w). simpl self.
        now rewrite Hrun. }
      eexists _, _, _. split; [exact Hids|].
      pose proof (keeps_handle_id_updates ao w1 Hc1) as Hk.
      pose proof (keeps_same_keys_handle_id_updates
                    (mesh_data (self w1)) (last_update (self w1)) ao w1) as Hs.
      rewrite Hids in Hk, Hs. split; [exact Hk|].
      intros id. destruct Hs as [Hm _]; [now split|].
      unfold world_of in Hm. simpl in Hm. simpl. rewrite Hm, Hmd1. apply Hkeys0. }
    destruct Hdue as (b & w2 & e & Hids & Hc2 & Hkeys2).
    unfold due_then_selection. rewrite (bind_run _ _ _ _ _ _ Hids).
    destruct b; [reflexivity|].
    destruct (selection_handler_returns c ao w2) as [b Hb].
    { apply Hc2. }
    { intros id. now rewrite Hkeys2. }
    unfold result_of in *. unfold bind.
    destruct (handle_selection_changed_ops c ao w2) as [[r w3] e3].
    simpl in Hb. now subst r.
  - apply Bool.eqb_false_iff in He.
    destruct (uv_editor_visibility c) eqn:Hv.
    + assert (Hvis : uv_editor_visible (self w) = false).
      { now destruct (uv_editor_visible (self w)). }
      destruct (visibility_shown_run c w0 Hc0 Hkeys0) as (f & Hrun & _).
      { unfold w0. simpl. now rewrite reconciled_uv_editor_visible. }
      { exact Hv. }
      fold ao in Hrun. now rewrite (handlers_stop c ao w0 _ _ Hrun).
    + assert (Hvis : uv_editor_visible (self w) = true).
      { now destruct (uv_editor_visible (self w)). }
      erewrite handlers_stop; [reflexivity|].
      apply visibility_hidden_run; [|exact Hv].
      unfold w0. simpl. now rewrite reconciled_uv_editor_visible.
Qed.

(** X13. A due timestamp of an identity that is neither selected nor has
    a snapshot makes the tick raise: on a tick with an active mesh object
    on which the UV-editor visibility has not changed, [heartbeat] ends
    with [KeyError] for such an identity. That identity's timestamp has
    been cleared before the exception, so the same entry does not raise
    again on a later tick. *)
Theorem tick_raises_on_due_orphan c w id last :
  reachable w -> active_mesh c ->
  uv_editor_visible (self w) = uv_editor_visibility c ->
  get id (last_update (self w)) = Some last ->
  due (now w) last = true ->
  ~ In id (selected_names c) ->
  mem id (mesh_data (self w)) = false ->
  exists id' last',
    result_of (heartbeat c w) = Raise (KeyError id') /\
    get id' (last_update (self w)) = Some last' /\
    due (now w) last' = true /\
    ~ In id' (selected_names c) /\
    mem id' (mesh_data (self w)) = false /\
    get id' (last_update (self (after (Heartbeat c) w))) = Some sentinel.
Proof.
  intros Hr Ham Hvis Hg Hd Hnsel Hnmd.
  pose proof (reachable_consistent w Hr) as Hc.
  set (ao := get_active_objects c).
  set (w0 := with_self (reconciled c) w).
  assert (Hc0 : consistent (self w0)) by now apply reconciled_consistent.
  assert (Hkeys0 : forall k, mem k (mesh_data (self w0)) = mem k ao).
  { intros k. apply reconciled_mem_mesh_data. }
  assert (Hvis0 : uv_editor_visible (self w0) = uv_editor_visibility c).
  { unfold w0. simpl. now rewrite reconciled_uv_editor_visible. }
  destruct (visibility_unchanged_frame c ao w0 Hvis0)
    as (Hvrun & Hlu1 & Hmd1 & _ & Hnow1 & _).
  set (w1 := world_of (handle_uv_edtitor_visibility_changed c ao w0)) in *.
  assert (Hc1 : consistent (self w1)).
  { unfold consistent. rewrite Hlu1, Hmd1. exact Hc0. }
  (* the orphans among the entries the loop walks *)
  set (orphan := fun item : string * Time =>
                   due (now w) (snd item) && negb (mem (fst item) ao)).
  assert (Hpre : forall k v, get k (last_update (self w1)) = Some v ->
                             mem k ao = false ->
                             get k (last_update (self w)) = Some v /\
                             mem k (mesh_data (self w)) = false).
  { intros k v Hk Hao. rewrite Hlu1 in Hk. unfold w0 in Hk. simpl in Hk.
    rewrite reconciled_get_last_update in Hk. fold ao in Hk. rewrite Hao in Hk.
    destruct (mem k (mesh_data (self w))); [discriminate | now split]. }
  assert (Hnao : mem id ao = false).
  { destruct (mem id ao) eqn:E; [|reflexivity].
    apply active_objects_mem in E. contradiction. }
  assert (Hin : In (id, last) (last_update (self w1))).
  { apply get_In. rewrite Hlu1. unfold w0. simpl.
    rewrite reconciled_get_last_update. fold ao. now rewrite Hnao, Hnmd. }
  destruct (first_such orphan _ (id, last) Hin) as (before & [id' last'] & rest & Hsplit & Hy & Hbefore).
  { unfold orphan. simpl. now rewrite Hd, Hnao. }
  unfold orphan in Hy. simpl in Hy. apply andb_prop in Hy. destruct Hy as [Hd' Hao'].
  apply negb_true_iff in Hao'.
  assert (Hnd : NoDup (keys (before ++ (id', last') :: rest))).
  { rewrite <- Hsplit. apply Hc1. }
  assert (Hg1 : get id' (last_update (self w1)) = Some last').
  { apply In_get; [apply Hc1|]. rewrite Hsplit. apply in_or_app. right. now left. }
  destruct (Hpre id' last' Hg1 Hao') as [Hg' Hnmd'].
  assert (Hnid : ~ In id' (keys before)).
  { unfold keys in Hnd. rewrite map_app in Hnd. simpl in Hnd.
    apply NoDup_remove_2 in Hnd. intros Hk. apply Hnd. apply in_or_app. now left. }
  destruct (due_loop_run ao (now w) before (clock_read w1) false)
    as (f & Hrun & _ & _ & Hlu & Hmd).
  { unfold keys in *. rewrite map_app in Hnd. now apply NoDup_app_remove_r in Hnd. }
  { intros k v Hk Hdk. simpl. rewrite Hmd1, Hkeys0.
    pose proof (Hbefore (k, v) Hk) as Ho. unfold orphan in Ho. simpl in Ho.
    rewrite Hdk in Ho. simpl in Ho. apply negb_false_iff in Ho. now split. }
  assert (Hmiss : get id' (mesh_data (f (self (clock_read w1)))) = None).
  { rewrite Hmd, (get_absent before id' Hnid). simpl.
    apply mem_false_get. now rewrite Hmd1, Hkeys0. }
  assert (Hids : handle_id_updates ao w1 =
                 (Raise (KeyError id'),
                  with_self (fun u => with_last_update (set id' sentinel (last_update u)) u)
                    (with_self f (clock_read w1)),
                  due_events (mesh_data (self w1)) ao (now w) before)).
  { unfold handle_id_updates.
    rewrite (bind_run _ _ _ _ _ _ (perf_counter_run w1)), bind_gets.
    rewrite Hnow1. change (now w0) with (now w). simpl self.
    rewrite Hsplit, fold_items_app.
    rewrite (bind_run _ _ _ _ _ _ Hrun). cbv beta. rewrite fold_items_cons.
    rewrite (bind_Raise _ _ _ _ _ _
               (handle_id_update_orphan ao (now w) _ id' last'
                  (with_self f (clock_read w1)) Hd' Hmiss)).
    simpl. now rewrite app_nil_r. }
  exists id', last'.
  assert (Hbeat : heartbeat c w =
                  (Raise (KeyError id'),
                   with_self (fun u => with_last_update (set id' sentinel (last_update u)) u)
                     (with_self f (clock_read w1)),
                   MousePosition :: mode_events c (self w) ++
                   events_of (handle_uv_edtitor_visibility_changed c ao w0) ++
                   due_events (mesh_data (self w1)) ao (now w) before)).
  { rewrite (heartbeat_run c w Hc Ham). fold ao w0.
    rewrite (handlers_continue c ao w0 w1 _ Hvrun).
    unfold due_then_selection. now rewrite (bind_Raise _ _ _ _ _ _ Hids). }
  split; [now rewrite Hbeat|]. split; [exact Hg'|]. split; [exact Hd'|].
  split; [|split; [exact Hnmd'|]].
  - intros Hsel. apply active_objects_mem in Hsel. fold ao in Hsel. congruence.
  - unfold after. simpl call. rewrite Hbeat. simpl. apply get_set_same.
Qed.

End Outcome.

(** ** The stored timestamps *)

Section Timestamps.
Context `{Collaborators}.

Lemma world_keeps_clock (P : (nat -> Time) -> Prop) a :
  world_keeps (fun w => P (perf_clock w)) (call a).
Proof.
  assert (Hmod : forall f, world_keeps (fun w => P (perf_clock w)) (modify f)).
  { intros f w Hw. exact Hw. }
  assert (Hclock : world_keeps (fun w => P (perf_clock w)) perf_counter).
  { intros w Hw. exact Hw. }
  assert (Hremove : world_keeps (fun w => P (perf_clock w)) depsgraph_update_post_remove).
  { intros w Hw. unfold depsgraph_update_post_remove. rewrite bind_emit.
    unfold world_of. simpl. now destruct (depsgraph_update_post w). }
  destruct a; simpl call.
  - now intros w.
  - unfold stop, renderer_uv_disable, renderer_view3d_disable.
    repeat first [ apply Hmod | apply Hremove | world_step ].
  - unfold heartbeat, watch_mouse, reconcile, free, del_last_update, del_mesh_data,
      sync_uv_select_mode, create_missing, handlers,
      handle_uv_edtitor_visibility_changed, due_then_selection, handle_id_updates,
      handle_id_update, handle_selection_changed_ops, set_last_update,
      mesh_data_update, set_mesh_data, renderer_view3d_update, renderer_uv_update,
      renderer_view3d_disable, tag_redraw_all_views.
    repeat first [ apply Hmod | apply Hclock | world_step ].
  - unfold depsgraph_handler, handle_depsgraph_update, set_last_update.
    repeat first [ apply Hmod | apply Hclock | world_step ].
Qed.

Lemma keeps_sentinel_or_positive_stop : keeps sentinel_or_positive stop.
Proof.
  unfold stop, renderer_uv_disable, renderer_view3d_disable.
  repeat first [ apply keeps_modify; now intros u
               | apply keeps_depsgraph_update_post_remove
               | keeps_step ].
Qed.

Lemma scheduled_sentinel_or_positive c update w :
  clock_not_negative w -> sentinel_or_positive (self w) ->
  sentinel_or_positive (self (world_of (handle_depsgraph_update c update w))).
Proof.
  intros Hclock Hs.
  destruct (can_skip_depsgraph c update) eqn:Hskip.
  - unfold handle_depsgraph_update. now rewrite Hskip.
  - assert (Hid : exists id, upd_id update = Some id).
    { unfold can_skip_depsgraph in Hskip.
      destruct (upd_id update) as [id|]; [now exists id | discriminate]. }
    destruct Hid as [id Hid].
    destruct (scheduled_update_run c update id w Hskip Hid)
      as (lu & delay & Hrun & Hdelay & Hlu).
    rewrite Hrun. intros k v. simpl. rewrite Hlu.
    destruct (id_name id =? k)%string; [|apply Hs].
    intros Hv. injection Hv as <-. right.
    apply Qlt_le_trans with (y := delay).
    + now destruct Hdelay as [-> | ->].
    + rewrite <- (Qplus_0_l delay) at 1. apply Qplus_le_l. apply Hclock.
Qed.

Lemma scheduling_loop_sentinel_or_positive c updates w :
  clock_not_negative w -> sentinel_or_positive (self w) ->
  sentinel_or_positive
    (self (world_of (for_each updates (handle_depsgraph_update c) w))).
Proof.
  revert w. induction updates as [|update r IH]; intros w Hclock Hs; simpl.
  - exact Hs.
  - rewrite world_of_bind.
    pose proof (scheduled_sentinel_or_positive c update w Hclock Hs) as Hhead.
    destruct (result_of (handle_depsgraph_update c update w)); [|exact Hhead].
    apply IH; [|exact Hhead].
    assert (Hk : world_keeps clock_not_negative (handle_depsgraph_update c update)).
    { unfold handle_depsgraph_update, set_last_update.
      repeat first [ apply world_keeps_modify; now intros w0
                   | world_step | now intros w0 ]. }
    now apply Hk.
Qed.

Lemma sentinel_or_positive_after a w :
  consistent (self w) -> clock_not_negative w -> sentinel_or_positive (self w) ->
  sentinel_or_positive (self (after a w)).
Proof.
  intros Hc Hclock Hs. unfold after. destruct a; simpl call.
  - exact Hs.
  - now apply keeps_sentinel_or_positive_stop.
  - intros k v Hv. destruct (heartbeat_timestamps c w k v Hc Hv) as [->|Hold].
    + now left.
    + now apply (Hs k v).
  - unfold depsgraph_handler. rewrite bind_gets.
    destruct (negb (timer_running (self w))); [exact Hs|].
    now apply scheduling_loop_sentinel_or_positive.
Qed.

(** X15. When the clock never answers a negative number, every timestamp
    the Updater ever stores is the sentinel [-1] or positive, in every
    state reached from the constructor by [start], [stop], ticks and
    notifications: the test [last_update > 0] of the code tells exactly
    the scheduled entries from the cleared ones. *)
Theorem timestamps_sentinel_or_positive calls view3d uv clock :
  (forall n, (0 <= clock n)%Q) ->
  sentinel_or_positive (self (after_all calls (initial view3d uv clock))).
Proof.
  intros Hclock.
  assert (Hinv : forall w,
             reachable w -> clock_not_negative w -> sentinel_or_positive (self w) ->
             sentinel_or_positive (self (after_all calls w))).
  { induction calls as [|a r IH]; intros w Hr Hc Hs; simpl; [exact Hs|].
    apply IH.
    - now apply reachable_after.
    - exact (world_keeps_clock (fun f => forall n, (0 <= f n)%Q) a w Hc).
    - apply sentinel_or_positive_after; [now apply reachable_consistent | exact Hc | exact Hs]. }
  apply Hinv.
  - apply reachable_initial.
  - exact Hclock.
  - intros k v Hv. discriminate.
Qed.

End Timestamps.

(** ** [free] outside the reachable states *)

Section Free.
Context `{Collaborators}.

Lemma for_each_app {X} (l1 l2 : list X) (body : X -> M unit) w :
  for_each (l1 ++ l2) body w =
  bind (for_each l1 body) (fun _ => for_each l2 body) w.
Proof.
  revert w. induction l1 as [|x r IH]; intros w; simpl.
  - now rewrite bind_ret.
  - rewrite bind_assoc.
    destruct (body x w) as [[[[]|e] w1] e1] eqn:E.
    + rewrite (bind_run _ (fun _ => for_each (r ++ l2) body) _ _ _ _ E).
      rewrite (bind_run _ (fun _ => bind (for_each r body) _) _ _ _ _ E).
      now rewrite IH.
    + rewrite (bind_Raise _ (fun _ => for_each (r ++ l2) body) _ _ _ _ E).
      now rewrite (bind_Raise _ (fun _ => bind (for_each r body) _) _ _ _ _ E).
Qed.

Lemma free_missing_timestamp_run c w before id rest :
  NoDup (keys (mesh_data (self w))) ->
  obsolete (get_active_objects c) (mesh_data (self w)) = before ++ id :: rest ->
  (forall k, In k before -> mem k (last_update (self w)) = true) ->
  mem id (last_update (self w)) = false ->
  free c w =
  (Raise (KeyError id),
   with_self (fun u => with_mesh_data (del_all before (mesh_data u))
                         (with_last_update (del_all before (last_update u)) u)) w,
   []).
Proof.
  intros Hnd Hsplit Hbefore Hmiss.
  assert (Hids : NoDup (before ++ id :: rest)).
  { rewrite <- Hsplit. now apply NoDup_filter. }
  unfold free. rewrite bind_gets, Hsplit, for_each_app.
  erewrite bind_run; cycle 1.
  { apply free_loop_run.
    - now apply NoDup_app_remove_r in Hids.
    - intros k Hk. split; [now apply Hbefore|].
      apply mem_In.
      assert (Hin : In k (obsolete (get_active_objects c) (mesh_data (self w)))).
      { rewrite Hsplit. apply in_or_app. now left. }
      apply filter_In in Hin. apply Hin. }
  simpl for_each. erewrite bind_Raise; [reflexivity|].
  erewrite bind_Raise; [reflexivity|].
  unfold del_last_update. rewrite bind_gets. simpl.
  now rewrite mem_del_all, Hmiss, andb_false_r.
Qed.

(** X18. [free] relies on every snapshot having a timestamp entry. It
    returns exactly when every identity with a snapshot is selected or
    has a timestamp entry; otherwise [del self.last_update[id]] raises
    [KeyError] for a deselected identity that has a snapshot but no
    timestamp, before that identity's snapshot is removed. *)
Theorem free_returns_iff c w :
  NoDup (keys (mesh_data (self w))) ->
  (result_of (free c w) = Ok tt <->
   forall id, mem id (mesh_data (self w)) = true ->
              In id (selected_names c) \/ mem id (last_update (self w)) = true) /\
  (forall x, result_of (free c w) = Raise x ->
     exists id,
       x = KeyError id /\
       mem id (mesh_data (self w)) = true /\
       ~ In id (selected_names c) /\
       mem id (last_update (self w)) = false /\
       mem id (mesh_data (self (world_of (free c w)))) = true).
Proof.
  intros Hnd.
  set (ao := get_active_objects c).
  set (ids := obsolete ao (mesh_data (self w))).
  assert (Hobs : forall id, In id ids ->
                   mem id (mesh_data (self w)) = true /\ ~ In id (selected_names c)).
  { intros id Hin. apply filter_In in Hin. destruct Hin as [Hk Hao].
    split; [now apply mem_In|].
    intros Hsel. apply active_objects_mem in Hsel. fold ao in Hsel.
    now rewrite Hsel in Hao. }
  destruct (existsb (fun id => negb (mem id (last_update (self w)))) ids) eqn:Hex.
  - apply existsb_exists in Hex. destruct Hex as (id0 & Hin0 & Hp0).
    destruct (first_such (fun id => negb (mem id (last_update (self w)))) ids id0 Hin0 Hp0)
      as (before & id & rest & Hsplit & Hp & Hbefore).
    apply negb_true_iff in Hp.
    assert (Hrun := free_missing_timestamp_run c w before id rest Hnd Hsplit).
    rewrite Hrun; [|intros k Hk; now apply negb_false_iff, Hbefore | exact Hp].
    assert (Hin : In id ids).
    { unfold ids in *. rewrite Hsplit. apply in_or_app. right. now left. }
    destruct (Hobs id Hin) as [Hmd Hnsel].
    split.
    + split; [discriminate|]. intros Hall.
      destruct (Hall id Hmd) as [Hsel|Hlu]; [contradiction | congruence].
    + intros x Hx. injection Hx as <-. exists id.
      repeat split; try assumption.
      simpl. rewrite mem_del_all, Hmd, andb_true_r. apply negb_true_iff.
      destruct (existsb (fun id' => id' =? id)%string before) eqn:E; [|reflexivity].
      apply existsb_exists in E. destruct E as (k & Hk & Heq).
      apply String.eqb_eq in Heq. subst k.
      assert (Hids : NoDup (before ++ id :: rest)).
      { rewrite <- Hsplit. now apply NoDup_filter. }
      apply NoDup_remove_2 in Hids. exfalso. apply Hids. apply in_or_app. now left.
  - assert (Hall : forall id, In id ids -> mem id (last_update (self w)) = true).
    { intros id Hin.
      destruct (mem id (last_update (self w))) eqn:E; [reflexivity|].
      assert (existsb (fun id => negb (mem id (last_update (self w)))) ids = true).
      { apply existsb_exists. exists id. now rewrite E. }
      congruence. }
    assert (Hrun : free c w = (Ok tt, with_self (freed c) w, [])).
    { unfold free. rewrite bind_gets.
      rewrite free_loop_run; [reflexivity | now apply NoDup_filter |].
      intros id Hid. split; [now apply Hall | now apply Hobs]. }
    rewrite Hrun. split; [|discriminate].
    split; [|reflexivity]. intros _ id Hmd.
    destruct (mem id ao) eqn:Hao.
    + left. now apply active_objects_mem.
    + right. apply Hall. apply filter_In. split; [now apply mem_In | now rewrite Hao].
Qed.

End Free.

(** ** From an edit to the refresh *)

Section EditThenTick.
Context `{Collaborators}.

(** X14. An edit is refreshed by the next tick after its due time. With
    the timer running, a notification with one geometry update of a
    selected mesh object that has a snapshot schedules it; if the next
    tick, with the object still selected and the UV-editor visibility
    unchanged, reads the clock more than 0.1 s after the notification
    did, and no due timestamp belongs to an identity that is neither
    selected nor has a snapshot, then [heartbeat] returns, makes the full
    refresh of that object from the snapshot it had, with the pushes and
    the redraw request when the refresh reports a change, and clears its
    timestamp. *)
Theorem edit_then_tick_refreshes cn c update id w :
  reachable w ->
  timer_running (self w) = true ->
  depsgraph_updates cn = [update] ->
  can_skip_depsgraph cn update = false ->
  upd_id update = Some id ->
  active_mesh c ->
  In (id_name id) (selected_names c) ->
  mem (id_name id) (mesh_data (self w)) = true ->
  uv_editor_visible (self w) = uv_editor_visibility c ->
  let w1 := after (DepsgraphHandler cn) w in
  (0 <= now w)%Q ->
  (now w + long_delay < now w1)%Q ->
  (forall k last,
      get k (last_update (self w1)) = Some last -> due (now w1) last = true ->
      In k (selected_names c) \/ mem k (mesh_data (self w)) = true) ->
  exists data obj earlier later,
    get (id_name id) (mesh_data (self w)) = Some data /\
    get (id_name id) (get_active_objects c) = Some obj /\
    result_of (heartbeat c w1) = Ok tt /\
    events_of (heartbeat c w1) =
      earlier ++ refresh_events (id_name id) obj data ++ later /\
    get (id_name id) (last_update (self (after (Heartbeat c) w1))) = Some sentinel /\
    get (id_name id) (mesh_data (self (after (Heartbeat c) w1))) =
      Some (fst (mesh_update data obj false)).
Proof.
  intros Hr Htimer Hupdates Hskip Hid Ham Hsel Htracked Hvis w1 Hpos Hlate Hsafe.
  set (name := id_name id) in *.
  set (ao := get_active_objects c).
  destruct (scheduled_update_run cn update id w Hskip Hid)
    as (lu & delay & Hrun & Hdelay & Hlu).
  assert (Hw1 : w1 = with_self (with_last_update lu) (clock_read w)).
  { unfold w1, after. simpl call. unfold depsgraph_handler.
    rewrite bind_gets, Htimer, Hupdates. simpl.
    rewrite (bind_run _ _ _ _ _ _ Hrun). reflexivity. }
  assert (Hr1 : reachable w1) by now apply reachable_after.
  pose proof (reachable_consistent w1 Hr1) as Hc1.
  assert (Hmd1 : mesh_data (self w1) = mesh_data (self w)) by now rewrite Hw1.
  assert (Hvis1 : uv_editor_visible (self w1) = uv_editor_visibility c)
    by now rewrite Hw1.
  assert (Hao : mem name ao = true) by now apply active_objects_mem.
  set (w0 := with_self (reconciled c) w1).
  assert (Hc0 : consistent (self w0)) by now apply reconciled_consistent.
  assert (Hvis0 : uv_editor_visible (self w0) = uv_editor_visibility c).
  { unfold w0. simpl. now rewrite reconciled_uv_editor_visible. }
  destruct (visibility_unchanged_frame c ao w0 Hvis0)
    as (Hvrun & Hluv & Hmdv & _ & _ & _).
  pose proof (due_timestamps_processed c w1 Hr1 Ham Hvis1) as Hp.
  cbv zeta in Hp. fold ao w0 in Hp. rewrite Hluv, Hmdv in Hp.
  destruct Hp as (w2 & _ & Hdue & _ & Hany).
  { intros k last Hin Hd.
    assert (Hg : get k (last_update (reconciled c (self w1))) = Some last).
    { apply In_get; [apply Hc0 | exact Hin]. }
    unfold w0. simpl. rewrite reconciled_mem_mesh_data. fold ao.
    rewrite reconciled_get_last_update in Hg. fold ao in Hg.
    destruct (mem k ao) eqn:Hk; [reflexivity|].
    destruct (mem k (mesh_data (self w1))) eqn:Hm; [discriminate|].
    destruct (Hsafe k last Hg Hd) as [Hs|Hs].
    - apply active_objects_mem in Hs. fold ao in Hs. congruence.
    - rewrite Hmd1 in Hm. congruence. }
  assert (Hgl : get name (last_update (self w0)) = Some (now w + delay)%Q).
  { unfold w0. simpl. rewrite reconciled_get_last_update. fold ao.
    rewrite Hao, Hmd1, Htracked, Hw1. simpl. rewrite Hlu. fold name.
    now rewrite String.eqb_refl. }
  assert (Hd : due (now w1) (now w + delay)%Q = true).
  { unfold due. apply andb_true_intro. split; apply Qltb_lt.
    - apply Qle_lt_trans with (y := (now w + long_delay)%Q); [|exact Hlate].
      destruct Hdelay as [-> | ->]; [|apply Qle_refl].
      apply Qlt_le_weak, short_before_long.
    - apply Qlt_le_trans with (y := delay).
      + now destruct Hdelay as [-> | ->].
      + rewrite <- (Qplus_0_l delay) at 1. now apply Qplus_le_l. }
  destruct (Hdue name _ Hgl Hd) as (Hsent & data & obj & Hdata & Hobj & Hnew & b & a & Hev).
  assert (Hdata0 : get name (mesh_data (self w)) = Some data).
  { unfold w0 in Hdata. simpl in Hdata. rewrite reconciled_get_mesh_data in Hdata.
    fold ao in Hdata. rewrite Hao, Hmd1 in Hdata.
    destruct (get name (mesh_data (self w))) as [data0|] eqn:E; [exact Hdata|].
    apply mem_false_get in E. congruence. }
  destruct Hany as [Hbeat _].
  { apply existsb_exists. exists (name, (now w + delay)%Q). split; [|exact Hd].
    now apply get_In. }
  exists data, obj,
    (MousePosition :: mode_events c (self w1) ++
     events_of (handle_uv_edtitor_visibility_changed c ao w0) ++ b), a.
  split; [exact Hdata0|]. split; [exact Hobj|].
  unfold after. simpl call. rewrite Hbeat.
  split; [reflexivity|]. split; [|split; [exact Hsent | exact Hnew]].
  unfold events_of. cbn [snd]. rewrite Hev.
  now rewrite <- app_comm_cons, <- !app_assoc.
Qed.

End EditThenTick.

(** ** A selection operator seen while timestamps are due *)

Section Postponed.
Context `{Collaborators}.

Local Abbreviation not_selection_only :=
  (fun e : Event =>
     match e with
     | MeshUpdate _ _ selection_only _ => selection_only = false
     | _ => True
     end).

Lemma refresh_events_not_selection_only id obj data :
  Forall not_selection_only (refresh_events id obj data).
Proof.
  unfold refresh_events. destruct (mesh_update data obj false) as [data' []];
    repeat constructor.
Qed.

Lemma due_events_not_selection_only md ao t (lu : dict Time) :
  Forall not_selection_only (due_events md ao t lu).
Proof.
  unfold due_events. induction lu as [|[id last] r IH]; simpl; [constructor|].
  apply Forall_app. split; [|exact IH].
  destruct (due t last); [|constructor].
  unfold refresh_events_of. destruct (get id md); [|constructor].
  destruct (get id ao); [|constructor].
  apply refresh_events_not_selection_only.
Qed.

Lemma handle_id_updates_reads ao w :
  perf_reads (world_of (handle_id_updates ao w)) = S (perf_reads w).
Proof.
  assert (Hk : forall t,
             world_keeps (fun w' => perf_reads w' = S (perf_reads w))
               (items <- gets last_update ;;
                fold_items (handle_id_update ao t) false items)).
  { intros t.
    unfold handle_id_update, set_last_update, mesh_data_update, set_mesh_data,
      renderer_view3d_update, renderer_uv_update, tag_redraw_all_views.
    repeat first [ apply world_keeps_modify; now intros w3 | world_step ]. }
  unfold handle_id_updates. rewrite world_of_bind. now apply Hk.
Qed.

(** X16. A tick that processes a due timestamp does not look at the
    operators: when a selected identity with a snapshot is due, the
    UV-editor visibility has not changed and no due timestamp is an
    orphan, [heartbeat] returns with [self.op] as it was and makes no
    selection-only refresh, whatever the last operator of the host is; a
    new selection operator is therefore still new on the next tick. *)
Theorem due_tick_postpones_operator c w id last :
  reachable w -> active_mesh c ->
  uv_editor_visible (self w) = uv_editor_visibility c ->
  get id (last_update (self w)) = Some last ->
  due (now w) last = true ->
  In id (selected_names c) ->
  mem id (mesh_data (self w)) = true ->
  (forall k last',
      get k (last_update (self w)) = Some last' -> due (now w) last' = true ->
      In k (selected_names c) \/ mem k (mesh_data (self w)) = true) ->
  result_of (heartbeat c w) = Ok tt /\
  op (self (after (Heartbeat c) w)) = op (self w) /\
  perf_reads (after (Heartbeat c) w) = S (perf_reads w) /\
  Forall not_selection_only (events_of (heartbeat c w)).
Proof.
  intros Hr Ham Hvis Hg Hd Hsel Htracked Hsafe.
  pose proof (reachable_consistent w Hr) as Hc.
  set (ao := get_active_objects c).
  assert (Hao : mem id ao = true) by now apply active_objects_mem.
  set (w0 := with_self (reconciled c) w).
  assert (Hc0 : consistent (self w0)) by now apply reconciled_consistent.
  assert (Hvis0 : uv_editor_visible (self w0) = uv_editor_visibility c).
  { unfold w0. simpl. now rewrite reconciled_uv_editor_visible. }
  pose proof (visibility_unchanged_run c ao w0 Hvis0) as Hv.
  destruct (visibility_unchanged_frame c ao w0 Hvis0)
    as (Hvrun & Hluv & Hmdv & _ & _ & Hread).
  pose proof (due_timestamps_processed c w Hr Ham Hvis) as Hp.
  cbv zeta in Hp. fold ao w0 in Hp. rewrite Hluv, Hmdv in Hp.
  destruct Hp as (w2 & Hids & _ & _ & Hany).
  { intros k last' Hin Hdk.
    assert (Hgk : get k (last_update (reconciled c (self w))) = Some last').
    { apply In_get; [apply Hc0 | exact Hin]. }
    unfold w0. simpl. rewrite reconciled_mem_mesh_data. fold ao.
    rewrite reconciled_get_last_update in Hgk. fold ao in Hgk.
    destruct (mem k ao) eqn:Hk; [reflexivity|].
    destruct (mem k (mesh_data (self w))) eqn:Hm; [discriminate|].
    destruct (Hsafe k last' Hgk Hdk) as [Hs|Hs]; [|congruence].
    apply active_objects_mem in Hs. fold ao in Hs. congruence. }
  destruct Hany as [Hbeat Hop].
  { apply existsb_exists. exists (id, last). split; [|exact Hd].
    apply get_In. unfold w0. simpl. rewrite reconciled_get_last_update. fold ao.
    now rewrite Hao, Htracked. }
  unfold after. simpl call. rewrite Hbeat.
  split; [reflexivity|]. split; [exact Hop|]. split.
  - pose proof (handle_id_updates_reads ao
                  (world_of (handle_uv_edtitor_visibility_changed c ao w0))) as Hreads.
    rewrite Hids in Hreads. unfold world_of at 1 in Hreads. simpl in Hreads.
    unfold world_of at 1. cbn [fst snd]. rewrite Hreads.
    assert (Hr1 : perf_reads
                    (clock_read (world_of (handle_uv_edtitor_visibility_changed c ao w0))) =
                  perf_reads (with_self
                    (fun _ => self (world_of (handle_uv_edtitor_visibility_changed c ao w0)))
                    (clock_read w0))) by now rewrite Hread.
    simpl in Hr1. exact Hr1.
  - unfold events_of. cbn [snd]. constructor; [exact I|].
    apply Forall_app. split.
    { unfold mode_events.
      destruct (negb (tool_uv_select_mode c =? uv_select_mode (self w))%string);
        repeat (constructor; try exact I). }
    apply Forall_app. split; [|apply due_events_not_selection_only].
    rewrite Hv.
    destruct (negb (uv_editor_visible (self w0)) && enabled (renderer_view3d (self w0)));
      repeat (constructor; try exact I).
Qed.

End Postponed.

(** ** Deselected objects *)

Section Cleanup.
Context `{Collaborators}.

(** C8. When [A] and [B] are both selected on one tick with an active mesh
    object, both have a snapshot and a timestamp entry after it, and still
    have them after any notifications in between. When the next tick finds
    only [A] selected, [free] returns having removed [B] from both
    dictionaries and having left the snapshot and the timestamp of [A] as
    they were, and so does the whole reconciliation; when the tick ends,
    whichever handler ended it, [B] is in neither dictionary, [A] is in
    both, and the timestamp of [A] is what it was before the tick unless
    the loop of the due timestamps has cleared it. *)
Theorem deselected_object_is_freed c1 c2 between w A B :
  reachable w ->
  active_mesh c1 -> In A (selected_names c1) -> In B (selected_names c1) ->
  active_mesh c2 -> (forall k, In k (selected_names c2) <-> k = A) ->
  A <> B ->
  let w1 := after (Heartbeat c1) w in
  let w1' := after_all (map DepsgraphHandler between) w1 in
  let w2 := after (Heartbeat c2) w1' in
  tracked A (self w1) /\ tracked B (self w1) /\
  tracked A (self w1') /\ tracked B (self w1') /\
  free c2 w1' = (Ok tt, with_self (freed c2) w1', []) /\
  mem B (mesh_data (freed c2 (self w1'))) = false /\
  mem B (last_update (freed c2 (self w1'))) = false /\
  get A (mesh_data (freed c2 (self w1'))) = get A (mesh_data (self w1')) /\
  get A (last_update (freed c2 (self w1'))) = get A (last_update (self w1')) /\
  get A (mesh_data (reconciled c2 (self w1'))) = get A (mesh_data (self w1')) /\
  get A (last_update (reconciled c2 (self w1'))) = get A (last_update (self w1')) /\
  mem B (mesh_data (self w2)) = false /\
  mem B (last_update (self w2)) = false /\
  tracked A (self w2) /\
  (forall v, get A (last_update (self w2)) = Some v ->
             v = sentinel \/ get A (last_update (self w1')) = Some v).
Proof.
  intros Hr Ham1 HA HB Ham2 Honly Hne w1 w1' w2.
  pose proof (reachable_consistent w Hr) as Hc.
  assert (Hr1 : reachable w1) by now constructor.
  assert (Hr1' : reachable w1') by now apply reachable_after_all.
  assert (Hr2 : reachable w2) by now constructor.
  pose proof (reachable_consistent _ Hr1) as (_ & _ & Hsub1).
  pose proof (reachable_consistent _ Hr1') as Hc1'.
  pose proof (reachable_consistent _ Hr2) as (_ & _ & Hsub2).
  destruct (heartbeat_keys c1 w Hc Ham1) as [Hm1 _].
  destruct (heartbeat_keys c2 w1' Hc1' Ham2) as [Hm2 Hl2].
  assert (Htr1 : forall k, In k (selected_names c1) -> tracked k (self w1)).
  { intros k Hk. apply active_objects_mem in Hk.
    assert (Hk1 : mem k (mesh_data (self w1)) = true).
    { unfold w1, after. simpl call. now rewrite Hm1. }
    split; [exact Hk1 | now apply Hsub1]. }
  assert (Htr1' : forall k, In k (selected_names c1) -> tracked k (self w1')).
  { intros k Hk. apply after_all_keeps; [|now apply Htr1].
    intros a Ha. apply in_map_iff in Ha. destruct Ha as [c [<- _]].
    apply keeps_tracked_depsgraph_handler. }
  destruct (Htr1' A HA) as [HAm HAl]. destruct (Htr1' B HB) as [HBm HBl].
  assert (HB2 : mem B (get_active_objects c2) = false).
  { apply mem_false_In. intros Hin. apply mem_In, active_objects_mem, Honly in Hin.
    congruence. }
  assert (HA2 : mem A (get_active_objects c2) = true).
  { apply active_objects_mem, Honly. reflexivity. }
  assert (HobsA : existsb (fun id => id =? A)%string
                    (obsolete (get_active_objects c2) (mesh_data (self w1'))) = false).
  { now rewrite obsolete_spec, HAm, HA2. }
  assert (HobsB : existsb (fun id => id =? B)%string
                    (obsolete (get_active_objects c2) (mesh_data (self w1'))) = true).
  { now rewrite obsolete_spec, HBm, HB2. }
  split; [now apply Htr1|]. split; [now apply Htr1|].
  split; [now split|]. split; [now split|].
  split; [now apply free_run|].
  split; [unfold freed; simpl; now rewrite mem_del_all, HobsB|].
  split; [unfold freed; simpl; now rewrite mem_del_all, HobsB|].
  split; [unfold freed; simpl; now rewrite get_del_all, HobsA|].
  split; [unfold freed; simpl; now rewrite get_del_all, HobsA|].
  split.
  { rewrite reconciled_get_mesh_data, HA2.
    apply mem_get in HAm. destruct HAm as [data ->]. reflexivity. }
  split.
  { now rewrite reconciled_get_last_update, HA2, HAm. }
  split; [|split; [|split; [split|]]].
  - unfold w2, after. simpl call. now rewrite Hm2.
  - unfold w2, after. simpl call. rewrite Hl2.
    unfold mem at 1. now rewrite reconciled_get_last_update, HB2, HBm.
  - unfold w2, after. simpl call. now rewrite Hm2.
  - apply Hsub2. unfold w2, after. simpl call. now rewrite Hm2.
  - intros v Hv. now apply (heartbeat_timestamps c2 w1' A v Hc1').
Qed.

End Cleanup.

(** * Concrete runs of the further properties *)

Section FurtherRuns.
Import Scenario.

Lemma idle_ticks_witness :
  after_all (map Heartbeat [lamp_active; context None [cube] [view3d_area] []])
    cube_tracked_and_scheduled = cube_tracked_and_scheduled /\
  get "Cube" (last_update (self cube_tracked_and_scheduled)) = Some (101 # 100).
Proof.
  split; [|reflexivity].
  apply (idle_ticks_change_nothing
           [lamp_active; context None [cube] [view3d_area] []]
           cube_tracked_and_scheduled).
  repeat constructor; intros (obj & Ho & Ht).
  - injection Ho as <-. discriminate.
  - discriminate.
Defined.

Lemma expired_entry_witness :
  get "Cube" (last_update (self cube_tracked_and_scheduled)) = Some (101 # 100) /\
  now cube_tracked_and_scheduled = 2 /\
  get "Cube"
    (last_update
       (self (world_of (handle_depsgraph_update editing_cube cube_edited
                          cube_tracked_and_scheduled)))) =
  Some (2 + short_delay)%Q.
Proof.
  split; [reflexivity|]. split; [reflexivity|].
  destruct (expired_entry_is_rescheduled editing_cube cube_edited cube_id
              cube_tracked_and_scheduled (101 # 100))
    as (_ & Hg & _).
  - reflexivity.
  - reflexivity.
  - reflexivity.
  - intros [Hlt _]. vm_compute in Hlt. discriminate.
  - exact Hg.
Defined.

Lemma selection_operator_witness :
  result_of (heartbeat cube_selection_changed cube_shown) = Ok tt /\
  op (self (after (Heartbeat cube_selection_changed) cube_shown)) = Some select_all /\
  get "Cube" (mesh_data (self (after (Heartbeat cube_selection_changed) cube_shown))) =
  Some (Some 8%nat).
Proof.
  destruct (selection_operator_refreshes_snapshots cube_selection_changed cube_shown
              select_all)
    as (w2 & Hbeat & Hop & _ & _ & Hmd).
  - apply reachable_world0_after.
  - exists cube_reshaped. split; reflexivity.
  - reflexivity.
  - intros id last Hg. apply get_In in Hg. vm_compute in Hg.
    destruct Hg as [Heq|[]]. injection Heq as <- <-. reflexivity.
  - reflexivity.
  - reflexivity.
  - unfold after. simpl call. rewrite Hbeat.
    split; [reflexivity|]. split; [exact Hop|].
    destruct (Hmd "Cube" cube_reshaped eq_refl) as (data & Hdata & Hnew).
    injection Hdata as <-. exact Hnew.
Defined.

Lemma editor_closed_witness :
  uv_editor_visible (self cube_shown) = true /\
  result_of (heartbeat watching_cube cube_shown) = Ok tt /\
  uv_editor_visible (self (after (Heartbeat watching_cube) cube_shown)) = false /\
  events_of (heartbeat watching_cube cube_shown) =
  [MousePosition; RendererDisable View3d; TagRedrawAllViews].
Proof.
  split; [reflexivity|].
  destruct (editor_closed_tick watching_cube cube_shown) as (Hbeat & _).
  - apply reachable_world0_after.
  - exists cube. split; reflexivity.
  - reflexivity.
  - reflexivity.
  - unfold after. simpl call. rewrite Hbeat. now repeat split.
Defined.

Lemma tick_mirrors_host_witness :
  uv_select_mode (self cube_shown) = "VERTEX" /\
  uv_select_mode (self (after (Heartbeat cube_selection_changed) cube_shown)) = "EDGE" /\
  uv_editor_visible (self (after (Heartbeat cube_selection_changed) cube_shown)) = true.
Proof.
  split; [reflexivity|].
  destruct (tick_mirrors_host cube_selection_changed cube_shown) as (Hmode & Hvis & _).
  - apply reachable_world0_after.
  - exists cube_reshaped. split; reflexivity.
  - split; [exact Hmode | exact Hvis].
Defined.

Lemma tick_returns_witness :
  get "Cube" (last_update (self cube_tracked_and_scheduled)) = Some (101 # 100) /\
  result_of (heartbeat watching_cube cube_tracked_and_scheduled) = Ok tt.
Proof.
  split; [reflexivity|].
  apply (tick_returns_without_due_orphan watching_cube cube_tracked_and_scheduled).
  - apply reachable_world0_after.
  - intros id last Hg _. apply get_In in Hg. vm_compute in Hg.
    destruct Hg as [Heq|[]]. injection Heq as <- <-. left. simpl. now left.
Defined.

Lemma tick_raises_witness :
  exists id' last',
    result_of (heartbeat sphere_reshaped_in_uv_editor stranded) = Raise (KeyError id') /\
    get id' (last_update (self stranded)) = Some last' /\
    due (now stranded) last' = true /\
    ~ In id' (selected_names sphere_reshaped_in_uv_editor) /\
    mem id' (mesh_data (self stranded)) = false /\
    get id' (last_update (self (after (Heartbeat sphere_reshaped_in_uv_editor) stranded))) =
    Some sentinel.
Proof.
  apply (tick_raises_on_due_orphan sphere_reshaped_in_uv_editor stranded
           "Cube" (1 # 100)).
  - apply reachable_world0_after.
  - exists sphere_reshaped. split; reflexivity.
  - reflexivity.
  - reflexivity.
  - reflexivity.
  - simpl. intros [Heq|[]]. discriminate.
  - reflexivity.
Defined.

Lemma edit_then_tick_witness :
  let w := after_all [DepsgraphHandler editing_cube; Heartbeat watching_cube] world0 in
  let w1 := after (DepsgraphHandler editing_cube) w in
  exists data obj earlier later,
    get "Cube" (mesh_data (self w)) = Some data /\
    get "Cube" (get_active_objects watching_cube) = Some obj /\
    result_of (heartbeat watching_cube w1) = Ok tt /\
    events_of (heartbeat watching_cube w1) =
      earlier ++ refresh_events "Cube" obj data ++ later /\
    get "Cube" (last_update (self (after (Heartbeat watching_cube) w1))) = Some sentinel /\
    get "Cube" (mesh_data (self (after (Heartbeat watching_cube) w1))) =
      Some (fst (mesh_update data obj false)).
Proof.
  intros w w1.
  apply (edit_then_tick_refreshes editing_cube watching_cube cube_edited cube_id w).
  - apply reachable_world0_after.
  - reflexivity.
  - reflexivity.
  - reflexivity.
  - reflexivity.
  - exists cube. split; reflexivity.
  - simpl. now left.
  - reflexivity.
  - reflexivity.
  - discriminate.
  - reflexivity.
  - intros k last Hg _. apply get_In in Hg. vm_compute in Hg.
    destruct Hg as [Heq|[]]. injection Heq as <- <-. left. simpl. now left.
Defined.

Lemma timestamps_witness :
  (0 <= clock 2)%Q /\
  get "Cube" (last_update (self cube_tracked_and_scheduled)) = Some (101 # 100) /\
  sentinel_or_positive (self cube_tracked_and_scheduled).
Proof.
  split; [discriminate|]. split; [reflexivity|].
  apply (@timestamps_sentinel_or_positive SpecCollaborators
           [DepsgraphHandler editing_cube; Heartbeat watching_cube;
            DepsgraphHandler editing_cube]
           renderer_on renderer_off clock).
  intros n. unfold clock, Qle. simpl. lia.
Defined.

Lemma postponed_operator_witness :
  let c := {| active_object := Some cube; selected_objects := [cube];
              tool_uv_select_mode := "VERTEX"; areas := [view3d_area];
              operators := [select_all]; depsgraph_updates := [] |} in
  op (self cube_tracked_and_scheduled) = None /\
  result_of (heartbeat c cube_tracked_and_scheduled) = Ok tt /\
  op (self (after (Heartbeat c) cube_tracked_and_scheduled)) = None /\
  perf_reads (after (Heartbeat c) cube_tracked_and_scheduled) = 3%nat.
Proof.
  intros c. split; [reflexivity|].
  destruct (due_tick_postpones_operator c cube_tracked_and_scheduled "Cube" (101 # 100))
    as (Hok & Hop & Hreads & _).
  - apply reachable_world0_after.
  - exists cube. split; reflexivity.
  - reflexivity.
  - reflexivity.
  - reflexivity.
  - simpl. now left.
  - reflexivity.
  - intros k last Hg _. apply get_In in Hg. vm_compute in Hg.
    destruct Hg as [Heq|[]]. injection Heq as <- <-. left. simpl. now left.
  - split; [exact Hok|]. split; [exact Hop | exact Hreads].
Defined.

Lemma tick_only_clears_witness :
  get "Cube" (last_update (self cube_tracked_and_scheduled)) = Some (101 # 100) /\
  (sentinel = sentinel \/
   get "Cube" (last_update (self cube_tracked_and_scheduled)) = Some sentinel).
Proof.
  split; [reflexivity|].
  apply (tick_only_clears_timestamps watching_cube cube_tracked_and_scheduled
           "Cube" sentinel).
  - apply reachable_world0_after.
  - reflexivity.
Defined.

Lemma free_returns_witness :
  let w := after (Heartbeat both_selected) world0 in
  keys (mesh_data (self w)) = ["Cube"; "Sphere"] /\
  result_of (free watching_cube w) = Ok tt.
Proof.
  intros w. split; [reflexivity|].
  destruct (free_returns_iff watching_cube w) as [[_ Hback] _].
  - repeat constructor; simpl; intuition discriminate.
  - apply Hback. intros id Hm. right.
    apply mem_In in Hm. apply mem_In.
    vm_compute in Hm. vm_compute. exact Hm.
Defined.

Lemma reconcile_after_tick_witness :
  let w' := after (Heartbeat cube_selection_changed) cube_shown in
  uv_select_mode (self cube_shown) = "VERTEX" /\
  reconcile cube_selection_changed w' = (Ok tt, w', []).
Proof.
  intros w'. split; [reflexivity|].
  apply (reconcile_after_tick_changes_nothing cube_selection_changed cube_shown).
  - apply reachable_world0_after.
  - exists cube_reshaped. split; reflexivity.
Defined.

Lemma deselected_object_witness :
  let w1 := after (Heartbeat both_in_uv_editor) world0 in
  let w1' := after_all (map DepsgraphHandler [editing_cube; editing_cube]) w1 in
  let w2 := after (Heartbeat cube_in_uv_editor) w1' in
  get "Cube" (mesh_data (self w1')) = Some (Some 7%nat) /\
  get "Cube" (last_update (self w1')) = Some (1 # 100) /\
  tracked "Sphere" (self w1') /\
  get "Cube" (mesh_data (freed cube_in_uv_editor (self w1'))) = Some (Some 7%nat) /\
  get "Cube" (last_update (freed cube_in_uv_editor (self w1'))) = Some (1 # 100) /\
  get "Cube" (mesh_data (reconciled cube_in_uv_editor (self w1'))) = Some (Some 7%nat) /\
  get "Cube" (last_update (reconciled cube_in_uv_editor (self w1'))) = Some (1 # 100) /\
  mem "Sphere" (mesh_data (self w2)) = false /\
  mem "Sphere" (last_update (self w2)) = false /\
  tracked "Cube" (self w2).
Proof.
  intros w1 w1' w2.
  destruct (deselected_object_is_freed both_in_uv_editor cube_in_uv_editor
              [editing_cube; editing_cube] world0 "Cube" "Sphere")
    as (_ & _ & _ & HS & _ & _ & _ & Hfm & Hfl & Hrm & Hrl & HSm & HSl & HC & _).
  - apply reachable_initial.
  - exists cube. split; reflexivity.
  - simpl. left. reflexivity.
  - simpl. right. left. reflexivity.
  - exists cube. split; reflexivity.
  - intros k. simpl. split; [intros [Hk | []]; now symmetry | intros ->; now left].
  - discriminate.
  - split; [reflexivity|]. split; [reflexivity|]. split; [exact HS|].
    split; [exact Hfm|]. split; [exact Hfl|]. split; [exact Hrm|]. split; [exact Hrl|].
    split; [exact HSm|]. split; [exact HSl | exact HC].
Defined.

End FurtherRuns.
